(** * Human-like input simulation and safety monitoring (wow-game-agent)

    A shallow embedding of the classes of the game-automation tool:

    - [CubicBezier] and [HumanLikeBezierGenerator] (core/human-input):
      curves, mouse path synthesis, aiming correction;
    - [HumanReactionModel], [IntelligentDelayCalculator] and the confidence
      of [HumanInputSimulator] (core/human-input): reaction times and delays;
    - [BehaviorRandomizer] (core/safety-monitor): delay and sequence
      randomization with its variation history, attention and statistics;
    - [SafetyMonitor] (core/safety-monitor): alerts, fatigue, safety score,
      the emergency stop and the queries.

    Conventions of the embedding.

    - A JavaScript [number] is a rational ([Q]); comparisons and equalities
      between numbers are those of [Q] ([==], [<=]).  Rounding of binary
      floating point is not modelled, and a division whose divisor is zero
      (NaN or an infinity in JavaScript) is outside the model: a theorem
      about a value that the code computes with a quotient carries the
      hypothesis that makes the divisor non-zero.  The one quotient that is
      modelled at a zero divisor is the step count of [generateMousePath]
      ([pathSteps]), where NaN is the absence of a value; zero has no sign
      in [Q], so a speed of [-0] is not told from a speed of [0].
    - [Math.sqrt], [Math.log], [Math.log2], [Math.cos] and [Math.PI] belong
      to the runtime, not to the repository: they are the fields of a
      [MathLib] record over which every definition is parametric.
    - [Math.random] (or the injected generator) is a tape of draws, each in
      [[0, 1)]; a computation that needs more draws than the tape holds has
      no result ([None]).
    - [Date.now()] / [new Date()] is the argument [now] (milliseconds) of the
      operation that reads the clock.
    - Log output, alert ids and the human-readable strings of alerts and
      variations (message, details, originalAction, modifiedAction,
      description) carry no behaviour and are left out of the records. *)

From Stdlib Require Import String QArith Qminmax Qround Qabs Lqa ZArith Bool Lia List.
From Stdlib Require Import Permutation Sorted.
Import ListNotations.
Local Open Scope Q_scope.

(** ** Numbers *)

Definition Qltb (a b : Q) : bool := negb (Qle_bool b a).

Definition Math_max (a b : Q) : Q := Qmax a b.
Definition Math_min (a b : Q) : Q := Qmin a b.
Definition Math_abs (a : Q) : Q := Qabs a.
Definition Math_floor (a : Q) : Z := Qfloor a.
Definition Math_pow (a : Q) (n : Z) : Q := Qpower a n.

(** The part of the runtime's [Math] object that the code calls. *)
Record MathLib : Type := mkMathLib {
  Math_sqrt : Q -> Q;
  Math_log : Q -> Q;
  Math_log2 : Q -> Q;
  Math_cos : Q -> Q;
  Math_PI : Q
}.

(** ** Stateful, fallible computations *)

Definition Prog (S A : Type) : Type := S -> option (A * S).

Definition ret {S A : Type} (a : A) : Prog S A := fun s => Some (a, s).

Definition bind {S A B : Type} (m : Prog S A) (k : A -> Prog S B) : Prog S B :=
  fun s => match m s with
           | Some (a, s') => k a s'
           | None => None
           end.

Declare Scope prog_scope.
Delimit Scope prog_scope with prog.
Notation "x <- m ;; k" := (bind m (fun x => k))
  (at level 61, m at next level, right associativity) : prog_scope.
Notation "m ;;; k" := (bind m (fun _ => k))
  (at level 61, right associativity) : prog_scope.
Local Open Scope prog_scope.

Definition when {S : Type} (b : bool) (m : Prog S unit) : Prog S unit :=
  if b then m else ret tt.

(** ** The random source *)

Module Rng.

Definition Tape : Type := list Q.

(** A draw of [Math.random()]: a number of [[0, 1)]. *)
Definition validDraw (q : Q) : bool := Qle_bool 0 q && Qltb q 1.

Definition random : Prog Tape Q := fun t =>
  match t with
  | [] => None
  | q :: t' => if validDraw q then Some (q, t') else None
  end.

(** [let u = 0; while (u === 0) u = this.random();] *)
Fixpoint drawNonZero (t : Tape) : option (Q * Tape) :=
  match t with
  | [] => None
  | q :: t' =>
      if validDraw q
      then if Qeq_bool q 0 then drawNonZero t' else Some (q, t')
      else None
  end.

(** Box-Muller transform, the private [gaussianRandom] of each class. *)
Definition gaussianRandom (M : MathLib) (mean stdDev : Q) : Prog Tape Q :=
  u <- drawNonZero ;;
  v <- drawNonZero ;;
  let z := Math_sqrt M (- 2.0 * Math_log M u) * Math_cos M (2.0 * Math_PI M * v) in
  ret (z * stdDev + mean).

End Rng.

(** ** Geometry: points and cubic Bezier curves *)

Record IPoint : Type := mkPoint { px : Q; py : Q }.

Definition IPoint_eq (a b : IPoint) : Prop := px a == px b /\ py a == py b.

Record IMousePathConfig : Type := mkPathConfig {
  startPoint : IPoint;
  endPoint : IPoint;
  curvature : Q;
  speed : Q;
  deviation : Q;
  noise : Q
}.

Module CubicBezier.

Record t : Type := mk { p0 : IPoint; p1 : IPoint; p2 : IPoint; p3 : IPoint }.

Definition coord (a b c d u : Q) : Q :=
  Math_pow (1 - u) 3 * a +
  3 * Math_pow (1 - u) 2 * u * b +
  3 * (1 - u) * Math_pow u 2 * c +
  Math_pow u 3 * d.

Definition getPoint (b : t) (u : Q) : IPoint :=
  mkPoint (coord (px (p0 b)) (px (p1 b)) (px (p2 b)) (px (p3 b)) u)
          (coord (py (p0 b)) (py (p1 b)) (py (p2 b)) (py (p3 b)) u).

(** One round of the loop of [getLength]: [i] is the loop counter. *)
Definition lengthStep (M : MathLib) (b : t) (steps : Z)
    (acc : Q * IPoint) (i : Z) : Q * IPoint :=
  let '(length, prevPoint) := acc in
  let u := inject_Z i / inject_Z steps in
  let point := getPoint b u in
  let distance := Math_sqrt M
    (Math_pow (px point - px prevPoint) 2 +
     Math_pow (py point - py prevPoint) 2) in
  (length + distance, point).

Definition getLength (M : MathLib) (b : t) : Q :=
  let steps := 100%Z in
  fst (fold_left (lengthStep M b steps)
                 (map Z.of_nat (seq 1 (Z.to_nat steps)))
                 (0, p0 b)).

End CubicBezier.

Module HumanLikeBezierGenerator.

Import Rng.

Definition generateControlPoints (M : MathLib)
    (start end_ : IPoint) (curvature deviation : Q)
    : Prog Tape (IPoint * IPoint) :=
  let dx := px end_ - px start in
  let dy := py end_ - py start in
  let length := Math_sqrt M (dx * dx + dy * dy) in
  if Qeq_bool length 0 then ret (start, end_)
  else
    let unitX := dx / length in
    let unitY := dy / length in
    let perpX := - unitY in
    let perpY := unitX in
    let controlDistance := (length * curvature) / 2 in
    randomDeviation <- gaussianRandom M 0 deviation ;;
    let finalDistance := controlDistance + randomDeviation in
    let cp1 := mkPoint
      (px start + unitX * length * 0.25 + perpX * finalDistance * 0.5)
      (py start + unitY * length * 0.25 + perpY * finalDistance * 0.5) in
    let cp2 := mkPoint
      (px end_ - unitX * length * 0.25 + perpX * finalDistance * 0.5)
      (py end_ - unitY * length * 0.25 + perpY * finalDistance * 0.5) in
    ret (cp1, cp2).

Definition addNoise (M : MathLib) (point : IPoint) (noiseLevel : Q)
    : Prog Tape IPoint :=
  if Qle_bool noiseLevel 0 then ret point
  else
    noiseX <- gaussianRandom M 0 noiseLevel ;;
    noiseY <- gaussianRandom M 0 noiseLevel ;;
    ret (mkPoint (px point + noiseX) (py point + noiseY)).

(** The step count of [generateMousePath]; it need not be a whole number.
    At speed 0 the quotient [pathLength / (2 * speed)] is not a rational:
    it is NaN for a length of 0 ([None]), and otherwise an infinity, which
    the two bounds turn into 100 or into 20. *)
Definition pathSteps (pathLength speed : Q) : option Q :=
  if Qeq_bool speed 0 then
    if Qeq_bool pathLength 0 then None
    else if Qltb 0 pathLength then Some 100 else Some 20
  else Some (Math_max 20 (Math_min 100 (pathLength / (2 * speed)))).

(** [for (let i = 0; i <= steps; i++)]: the counter takes the values
    [0, 1, ..., floor steps]. *)
Definition loopIndices (steps : Q) : list Z :=
  map Z.of_nat (seq 0 (Z.to_nat (Math_floor steps + 1))).

Fixpoint samplePath (M : MathLib) (bezier : CubicBezier.t)
    (steps noise : Q) (indices : list Z) : Prog Tape (list IPoint) :=
  match indices with
  | [] => ret []
  | i :: rest =>
      let u := inject_Z i / steps in
      let point := CubicBezier.getPoint bezier u in
      noisyPoint <- addNoise M point noise ;;
      points <- samplePath M bezier steps noise rest ;;
      ret (noisyPoint :: points)
  end.

Definition generateMousePath (M : MathLib) (config : IMousePathConfig)
    : Prog Tape (list IPoint) :=
  controlPoints <- generateControlPoints M (startPoint config) (endPoint config)
                     (curvature config) (deviation config) ;;
  let bezier := CubicBezier.mk (startPoint config) (fst controlPoints)
                               (snd controlPoints) (endPoint config) in
  let pathLength := CubicBezier.getLength M bezier in
  match pathSteps pathLength (speed config) with
  | Some steps => samplePath M bezier steps (noise config) (loopIndices steps)
  | None =>
      (* [i <= NaN] is false: the loop does not run *)
      ret []
  end.

(** [accuracy] is 0.8 when the argument is left out. *)
Definition generateAimingCorrection (M : MathLib) (currentPoint targetPoint : IPoint)
    (accuracy : option Q) : IPoint :=
  let accuracy := match accuracy with Some a => a | None => 0.8 end in
  let errorX := px targetPoint - px currentPoint in
  let errorY := py targetPoint - py currentPoint in
  let distance := Math_sqrt M (errorX * errorX + errorY * errorY) in
  if Qltb distance 1 then currentPoint
  else
    let correctionFactor := (1 - accuracy) * 0.1 in
    mkPoint (px currentPoint + errorX * correctionFactor)
            (py currentPoint + errorY * correctionFactor).

End HumanLikeBezierGenerator.

(** ** Sessions and input events (types/input.ts) *)

Record IInputSession : Type := mkSession {
  session_id : string;
  startTime : Z;
  endTime : option Z;
  session_operationCount : Z;
  session_errorCount : Z;
  fatigueLevel : Q
}.

Inductive InputEventType : Type :=
| mouse_move | mouse_click | key_press | key_release.

Record IInputEvent : Type := mkEvent {
  event_type : InputEventType;
  event_timestamp : Z;
  event_duration : Q;
  confidence : Q
}.

(** ** Helpers on arrays *)

(** [a.slice(-n)] *)
Definition lastn {A : Type} (n : nat) (l : list A) : list A :=
  skipn (length l - n) l.

(** [a.reduce((sum, x) => sum + x, 0)] *)
Definition sumQ (l : list Q) : Q := fold_left Qplus l 0.

Definition lengthQ {A : Type} (l : list A) : Q := inject_Z (Z.of_nat (length l)).

(** [a.filter((_, index) => keep index)] *)
Fixpoint filterIndexFrom {A : Type} (keep : nat -> bool) (i : nat) (l : list A) : list A :=
  match l with
  | [] => []
  | x :: l' => if keep i then x :: filterIndexFrom keep (S i) l'
               else filterIndexFrom keep (S i) l'
  end.

(** [a[i] = x] for an index inside the array. *)
Fixpoint setNth {A : Type} (i : nat) (x : A) (l : list A) : list A :=
  match l, i with
  | [], _ => []
  | _ :: l', O => x :: l'
  | y :: l', S i' => y :: setNth i' x l'
  end.

(** ** Reaction times and delays (core/human-input) *)

(** The names that an object literal inherits from [Object.prototype]: a
    lookup [table[name] || fallback] finds a function or an object there,
    not a number. *)
Definition inheritedName (name : string) : bool :=
  existsb (String.eqb name)
    ["constructor"; "toString"; "toLocaleString"; "valueOf"; "hasOwnProperty";
     "isPrototypeOf"; "propertyIsEnumerable"; "__proto__"; "__defineGetter__";
     "__defineSetter__"; "__lookupGetter__"; "__lookupSetter__"]%string.

(** [table[name] || fallback] on an object literal of non-zero numbers. *)
Definition lookupOr (table : list (string * Q)) (fallback : Q) (name : string)
    : option Q :=
  if inheritedName name then None
  else
    match find (fun entry => String.eqb (fst entry) name) table with
    | Some entry => Some (snd entry)
    | None => Some fallback
    end.

Module HumanReactionModel.

Import Rng.

(** [contextFactors] is a [Map]: [set] replaces the value of a key that is
    present and appends a new key. *)
Record t : Type := mk {
  baseReactionTime : Q;
  variability : Q;
  fatigueFactor : Q;
  contextFactors : list (string * Q)
}.

Definition create (mean stdDev : Q) : t := mk mean stdDev 0.2 [].

Fixpoint mapSet (key : string) (value : Q) (entries : list (string * Q))
    : list (string * Q) :=
  match entries with
  | [] => [(key, value)]
  | (k, v) :: rest =>
      if String.eqb k key then (k, value) :: rest
      else (k, v) :: mapSet key value rest
  end.

Definition mapGet (key : string) (entries : list (string * Q)) : option Q :=
  option_map snd (find (fun entry => String.eqb (fst entry) key) entries).

Definition setContextFactor (context : string) (factor : Q) (model : t) : t :=
  mk (baseReactionTime model) (variability model) (fatigueFactor model)
     (mapSet context factor (contextFactors model)).

Definition calculateBaseReaction (M : MathLib) (model : t) : Prog Tape Q :=
  gaussianRandom M (baseReactionTime model) (variability model).

Definition calculateFatigueAdjustedReaction (M : MathLib) (model : t)
    (fatigueLevel : Q) : Prog Tape Q :=
  baseTime <- calculateBaseReaction M model ;;
  let fatigueMultiplier := 1 + (fatigueFactor model * fatigueLevel) in
  ret (baseTime * fatigueMultiplier).

Definition calculateComplexityAdjustment (complexity : Q) : Q :=
  let complexityFactor := 1 + (complexity * 0.5) in
  complexityFactor.

Definition calculateAttentionAdjustment (attentionLevel : Q) : Q :=
  let attentionFactor := 2 - attentionLevel in
  attentionFactor.

Record ReactionParams : Type := mkParams {
  params_fatigueLevel : option Q;
  params_complexity : option Q;
  params_attentionLevel : option Q;
  params_context : option string
}.

(** [this.contextFactors.get(context) || 1]: a factor that is absent, or
    zero, counts as 1. *)
Definition contextFactorOf (model : t) (context : string) : Q :=
  match mapGet context (contextFactors model) with
  | Some factor => if Qeq_bool factor 0 then 1 else factor
  | None => 1
  end.

Definition calculateFullReactionTime (M : MathLib) (model : t)
    (params : ReactionParams) : Prog Tape Q :=
  reactionTime <- calculateBaseReaction M model ;;
  let reactionTime :=
    match params_fatigueLevel params with
    | Some fatigueLevel => reactionTime * (1 + (fatigueFactor model * fatigueLevel))
    | None => reactionTime
    end in
  let reactionTime :=
    match params_complexity params with
    | Some complexity => reactionTime * calculateComplexityAdjustment complexity
    | None => reactionTime
    end in
  let reactionTime :=
    match params_attentionLevel params with
    | Some attentionLevel => reactionTime * calculateAttentionAdjustment attentionLevel
    | None => reactionTime
    end in
  let reactionTime :=
    match params_context params with
    | Some context =>
        if String.eqb context EmptyString then reactionTime
        else reactionTime * contextFactorOf model context
    | None => reactionTime
    end in
  ret (Math_max 50 reactionTime).

End HumanReactionModel.

Module IntelligentDelayCalculator.

Inductive DelayDistribution : Type := GAUSSIAN | UNIFORM | EXPONENTIAL | LOG_NORMAL.

Record IInputDelayConfig : Type := mkDelayConfig {
  baseDelay : Q;
  variance : Q;
  distribution : DelayDistribution;
  fatigueMultiplier : Q
}.

Record DelayContext : Type := mkContext {
  operationType : option string;
  complexity : option Q;
  importance : option Q;
  expected : option bool
}.

(** The fields of a calculator; [rng] is what is left of the draws of
    [this.random]. *)
Record t : Type := mk {
  reactionModel : HumanReactionModel.t;
  inputSession : IInputSession;
  rng : Rng.Tape
}.

Definition initializeContextFactors (model : HumanReactionModel.t)
    : HumanReactionModel.t :=
  let model := HumanReactionModel.setContextFactor "gaming" 0.9 model in
  let model := HumanReactionModel.setContextFactor "reading" 1.3 model in
  let model := HumanReactionModel.setContextFactor "typing" 0.8 model in
  let model := HumanReactionModel.setContextFactor "browsing" 1.0 model in
  let model := HumanReactionModel.setContextFactor "stress" 1.4 model in
  HumanReactionModel.setContextFactor "focused" 0.7 model.

Definition create (session : IInputSession) (tape : Rng.Tape) : t :=
  mk (initializeContextFactors (HumanReactionModel.create 250 50)) session tape.

Definition get : Prog t t := fun c => Some (c, c).

Definition fail {A : Type} : Prog t A := fun _ => None.

Definition liftRng {A : Type} (m : Prog Rng.Tape A) : Prog t A := fun c =>
  match m (rng c) with
  | Some (a, tape) => Some (a, mk (reactionModel c) (inputSession c) tape)
  | None => None
  end.

Definition random : Prog t Q := liftRng Rng.random.

Definition gaussianRandom (M : MathLib) (mean stdDev : Q) : Prog t Q :=
  liftRng (Rng.gaussianRandom M mean stdDev).

(** [Math.exp] is a parameter of its own. *)
Definition applyDistribution (M : MathLib) (Math_exp : Q -> Q)
    (baseValue variance : Q) (distribution : DelayDistribution) : Prog t Q :=
  match distribution with
  | GAUSSIAN => gaussianRandom M baseValue variance
  | UNIFORM =>
      x <- random ;;
      ret (baseValue + (x - 0.5) * 2 * variance)
  | EXPONENTIAL =>
      let lambda := 1 / baseValue in
      x <- random ;;
      ret (- Math_log M (1 - x) / lambda)
  | LOG_NORMAL =>
      let logMean := Math_log M baseValue in
      let logStdDev := variance / baseValue in
      logNormal <- gaussianRandom M logMean logStdDev ;;
      ret (Math_exp logNormal)
  end.

Definition getOperationComplexity (operationType : string) : option Q :=
  lookupOr [("simple_click", 0.1); ("drag_drop", 0.4); ("double_click", 0.2);
            ("right_click", 0.2); ("key_combination", 0.3); ("text_input", 0.6);
            ("precision_click", 0.5); ("complex_sequence", 0.8)]%string
           0.3 operationType.

(** [None] where the source multiplies by what is not a number. *)
Definition applyContextAdjustments (delay : Q) (context : DelayContext) : option Q :=
  let adjustedDelay := Some delay in
  let adjustedDelay :=
    match operationType context with
    | Some type =>
        if String.eqb type EmptyString then adjustedDelay
        else
          match adjustedDelay, getOperationComplexity type with
          | Some d, Some c =>
              Some (d * HumanReactionModel.calculateComplexityAdjustment c)
          | _, _ => None
          end
    | None => adjustedDelay
    end in
  let adjustedDelay :=
    match complexity context with
    | Some c =>
        option_map (fun d => d * HumanReactionModel.calculateComplexityAdjustment c)
                   adjustedDelay
    | None => adjustedDelay
    end in
  let adjustedDelay :=
    match importance context with
    | Some i =>
        let importanceFactor := 1 + (i * 0.3) in
        option_map (fun d => d * importanceFactor) adjustedDelay
    | None => adjustedDelay
    end in
  let adjustedDelay :=
    match expected context with
    | Some true => option_map (fun d => d * 0.8) adjustedDelay
    | _ => adjustedDelay
    end in
  adjustedDelay.

Definition calculateDelay (M : MathLib) (Math_exp : Q -> Q)
    (config : IInputDelayConfig) (context : option DelayContext) : Prog t Q :=
  let baseDelay := baseDelay config in
  baseDelay <- applyDistribution M Math_exp baseDelay (variance config)
                 (distribution config) ;;
  c <- get ;;
  let fatigueMultiplier :=
    1 + (fatigueMultiplier config * fatigueLevel (inputSession c)) in
  let baseDelay := baseDelay * fatigueMultiplier in
  baseDelay <-
    match context with
    | Some context =>
        match applyContextAdjustments baseDelay context with
        | Some adjusted => ret adjusted
        | None => fail
        end
    | None => ret baseDelay
    end ;;
  noise <- gaussianRandom M 0 (baseDelay * 0.05) ;;
  let baseDelay := baseDelay + noise in
  ret (Math_max (IntelligentDelayCalculator.baseDelay config * 0.1) baseDelay).

(** [probability] is 0.1 when the argument is left out. *)
Definition calculateHesitationTime (probability : option Q) : Prog t Q :=
  let probability := match probability with Some p => p | None => 0.1 end in
  x <- random ;;
  if Qltb probability x then ret 0
  else
    let baseHesitation := 200 in
    let maxHesitation := 1000 in
    y <- random ;;
    let hesitationTime := baseHesitation + (y * (maxHesitation - baseHesitation)) in
    c <- get ;;
    ret (hesitationTime * (1 + fatigueLevel (inputSession c))).

End IntelligentDelayCalculator.

Module HumanInputSimulator.

(** [calculateHumanLikeness], given [this.config.humanAccuracyLevel]; an
    expected duration that is left out or 0 is not used. *)
Definition calculateHumanLikeness (humanAccuracyLevel : Q) (operationType : string)
    (actualDuration : Q) (expectedDuration : option Q) : option Q :=
  let confidence := humanAccuracyLevel in
  let confidence :=
    match expectedDuration with
    | Some expectedDuration =>
        if Qeq_bool expectedDuration 0 then confidence
        else
          let deviation :=
            Math_abs (actualDuration - expectedDuration) / expectedDuration in
          confidence - deviation * 0.5
    | None => confidence
    end in
  match lookupOr [("mouse_move", 1.0); ("mouse_click", 0.95); ("key_press", 0.9);
                  ("mouse_drag", 0.85)]%string 0.9 operationType with
  | Some multiplier =>
      let confidence := confidence * multiplier in
      Some (Math_max 0 (Math_min 1 confidence))
  | None => None
  end.

End HumanInputSimulator.

(** ** BehaviorRandomizer *)

Module BehaviorRandomizer.

Inductive RandomizationStrategy : Type := SUBTLE | MODERATE | NATURAL | CHAOTIC.

Record IBehaviorPatternConfig : Type := mkConfig {
  strategy : RandomizationStrategy;
  rhythmicVariation : Q;
  errorSimulation : Q;
  attentionDrift : Q;
  fatigueProgression : Q;
  microAdjustments : Q
}.

Inductive BehaviorVariationType : Type :=
| TIMING_OFFSET | SPATIAL_DEVIATION | SEQUENCE_REVERSAL | EXTRA_PAUSE
| DOUBLE_TAP | MISCLICK | CORRECTION_MOVE.

Record IBehaviorVariation : Type := mkVariation {
  variation_type : BehaviorVariationType;
  variation_timestamp : Z;
  severity : Q
}.

Record IAttentionState : Type := mkAttention {
  level : Q;
  focusPoint : option IPoint;
  driftVector : IPoint;
  lastFocusChange : Z
}.

(** An entry of [operationHistory].  A slot of a local [variations] array
    is [None] where the source pushes the [null as any] placeholder. *)
Record OperationRecord : Type := mkOperation {
  op_timestamp : Z;
  op_operation : string;
  baseTiming : Q;
  actualTiming : Q;
  op_variations : list (option IBehaviorVariation)
}.

(** The fields of a [BehaviorRandomizer] object; [rng] is what is left of
    the draws of [this.random]. *)
Record t : Type := mk {
  config : IBehaviorPatternConfig;
  session : IInputSession;
  variations : list IBehaviorVariation;
  attentionState : IAttentionState;
  operationHistory : list OperationRecord;
  rng : Rng.Tape
}.

(** The defaults of the constructor, and the object it builds; [tape] holds
    the future draws of [Math.random]. *)
Definition defaultConfig : IBehaviorPatternConfig :=
  mkConfig MODERATE 0.3 0.02 0.2 0.1 0.15.

Definition create (session : IInputSession) (config : IBehaviorPatternConfig)
    (now : Z) (tape : Rng.Tape) : t :=
  mk config session [] (mkAttention 0.8 None (mkPoint 0 0) now) [] tape.

Definition get : Prog t t := fun r => Some (r, r).

(** [this.variations.push(variation)] *)
Definition pushVariation (v : IBehaviorVariation) : Prog t unit := fun r =>
  Some (tt, mk (config r) (session r) (variations r ++ [v]) (attentionState r)
               (operationHistory r) (rng r)).

Definition setOperationHistory (h : list OperationRecord) : Prog t unit := fun r =>
  Some (tt, mk (config r) (session r) (variations r) (attentionState r) h (rng r)).

Definition liftRng {A : Type} (m : Prog Rng.Tape A) : Prog t A := fun r =>
  match m (rng r) with
  | Some (a, tape) =>
      Some (a, mk (config r) (session r) (variations r) (attentionState r)
                  (operationHistory r) tape)
  | None => None
  end.

Definition random : Prog t Q := liftRng Rng.random.

Definition gaussianRandom (M : MathLib) (mean stdDev : Q) : Prog t Q :=
  liftRng (Rng.gaussianRandom M mean stdDev).

Definition calculateVariance (values : list Q) : Q :=
  match values with
  | [] => 0
  | _ =>
      let mean := sumQ values / lengthQ values in
      let squaredDifferences := map (fun value => Math_pow (value - mean) 2) values in
      sumQ squaredDifferences / lengthQ values
  end.

(** What each of the four contributors of [randomizeDelay] returns:
    [{ offset, variation }]. *)
Definition Contribution : Type := (Q * option IBehaviorVariation)%type.

Definition applyRhythmicVariation (now : Z) (baseDelay : Q) : Prog t Contribution :=
  r <- get ;;
  if Qeq_bool (rhythmicVariation (config r)) 0 then ret (0, None)
  else
    let recentDelays := map actualTiming (lastn 10 (operationHistory r)) in
    rhythmicOffset <-
      (if (3 <=? length recentDelays)%nat then
         let avgDelay := sumQ recentDelays / lengthQ recentDelays in
         let variance := calculateVariance recentDelays in
         if Qltb variance (avgDelay * 0.3) then
           x <- random ;;
           ret ((x - 0.5) * baseDelay * rhythmicVariation (config r) * 0.5)
         else ret 0
       else
         x <- random ;;
         ret ((x - 0.5) * baseDelay * rhythmicVariation (config r))) ;;
    let variation :=
      mkVariation TIMING_OFFSET now (Math_abs (rhythmicOffset / baseDelay)) in
    pushVariation variation ;;;
    ret (rhythmicOffset, Some variation).

Definition applyAttentionImpact (now : Z) (baseDelay : Q) : Prog t Contribution :=
  r <- get ;;
  let attentionImpact := (1 - level (attentionState r)) * attentionDrift (config r) in
  x <- random ;;
  let offset := baseDelay * attentionImpact * (x - 0.5) * 0.4 in
  let variation := mkVariation EXTRA_PAUSE now (Math_abs (offset / baseDelay)) in
  pushVariation variation ;;;
  ret (offset, Some variation).

Definition applyFatigueImpact (now : Z) (baseDelay : Q) : Prog t Contribution :=
  r <- get ;;
  let fatigueFactor := fatigueLevel (session r) * fatigueProgression (config r) in
  x <- random ;;
  let offset := baseDelay * fatigueFactor * (0.5 + x * 0.5) in
  let variation := mkVariation EXTRA_PAUSE now (offset / baseDelay) in
  pushVariation variation ;;;
  ret (offset, Some variation).

Definition strategySpread (s : RandomizationStrategy) : Q :=
  match s with
  | SUBTLE => 0.05
  | MODERATE => 0.15
  | NATURAL => 0.25
  | CHAOTIC => 0.4
  end.

Definition applyStrategicRandomization (M : MathLib) (now : Z) (baseDelay : Q)
    : Prog t Contribution :=
  r <- get ;;
  offset <- gaussianRandom M 0 (baseDelay * strategySpread (strategy (config r))) ;;
  let variation := mkVariation TIMING_OFFSET now (Math_abs (offset / baseDelay)) in
  pushVariation variation ;;;
  ret (offset, Some variation).

Record DelayContext : Type := mkDelayContext {
  operationType : option string;
  complexity : option Q;
  importance : option Q
}.

Record DelayResult : Type := mkDelayResult {
  delay : Q;
  result_variations : list (option IBehaviorVariation)
}.

(** [if (c.offset !== 0) { adjustedDelay += c.offset; variations.push(c.variation); }] *)
Definition addContribution (acc : Q * list (option IBehaviorVariation))
    (c : Contribution) : Q * list (option IBehaviorVariation) :=
  if negb (Qeq_bool (fst c) 0)
  then (fst acc + fst c, snd acc ++ [snd c])
  else acc.

(** [context.operationType || 'unknown'] *)
Definition operationName (context : DelayContext) : string :=
  match operationType context with
  | Some s => if String.eqb s EmptyString then "unknown"%string else s
  | None => "unknown"%string
  end.

Definition randomizeDelay (M : MathLib) (now : Z) (baseDelay : Q)
    (context : DelayContext) : Prog t DelayResult :=
  let acc := (baseDelay, []) in
  rhythmicVariation <- applyRhythmicVariation now baseDelay ;;
  let acc := addContribution acc rhythmicVariation in
  attentionImpact <- applyAttentionImpact now baseDelay ;;
  let acc := addContribution acc attentionImpact in
  fatigueImpact <- applyFatigueImpact now baseDelay ;;
  let acc := addContribution acc fatigueImpact in
  strategicVariation <- applyStrategicRandomization M now baseDelay ;;
  let acc := addContribution acc strategicVariation in
  let minDelay := baseDelay * 0.3 in
  let maxDelay := baseDelay * 3.0 in
  let adjustedDelay := Math_max minDelay (Math_min maxDelay (fst acc)) in
  r <- get ;;
  let history := operationHistory r ++
    [mkOperation now (operationName context) baseDelay adjustedDelay (snd acc)] in
  setOperationHistory
    (if (1000 <? length history)%nat then skipn 500 history else history) ;;;
  ret (mkDelayResult adjustedDelay (snd acc)).

(** *** Operation sequences *)

Record SequenceContext : Type := mkSequenceContext {
  sequence_operationType : option string;
  allowReordering : option bool;
  allowOmission : option bool;
  allowDuplication : option bool
}.

Record SequenceResult (T : Type) : Type := mkSequenceResult {
  sequence : list T;
  sequence_variations : list (option IBehaviorVariation)
}.
Arguments mkSequenceResult {T} _ _.
Arguments sequence {T} _.
Arguments sequence_variations {T} _.

(** Truth value of an optional flag: absent ([undefined]) counts as false. *)
Definition truthy (flag : option bool) : bool :=
  match flag with
  | Some true => true
  | _ => false
  end.

(** [flag && test()]: the test runs only when the flag holds. *)
Definition andAlso (flag : bool) (test : Prog t bool) : Prog t bool :=
  if flag then test else ret false.

Definition fail {A : Type} : Prog t A := fun _ => None.

Definition shouldReorderSequence : Prog t bool :=
  x <- random ;; ret (Qltb x 0.05).

Definition shouldOmitOperation : Prog t bool :=
  x <- random ;; ret (Qltb x 0.02).

Definition shouldDuplicateOperation : Prog t bool :=
  x <- random ;; ret (Qltb x 0.01).

(** [Math.floor(x * sequence.length)] *)
Definition indexOf (x : Q) (len : nat) : nat :=
  Z.to_nat (Math_floor (x * inject_Z (Z.of_nat len))).

Definition randomIndex (len : nat) : Prog t nat :=
  x <- random ;; ret (indexOf x len).

(** [let index2 = ...; while (index2 === index1) index2 = ...;] *)
Fixpoint drawIndexOtherThan (len index1 : nat) (tape : Rng.Tape)
    : option (nat * Rng.Tape) :=
  match tape with
  | [] => None
  | q :: tape' =>
      if Rng.validDraw q
      then if (indexOf q len =? index1)%nat
           then drawIndexOtherThan len index1 tape'
           else Some (indexOf q len, tape')
      else None
  end.

Definition reorderSequence {T : Type} (now : Z) (sequence : list T)
    : Prog t (list T * option IBehaviorVariation) :=
  if (length sequence <? 2)%nat then ret (sequence, None)
  else
    index1 <- randomIndex (length sequence) ;;
    index2 <- liftRng (drawIndexOtherThan (length sequence) index1) ;;
    match nth_error sequence index1, nth_error sequence index2 with
    | Some a, Some b =>
        let newSequence := setNth index2 a (setNth index1 b sequence) in
        let variation := mkVariation SEQUENCE_REVERSAL now 0.3 in
        pushVariation variation ;;;
        ret (newSequence, Some variation)
    | _, _ => fail
    end.

Definition omitOperation {T : Type} (now : Z) (sequence : list T)
    : Prog t (list T * option IBehaviorVariation) :=
  if (length sequence =? 0)%nat then ret (sequence, None)
  else
    omitIndex <- randomIndex (length sequence) ;;
    let newSequence :=
      filterIndexFrom (fun index => negb (index =? omitIndex)%nat) 0 sequence in
    let variation := mkVariation SEQUENCE_REVERSAL now 0.5 in
    pushVariation variation ;;;
    ret (newSequence, Some variation).

Definition duplicateOperation {T : Type} (now : Z) (sequence : list T)
    : Prog t (list T * option IBehaviorVariation) :=
  if (length sequence =? 0)%nat then ret (sequence, None)
  else
    duplicateIndex <- randomIndex (length sequence) ;;
    match nth_error sequence duplicateIndex with
    | Some x =>
        let newSequence :=
          firstn duplicateIndex sequence ++ x :: skipn duplicateIndex sequence in
        let variation := mkVariation DOUBLE_TAP now 0.4 in
        pushVariation variation ;;;
        ret (newSequence, Some variation)
    | None => fail
    end.

(** One gated mutation of [randomizeOperationSequence]:
    [if (allowed && should()) { const v = mutate(seq); seq = v.sequence;
    variations.push(v.variation); }] *)
Definition gatedMutation {T : Type} (allowed : option bool)
    (should : Prog t bool)
    (mutate : list T -> Prog t (list T * option IBehaviorVariation))
    (acc : list T * list (option IBehaviorVariation))
    : Prog t (list T * list (option IBehaviorVariation)) :=
  go <- andAlso (truthy allowed) should ;;
  if go then
    v <- mutate (fst acc) ;;
    ret (fst v, snd acc ++ [snd v])
  else ret acc.

Definition randomizeOperationSequence {T : Type} (now : Z) (sequence : list T)
    (context : SequenceContext) : Prog t (SequenceResult T) :=
  let acc := (sequence, []) in
  acc <- gatedMutation (allowReordering context) shouldReorderSequence
           (reorderSequence now) acc ;;
  acc <- gatedMutation (allowOmission context) shouldOmitOperation
           (omitOperation now) acc ;;
  acc <- gatedMutation (allowDuplication context) shouldDuplicateOperation
           (duplicateOperation now) acc ;;
  ret (mkSequenceResult (fst acc) (snd acc)).

(** *** Attention and statistics *)

Definition setAttentionState (a : IAttentionState) : Prog t unit := fun r =>
  Some (tt, mk (config r) (session r) (variations r) a (operationHistory r) (rng r)).

Definition updateAttentionDrift (M : MathLib) : Prog t unit :=
  offsetX <- gaussianRandom M 0 0.1 ;;
  offsetY <- gaussianRandom M 0 0.1 ;;
  r <- get ;;
  let a := attentionState r in
  let driftX := px (driftVector a) + offsetX in
  let driftY := py (driftVector a) + offsetY in
  let maxDrift := 1.0 in
  let driftMagnitude := Math_sqrt M (Math_pow driftX 2 + Math_pow driftY 2) in
  let drift :=
    if Qltb maxDrift driftMagnitude
    then mkPoint (driftX * (maxDrift / driftMagnitude))
                 (driftY * (maxDrift / driftMagnitude))
    else mkPoint driftX driftY in
  setAttentionState (mkAttention (level a) (focusPoint a) drift (lastFocusChange a)).

Record Stimulus : Type := mkStimulus {
  intensity : option Q;
  novelty : option Q;
  stimulus_complexity : option Q
}.

(** [const { intensity = 0.5, novelty = 0.5, complexity = 0.5 } = stimulus || {}] *)
Definition orHalf (value : option Q) : Q :=
  match value with Some v => v | None => 0.5 end.

Definition attentionDelta (stimulus : option Stimulus) : Q :=
  let stimulus :=
    match stimulus with Some s => s | None => mkStimulus None None None end in
  let intensity := orHalf (intensity stimulus) in
  let novelty := orHalf (novelty stimulus) in
  let complexity := orHalf (stimulus_complexity stimulus) in
  let attentionDelta := 0 in
  let attentionDelta := attentionDelta + (intensity - 0.5) * 0.2 in
  let attentionDelta := attentionDelta + novelty * 0.3 in
  let attentionDelta := attentionDelta - (complexity - 0.5) * 0.1 in
  let attentionDelta := attentionDelta - 0.02 in
  attentionDelta.

Definition updateAttentionState (M : MathLib) (now : Z) (stimulus : option Stimulus)
    : Prog t unit :=
  let attentionDelta := attentionDelta stimulus in
  r <- get ;;
  let a := attentionState r in
  setAttentionState
    (mkAttention (Math_max 0.1 (Math_min 1.0 (level a + attentionDelta)))
                 (focusPoint a) (driftVector a) (lastFocusChange a)) ;;;
  updateAttentionDrift M ;;;
  x <- random ;;
  if Qltb x 0.05 then
    focusX <- random ;;
    focusY <- random ;;
    r <- get ;;
    let a := attentionState r in
    setAttentionState
      (mkAttention (level a) (Some (mkPoint (focusX * 1920) (focusY * 1080)))
                   (driftVector a) now)
  else ret tt.

Definition BehaviorVariationType_eqb (a b : BehaviorVariationType) : bool :=
  match a, b with
  | TIMING_OFFSET, TIMING_OFFSET | SPATIAL_DEVIATION, SPATIAL_DEVIATION
  | SEQUENCE_REVERSAL, SEQUENCE_REVERSAL | EXTRA_PAUSE, EXTRA_PAUSE
  | DOUBLE_TAP, DOUBLE_TAP | MISCLICK, MISCLICK
  | CORRECTION_MOVE, CORRECTION_MOVE => true
  | _, _ => false
  end.

(** [commonTypes[v.type] = (commonTypes[v.type] || 0) + 1] on an object,
    which keeps its keys in insertion order. *)
Fixpoint countVariation (type : BehaviorVariationType)
    (counts : list (BehaviorVariationType * Z)) : list (BehaviorVariationType * Z) :=
  match counts with
  | [] => [(type, 1%Z)]
  | (k, n) :: rest =>
      if BehaviorVariationType_eqb k type then (k, (n + 1)%Z) :: rest
      else (k, n) :: countVariation type rest
  end.

Record Statistics : Type := mkStatistics {
  totalVariations : nat;
  variationRate : Q;
  averageVariationSeverity : Q;
  attentionLevel : Q;
  commonVariationTypes : list (BehaviorVariationType * Z)
}.

Definition getStatistics (r : t) : Statistics :=
  let totalVariations := length (variations r) in
  let totalOperations := length (operationHistory r) in
  let variationRate :=
    if (0 <? totalOperations)%nat
    then lengthQ (variations r) / lengthQ (operationHistory r)
    else 0 in
  let averageSeverity :=
    if (0 <? totalVariations)%nat
    then fold_left (fun sum v => sum + severity v) (variations r) 0
         / lengthQ (variations r)
    else 0 in
  let commonTypes :=
    fold_left (fun counts v => countVariation (variation_type v) counts)
              (variations r) [] in
  mkStatistics totalVariations variationRate averageSeverity
               (level (attentionState r)) commonTypes.

End BehaviorRandomizer.

(** ** SafetyMonitor *)

Module SafetyMonitor.

Inductive SafetyAlertLevel : Type := INFO | WARNING | CRITICAL | EMERGENCY.

Inductive SafetyAlertType : Type :=
| EXCESSIVE_USAGE | REPETITIVE_PATTERN | UNNATURAL_TIMING | FATIGUE_DETECTED
| SUSPICIOUS_BEHAVIOR | CONFIGURATION_ERROR | SYSTEM_ANOMALY | GAME_WINDOW_LOST.

Record ISafetyAlert : Type := mkAlert {
  alert_level : SafetyAlertLevel;
  alert_type : SafetyAlertType;
  alert_timestamp : Z
}.

Record ISafetyRuleConfig : Type := mkConfig {
  maxSessionDuration : Q;
  maxContinuousOperations : Q;
  requiredRestInterval : Q;
  maxRepetitivePatternLength : Q;
  maxTimingVariance : Q;
  minHumanLikenessScore : Q;
  fatigueThreshold : Q;
  fatigueDecayRate : Q;
  maxErrorRate : Q;
  safetyCheckInterval : Q;
  enableEmergencyStop : bool;
  requireUserConfirmation : bool
}.

(** The defaults of the constructor. *)
Definition defaultConfig : ISafetyRuleConfig :=
  mkConfig 240 1000 30 5 0.3 0.7 0.8 0.1 0.1 60 true true.

Record IBehaviorPatternAnalysis : Type := mkAnalysis {
  isRepetitive : bool;
  patternLength : Z;
  patternStrength : Q;
  variability : Q;
  naturalness : Q
}.

Record IExtendedUsageStats : Type := mkStats {
  sessionStartTime : Z;
  totalUsageTime : Z;
  operationCount : Z;
  restPeriods : Z;
  lastRestTime : option Z;
  sessionDurations : list Z;
  operationIntervals : list Z;
  errorPatterns : list (string * Z);
  alertHistory : list ISafetyAlert;
  lastSafetyCheck : Z
}.

(** Where a call of the emergency-stop callback is written in the source. *)
Inductive CallSite : Type := InCreateAlert | InCheckSessionDuration.

(** The fields of a [SafetyMonitor] object.  The callback is an opaque
    closure of the caller: the model keeps whether one is registered, and
    records each of its invocations, with the place that made it, in the
    ghost field [emergencyStops]. *)
Record t : Type := mk {
  config : ISafetyRuleConfig;
  alerts : list ISafetyAlert;
  usageStats : IExtendedUsageStats;
  inputHistory : list IInputEvent;
  sessionHistory : list IInputSession;
  isActive : bool;
  safetyCheckTimer : bool;
  emergencyStopCallback : bool;
  emergencyStops : list CallSite
}.

Definition create (config : ISafetyRuleConfig) (now : Z) : t :=
  mk config [] (mkStats now 0 0 0 None [] [] [] [] now) [] [] false false false [].

(** *** State access *)

Definition get : Prog t t := fun m => Some (m, m).

Definition setAlerts (a : list ISafetyAlert) : Prog t unit := fun m =>
  Some (tt, mk (config m) a (usageStats m) (inputHistory m) (sessionHistory m)
               (isActive m) (safetyCheckTimer m) (emergencyStopCallback m)
               (emergencyStops m)).

Definition setUsageStats (u : IExtendedUsageStats) : Prog t unit := fun m =>
  Some (tt, mk (config m) (alerts m) u (inputHistory m) (sessionHistory m)
               (isActive m) (safetyCheckTimer m) (emergencyStopCallback m)
               (emergencyStops m)).

Definition setInputHistory (h : list IInputEvent) : Prog t unit := fun m =>
  Some (tt, mk (config m) (alerts m) (usageStats m) h (sessionHistory m)
               (isActive m) (safetyCheckTimer m) (emergencyStopCallback m)
               (emergencyStops m)).

Definition setSessionHistory (h : list IInputSession) : Prog t unit := fun m =>
  Some (tt, mk (config m) (alerts m) (usageStats m) (inputHistory m) h
               (isActive m) (safetyCheckTimer m) (emergencyStopCallback m)
               (emergencyStops m)).

Definition setMonitoring (active timer callback : bool) : Prog t unit := fun m =>
  Some (tt, mk (config m) (alerts m) (usageStats m) (inputHistory m)
               (sessionHistory m) active timer callback (emergencyStops m)).

(** [this.emergencyStopCallback()] written at [site]. *)
Definition callEmergencyStop (site : CallSite) : Prog t unit := fun m =>
  Some (tt, mk (config m) (alerts m) (usageStats m) (inputHistory m)
               (sessionHistory m) (isActive m) (safetyCheckTimer m)
               (emergencyStopCallback m) (emergencyStops m ++ [site])).

Definition withAlertHistory (u : IExtendedUsageStats) (h : list ISafetyAlert)
    : IExtendedUsageStats :=
  mkStats (sessionStartTime u) (totalUsageTime u) (operationCount u) (restPeriods u)
          (lastRestTime u) (sessionDurations u) (operationIntervals u)
          (errorPatterns u) h (lastSafetyCheck u).

Definition withOperationCount (u : IExtendedUsageStats) (n : Z) : IExtendedUsageStats :=
  mkStats (sessionStartTime u) (totalUsageTime u) n (restPeriods u)
          (lastRestTime u) (sessionDurations u) (operationIntervals u)
          (errorPatterns u) (alertHistory u) (lastSafetyCheck u).

Definition withOperationIntervals (u : IExtendedUsageStats) (l : list Z)
    : IExtendedUsageStats :=
  mkStats (sessionStartTime u) (totalUsageTime u) (operationCount u) (restPeriods u)
          (lastRestTime u) (sessionDurations u) l
          (errorPatterns u) (alertHistory u) (lastSafetyCheck u).

Definition withRest (u : IExtendedUsageStats) (periods : Z) (last : option Z)
    : IExtendedUsageStats :=
  mkStats (sessionStartTime u) (totalUsageTime u) (operationCount u) periods
          last (sessionDurations u) (operationIntervals u)
          (errorPatterns u) (alertHistory u) (lastSafetyCheck u).

Definition withLastSafetyCheck (u : IExtendedUsageStats) (now : Z)
    : IExtendedUsageStats :=
  mkStats (sessionStartTime u) (totalUsageTime u) (operationCount u) (restPeriods u)
          (lastRestTime u) (sessionDurations u) (operationIntervals u)
          (errorPatterns u) (alertHistory u) now.

Definition withSession (u : IExtendedUsageStats) (durations : list Z) (total : Z)
    (errors : list (string * Z)) : IExtendedUsageStats :=
  mkStats (sessionStartTime u) total (operationCount u) (restPeriods u)
          (lastRestTime u) durations (operationIntervals u)
          errors (alertHistory u) (lastSafetyCheck u).

(** *** Alert creation *)

Definition createAlert (now : Z) (level : SafetyAlertLevel) (type : SafetyAlertType)
    (triggerEmergencyStop : bool) : Prog t unit :=
  let alert := mkAlert level type now in
  m <- get ;;
  setAlerts (alerts m ++ [alert]) ;;;
  setUsageStats (withAlertHistory (usageStats m) (alertHistory (usageStats m) ++ [alert])) ;;;
  when (triggerEmergencyStop && enableEmergencyStop (config m) && emergencyStopCallback m)
       (callEmergencyStop InCreateAlert) ;;;
  m <- get ;;
  when (1000 <? length (alerts m))%nat (setAlerts (skipn 500 (alerts m))).

(** *** Pattern analysis *)

Definition InputEventType_eqb (a b : InputEventType) : bool :=
  match a, b with
  | mouse_move, mouse_move | mouse_click, mouse_click
  | key_press, key_press | key_release, key_release => true
  | _, _ => false
  end.

Fixpoint patternsEqualFrom (pattern1 pattern2 : list InputEventType) : bool :=
  match pattern1, pattern2 with
  | [], _ => true
  | a :: r1, b :: r2 => InputEventType_eqb a b && patternsEqualFrom r1 r2
  | _ :: _, [] => false
  end.

Definition patternsEqual (pattern1 pattern2 : list InputEventType) : bool :=
  if negb (length pattern1 =? length pattern2)%nat then false
  else patternsEqualFrom pattern1 pattern2.

(** [a.slice(start, end)] *)
Definition slice {A : Type} (start end_ : nat) (l : list A) : list A :=
  firstn (end_ - start) (skipn start l).

Definition isPatternRepeating (sequence : list InputEventType) (patternLength : nat)
    : bool :=
  if negb (length sequence mod patternLength =? 0)%nat then false
  else
    let pattern := slice 0 patternLength sequence in
    let repetitions := (length sequence / patternLength)%nat in
    forallb (fun i =>
               let start := (i * patternLength)%nat in
               let end_ := (start + patternLength)%nat in
               patternsEqual pattern (slice start end_ sequence))
            (seq 1 (repetitions - 1)).

(** [for (let length = 2; length <= maxPatternLength; length++)]: the bound
    is at most 10, the first repeating length is returned. *)
Definition detectRepeatingPattern (sequence : list InputEventType) : Z :=
  let maxPatternLength := Math_min (lengthQ sequence / 2) 10 in
  let candidates :=
    filter (fun length => Qle_bool (inject_Z (Z.of_nat length)) maxPatternLength)
           (seq 2 9) in
  match find (isPatternRepeating sequence) candidates with
  | Some length => Z.of_nat length
  | None => 0%Z
  end.

Definition calculatePatternStrength (sequence : list InputEventType)
    (patternLength : Z) : Q :=
  Math_min 1 (inject_Z patternLength / 5).

Definition calculateVariability (M : MathLib) (values : list Q) : Q :=
  if (length values <? 2)%nat then 1
  else
    let mean := sumQ values / lengthQ values in
    let variance :=
      fold_left (fun sum val => sum + Math_pow (val - mean) 2) values 0
      / lengthQ values in
    let stdDev := Math_sqrt M variance in
    if Qltb 0 mean then stdDev / mean else 1.

(** [intervals.push(events[i].timestamp - events[i - 1].timestamp)] for
    [i = 1 .. length - 1]. *)
Fixpoint eventIntervals (events : list IInputEvent) : list Q :=
  match events with
  | a :: (b :: _) as rest =>
      inject_Z (event_timestamp b - event_timestamp a) :: eventIntervals rest
  | _ => []
  end.

Definition calculateTimingVariability (M : MathLib) (events : list IInputEvent) : Q :=
  if (length events <? 2)%nat then 0.5
  else
    let intervals := eventIntervals events in
    let variability := calculateVariability M intervals in
    Math_min 1 (variability * 2).

(** [typeCounts.set(type, (typeCounts.get(type) || 0) + 1)] on a [Map],
    which keeps its keys in insertion order. *)
Fixpoint countType (type : InputEventType) (counts : list (InputEventType * Z))
    : list (InputEventType * Z) :=
  match counts with
  | [] => [(type, 1%Z)]
  | (k, n) :: rest =>
      if InputEventType_eqb k type then (k, (n + 1)%Z) :: rest
      else (k, n) :: countType type rest
  end.

Definition calculateTypeDiversity (M : MathLib) (events : list IInputEvent) : Q :=
  let typeCounts := fold_left (fun counts event => countType (event_type event) counts)
                              events [] in
  let totalEvents := lengthQ events in
  let entropy :=
    fold_left (fun entropy kv =>
                 let probability := inject_Z (snd kv) / totalEvents in
                 if Qltb 0 probability
                 then entropy - probability * Math_log2 M probability
                 else entropy)
              typeCounts 0 in
  let maxEntropy := Math_log2 M (lengthQ typeCounts) in
  if Qltb 0 maxEntropy then entropy / maxEntropy else 0.

Definition calculateNaturalness (M : MathLib) (events : list IInputEvent) : Q :=
  if (length events =? 0)%nat then 0
  else
    let avgConfidence :=
      fold_left (fun sum event => sum + confidence event) events 0 / lengthQ events in
    let timingVariability := calculateTimingVariability M events in
    let typeDiversity := calculateTypeDiversity M events in
    avgConfidence * 0.4 + timingVariability * 0.3 + typeDiversity * 0.3.

Definition analyzeBehaviorPatterns (M : MathLib) (m : t) : IBehaviorPatternAnalysis :=
  if (length (inputHistory m) <? 10)%nat then mkAnalysis false 0 0 1 0.8
  else
    let recentEvents := lastn 50 (inputHistory m) in
    let eventTypes := map event_type recentEvents in
    let durations := map event_duration recentEvents in
    let patternLength := detectRepeatingPattern eventTypes in
    let isRepetitive := (2 <? patternLength)%Z in
    let patternStrength :=
      if isRepetitive then calculatePatternStrength eventTypes patternLength else 0 in
    let variability := calculateVariability M durations in
    let naturalness := calculateNaturalness M recentEvents in
    mkAnalysis isRepetitive patternLength patternStrength variability naturalness.

(** *** Fatigue and safety score *)

(** [Date.now() - this.usageStats.sessionStartTime.getTime()] *)
Definition elapsed (m : t) (now : Z) : Q :=
  inject_Z (now - sessionStartTime (usageStats m)).

(** Operations per minute, as [calculateFatigueLevel] computes it. *)
Definition operationRate (m : t) (now : Z) : Q :=
  inject_Z (operationCount (usageStats m)) / (elapsed m now / 60000).

(** The error rate over the last ten recorded sessions; there is none when
    no session has been recorded. *)
Definition recentErrorRate (m : t) : option Q :=
  let recentSessions := lastn 10 (sessionHistory m) in
  if (0 <? length recentSessions)%nat then
    let totalErrors :=
      fold_left (fun sum session => (sum + session_errorCount session)%Z)
                recentSessions 0%Z in
    let totalOperations :=
      fold_left (fun sum session => (sum + session_operationCount session)%Z)
                recentSessions 0%Z in
    Some (if (0 <? totalOperations)%Z
          then inject_Z totalErrors / inject_Z totalOperations
          else 0)
  else None.

Definition calculateFatigueLevel (m : t) (now : Z) : Q :=
  let fatigueLevel := 0 in
  let sessionDuration := elapsed m now in
  let timeFatigue :=
    Math_min 1 (sessionDuration / (maxSessionDuration (config m) * 60 * 1000)) in
  let fatigueLevel := fatigueLevel + timeFatigue * 0.4 in
  let rateFatigue := Math_min 1 (operationRate m now / 20) in
  let fatigueLevel := fatigueLevel + rateFatigue * 0.3 in
  let fatigueLevel :=
    match recentErrorRate m with
    | Some errorRate =>
        let errorFatigue := Math_min 1 (errorRate / maxErrorRate (config m)) in
        fatigueLevel + errorFatigue * 0.3
    | None => fatigueLevel
    end in
  Math_min 1 fatigueLevel.

(** [this.alerts.filter(alert => Date.now() - alert.timestamp.getTime() < 300000)] *)
Definition recentAlerts (m : t) (now : Z) : list ISafetyAlert :=
  filter (fun alert => (now - alert_timestamp alert <? 300000)%Z) (alerts m).

(** The [switch] of [calculateSafetyScore]. *)
Definition deductAlert (score : Q) (alert : ISafetyAlert) : Q :=
  match alert_level alert with
  | EMERGENCY => score - 30
  | CRITICAL => score - 20
  | WARNING => score - 10
  | INFO => score - 5
  end.

(** The body of [calculateSafetyScore], given the three values it reads. *)
Definition safetyScoreOf (recent : list ISafetyAlert) (fatigueLevel : Q)
    (behaviorAnalysis : IBehaviorPatternAnalysis) : Q :=
  let score := 100 in
  let score := fold_left deductAlert recent score in
  let score := score - fatigueLevel * 15 in
  let score :=
    if isRepetitive behaviorAnalysis
    then score - patternStrength behaviorAnalysis * 10
    else score in
  let score :=
    if Qltb (naturalness behaviorAnalysis) 0.7
    then score - (0.7 - naturalness behaviorAnalysis) * 20
    else score in
  Math_max 0 (Math_min 100 score).

Definition calculateSafetyScore (M : MathLib) (m : t) (now : Z) : Q :=
  safetyScoreOf (recentAlerts m now) (calculateFatigueLevel m now)
                (analyzeBehaviorPatterns M m).

Inductive SafetyLevel : Type := safe | warning | danger.

Definition determineSafetyLevel (score : Q) : SafetyLevel :=
  if Qle_bool 80 score then safe
  else if Qle_bool 60 score then warning
  else danger.

(** *** The five periodic rules *)

Definition checkSessionDuration (now : Z) : Prog t unit :=
  m <- get ;;
  let currentDuration := elapsed m now in
  let maxDuration := maxSessionDuration (config m) * 60 * 1000 in
  if Qle_bool maxDuration currentDuration then
    createAlert now CRITICAL EXCESSIVE_USAGE (enableEmergencyStop (config m)) ;;;
    m <- get ;;
    when (enableEmergencyStop (config m) && emergencyStopCallback m)
         (callEmergencyStop InCheckSessionDuration)
  else if Qle_bool (maxDuration * 0.8) currentDuration then
    createAlert now WARNING EXCESSIVE_USAGE false
  else ret tt.

(** [this.usageStats.lastRestTime?.getTime() || this.usageStats.sessionStartTime.getTime()] *)
Definition lastRestOrStart (u : IExtendedUsageStats) : Z :=
  match lastRestTime u with
  | Some time => if (time =? 0)%Z then sessionStartTime u else time
  | None => sessionStartTime u
  end.

Definition checkRestRequirement (now : Z) : Prog t unit :=
  m <- get ;;
  let timeSinceLastRest := inject_Z (now - lastRestOrStart (usageStats m)) in
  let requiredInterval := requiredRestInterval (config m) * 60 * 1000 in
  if Qle_bool requiredInterval timeSinceLastRest then
    createAlert now WARNING FATIGUE_DETECTED false ;;;
    m <- get ;;
    setUsageStats (withRest (usageStats m) (restPeriods (usageStats m) + 1)%Z (Some now))
  else ret tt.

Definition checkBehaviorPatterns (M : MathLib) (now : Z) : Prog t unit :=
  m <- get ;;
  let analysis := analyzeBehaviorPatterns M m in
  when (isRepetitive analysis &&
        Qltb (maxRepetitivePatternLength (config m)) (inject_Z (patternLength analysis)))
       (createAlert now WARNING REPETITIVE_PATTERN false) ;;;
  m <- get ;;
  when (Qltb (naturalness analysis) 0.5)
       (createAlert now CRITICAL SUSPICIOUS_BEHAVIOR (enableEmergencyStop (config m))).

Definition checkFatigueLevel (now : Z) : Prog t unit :=
  m <- get ;;
  let fatigueLevel := calculateFatigueLevel m now in
  when (Qltb (fatigueThreshold (config m)) fatigueLevel)
       (createAlert now WARNING FATIGUE_DETECTED false).

Definition checkSystemHealth (now : Z) : Prog t unit :=
  m <- get ;;
  when (15000 <? Z.of_nat (length (inputHistory m)))%Z
       (createAlert now INFO SYSTEM_ANOMALY false) ;;;
  m <- get ;;
  when (10 <? length (recentAlerts m now))%nat
       (createAlert now WARNING SYSTEM_ANOMALY false).

(** The periodic check.  No step of the model raises an exception, so the
    [catch] branch of the source (a SYSTEM_ANOMALY alert) has no counterpart. *)
Definition performSafetyCheck (M : MathLib) (now : Z) : Prog t unit :=
  m <- get ;;
  setUsageStats (withLastSafetyCheck (usageStats m) now) ;;;
  checkSessionDuration now ;;;
  checkRestRequirement now ;;;
  checkBehaviorPatterns M now ;;;
  checkFatigueLevel now ;;;
  checkSystemHealth now.

(** *** Public operations *)

Definition startMonitoring (callback : bool) : Prog t unit :=
  m <- get ;;
  if isActive m then ret tt
  else setMonitoring true true callback.

Definition stopMonitoring : Prog t unit :=
  m <- get ;;
  if negb (isActive m) then ret tt
  else setMonitoring false false (emergencyStopCallback m).

Definition performRealTimeSafetyCheck (now : Z) (event : IInputEvent) : Prog t unit :=
  m <- get ;;
  when (Qltb (confidence event) (minHumanLikenessScore (config m)))
       (createAlert now WARNING UNNATURAL_TIMING false) ;;;
  m <- get ;;
  if (2 <=? length (inputHistory m))%nat then
    match nth_error (inputHistory m) (length (inputHistory m) - 2) with
    | Some previousEvent =>
        let interval := (event_timestamp event - event_timestamp previousEvent)%Z in
        setUsageStats (withOperationIntervals (usageStats m)
                         (operationIntervals (usageStats m) ++ [interval])) ;;;
        when (interval <? 50)%Z (createAlert now INFO SUSPICIOUS_BEHAVIOR false)
    | None => ret tt
    end
  else ret tt.

Definition recordInputEvent (now : Z) (event : IInputEvent) : Prog t unit :=
  m <- get ;;
  if negb (isActive m) then ret tt
  else
    setInputHistory (inputHistory m ++ [event]) ;;;
    setUsageStats (withOperationCount (usageStats m) (operationCount (usageStats m) + 1)%Z) ;;;
    m <- get ;;
    when (10000 <? Z.of_nat (length (inputHistory m)))%Z
         (setInputHistory (skipn 5000 (inputHistory m))) ;;;
    performRealTimeSafetyCheck now event.

Definition recordSession (now : Z) (session : IInputSession) : Prog t unit :=
  m <- get ;;
  setSessionHistory (sessionHistory m ++ [session]) ;;;
  let sessionDuration :=
    match endTime session with
    | Some time => (time - startTime session)%Z
    | None => (now - startTime session)%Z
    end in
  let u := usageStats m in
  setUsageStats
    (withSession u (sessionDurations u ++ [sessionDuration])
       (totalUsageTime u + sessionDuration)%Z
       (if (0 <? session_errorCount session)%Z
        then (session_id session, session_errorCount session)
             :: filter (fun kv => negb (String.eqb (fst kv) (session_id session)))
                       (errorPatterns u)
        else errorPatterns u)) ;;;
  m <- get ;;
  when (100 <? length (sessionHistory m))%nat
       (setSessionHistory (skipn 50 (sessionHistory m))).

(** *** Queries

    The read-only public methods.  [limit] of [getAlertHistory] is an
    integer when given. *)

Record ISafetyStatus : Type := mkStatus {
  status_level : SafetyLevel;
  status_score : Q;
  status_lastCheck : Z;
  status_alerts : list ISafetyAlert
}.

(** [alerts] of the status holds the messages of the recent alerts; the
    model lists the alerts themselves. *)
Definition getSafetyStatus (M : MathLib) (m : t) (now : Z) : ISafetyStatus :=
  let score := calculateSafetyScore M m now in
  let level := determineSafetyLevel score in
  mkStatus level score (lastSafetyCheck (usageStats m)) (recentAlerts m now).

(** [Array.prototype.sort] with the comparator
    [(a, b) => b.timestamp.getTime() - a.timestamp.getTime()]: a stable sort,
    newest first. *)
Fixpoint insertByTimestamp (alert : ISafetyAlert) (sorted : list ISafetyAlert)
    : list ISafetyAlert :=
  match sorted with
  | [] => [alert]
  | next :: rest =>
      if (alert_timestamp alert <? alert_timestamp next)%Z
      then next :: insertByTimestamp alert rest
      else alert :: next :: rest
  end.

Definition sortByTimestamp (alerts : list ISafetyAlert) : list ISafetyAlert :=
  fold_right insertByTimestamp [] alerts.

(** [a.slice(0, end)] for an integer [end]: a negative one counts from the
    end of the array. *)
Definition sliceTo {A : Type} (end_ : Z) (l : list A) : list A :=
  if (end_ <? 0)%Z then firstn (Z.to_nat (Z.of_nat (length l) + end_)) l
  else firstn (Z.to_nat end_) l.

Definition getAlertHistory (limit : option Z) (m : t) : list ISafetyAlert :=
  let sortedAlerts := sortByTimestamp (alerts m) in
  match limit with
  | Some n => if (n =? 0)%Z then sortedAlerts else sliceTo n sortedAlerts
  | None => sortedAlerts
  end.

Inductive IssueType : Type :=
| excessive_duration | excessive_operations | repetitive_behavior
| unnatural_behavior | fatigue_detected.

Inductive Severity : Type := low | medium | high.

Record Issue : Type := mkIssue {
  issue_type : IssueType;
  severity : Severity
}.

Definition isHigh (issue : Issue) : bool :=
  match severity issue with high => true | _ => false end.

Record ManualCheck : Type := mkManualCheck {
  isSafe : bool;
  issues : list Issue;
  safetyScore : Q
}.

(** [issues.push(...)] under a condition. *)
Definition pushIf (condition : bool) (issue : Issue) (issues : list Issue)
    : list Issue :=
  if condition then issues ++ [issue] else issues.

Definition performManualSafetyCheck (M : MathLib) (m : t) (now : Z) : ManualCheck :=
  let issues := [] in
  let currentSessionDuration := elapsed m now in
  let issues :=
    pushIf (Qltb (maxSessionDuration (config m) * 60 * 1000) currentSessionDuration)
           (mkIssue excessive_duration high) issues in
  let issues :=
    pushIf (Qltb (maxContinuousOperations (config m))
                 (inject_Z (operationCount (usageStats m))))
           (mkIssue excessive_operations medium) issues in
  let patternAnalysis := analyzeBehaviorPatterns M m in
  let issues :=
    pushIf (isRepetitive patternAnalysis)
           (mkIssue repetitive_behavior medium) issues in
  let issues :=
    pushIf (Qltb (naturalness patternAnalysis) 0.7)
           (mkIssue unnatural_behavior high) issues in
  let fatigueLevel := calculateFatigueLevel m now in
  let issues :=
    pushIf (Qltb (fatigueThreshold (config m)) fatigueLevel)
           (mkIssue fatigue_detected medium) issues in
  let safetyScore := calculateSafetyScore M m now in
  let isSafe :=
    Qle_bool 70 safetyScore && (length (filter isHigh issues) =? 0)%nat in
  mkManualCheck isSafe issues safetyScore.

(** What the environment can do to a monitor: call a public method, or let
    the interval timer armed by [startMonitoring] fire. *)
Inductive Operation : Type :=
| StartMonitoring (callback : bool)
| StopMonitoring
| RecordInputEvent (event : IInputEvent)
| RecordSession (session : IInputSession)
| TimerTick.

Definition run (M : MathLib) (now : Z) (op : Operation) : Prog t unit :=
  match op with
  | StartMonitoring callback => startMonitoring callback
  | StopMonitoring => stopMonitoring
  | RecordInputEvent event => recordInputEvent now event
  | RecordSession session => recordSession now session
  | TimerTick =>
      m <- get ;;
      if safetyCheckTimer m then performSafetyCheck M now else ret tt
  end.

(** States reachable from a new monitor. *)
Inductive reachable (M : MathLib) : t -> Prop :=
| reachable_create : forall config now, reachable M (create config now)
| reachable_run : forall m now op m',
    reachable M m -> run M now op m = Some (tt, m') -> reachable M m'.

End SafetyMonitor.

(** ** A concrete [Math] for running the model

    Fixed-point approximations (nine decimals) of the runtime's functions,
    exact where the exact value is a short decimal: square roots of perfect
    squares, [log 1 = 0], [log2] of powers of two.  The theorems below hold
    for every [MathLib]; this one serves to run the definitions on concrete
    inputs. *)

Module ApproxMath.

Definition digits : positive := 1000000000.

(** Rounds down to nine decimals. *)
Definition fix9 (q : Q) : Q := Qfloor (q * inject_Z (Zpos digits)) # digits.

Definition sqrt (q : Q) : Q :=
  if Qle_bool q 0 then 0
  else Z.sqrt (Qnum q * Zpos digits * Zpos digits / Zpos (Qden q)) # digits.

Definition PI : Q := 3.141592653589793.

Definition LN2 : Q := 0.6931471805599453.

(** Binary exponent [k] of a positive [q]: [q / 2^k] lies in [(1/2, 2)]. *)
Definition exponent (q : Q) : Z := (Z.log2 (Qnum q) - Z.log2 (Zpos (Qden q)))%Z.

Definition mantissa (q : Q) : Q := q / Qpower 2 (exponent q).

(** [1/(2j+1) + y2/(2j+3) + y2^2/(2j+5) + ...], [n] terms. *)
Fixpoint atanhTerms (n : nat) (y2 : Q) (j : Z) : Q :=
  match n with
  | O => 0
  | S n' => fix9 (1 / inject_Z (2 * j + 1) + y2 * atanhTerms n' y2 (j + 1))
  end.

(** Natural logarithm of a number of [(1/2, 2)], as [2 atanh ((m-1)/(m+1))]. *)
Definition logMantissa (m : Q) : Q :=
  let y := fix9 ((m - 1) / (m + 1)) in
  fix9 (2 * y * atanhTerms 14 (y * y) 0).

Definition log (q : Q) : Q :=
  if Qle_bool q 0 then 0
  else fix9 (inject_Z (exponent q) * LN2 + logMantissa (mantissa q)).

Definition log2 (q : Q) : Q :=
  if Qle_bool q 0 then 0
  else fix9 (inject_Z (exponent q) + logMantissa (mantissa q) / LN2).

(** [1 - x2/((2j+1)(2j+2)) (1 - x2/((2j+3)(2j+4)) (...))], [n] factors. *)
Fixpoint cosTerms (n : nat) (x2 : Q) (j : Z) : Q :=
  match n with
  | O => 1
  | S n' =>
      fix9 (1 - x2 / inject_Z ((2 * j + 1) * (2 * j + 2)) * cosTerms n' x2 (j + 1))
  end.

Definition cos (x : Q) : Q :=
  let turns := Qfloor (x / (2 * PI) + 0.5) in
  let reduced := fix9 (x - inject_Z turns * (2 * PI)) in
  cosTerms 14 (reduced * reduced) 0.

End ApproxMath.

Definition approxMath : MathLib :=
  mkMathLib ApproxMath.sqrt ApproxMath.log ApproxMath.log2 ApproxMath.cos ApproxMath.PI.

(** ** Vocabulary of the statements *)

(** A draw that ends the rejection loop of [gaussianRandom]: in [(0, 1)]. *)
Definition positiveDraw (q : Q) : Prop := 0 < q /\ q < 1.

Definition firstPointIs (path : list IPoint) (p : IPoint) : Prop :=
  exists q rest, path = q :: rest /\ IPoint_eq q p.

Definition lastPointIs (path : list IPoint) (p : IPoint) : Prop :=
  exists front q, path = front ++ [q] /\ IPoint_eq q p.

(** A straight move of 100 pixels with noise on every sample. *)
Definition noisyPathConfig : IMousePathConfig :=
  mkPathConfig (mkPoint 0 0) (mkPoint 100 0) 0 5 0 1.

(** A slow, curved, noiseless move of 100 pixels. *)
Definition slowMoveConfig : IMousePathConfig :=
  mkPathConfig (mkPoint 0 0) (mkPoint 100 0) 0.5 0.002 0 0.

(** A pointer that rests at the origin and is asked to stay there, at
    speed 0 and without noise. *)
Definition standstillConfig : IMousePathConfig :=
  mkPathConfig (mkPoint 0 0) (mkPoint 0 0) 0.5 0 10 0.

(** The samples of a noisy path, one by one: the sample of loop counter [i]
    is the point of the curve at [i / steps], displaced by two Gaussian
    draws of deviation [noise] taken from the generator in this order. *)
Fixpoint noisySamples (M : MathLib) (bezier : CubicBezier.t) (steps noise : Q)
    (indices : list Z) (tape : Rng.Tape) (path : list IPoint)
    (tape' : Rng.Tape) : Prop :=
  match indices, path with
  | [], [] => tape' = tape
  | i :: indices', sample :: path' =>
      exists noiseX noiseY tape1 tape2,
        Rng.gaussianRandom M 0 noise tape = Some (noiseX, tape1) /\
        Rng.gaussianRandom M 0 noise tape1 = Some (noiseY, tape2) /\
        sample = mkPoint
                   (px (CubicBezier.getPoint bezier (inject_Z i / steps)) + noiseX)
                   (py (CubicBezier.getPoint bezier (inject_Z i / steps)) + noiseY) /\
        noisySamples M bezier steps noise indices' tape2 path' tape'
  | _, _ => False
  end.

(** A generator that always returns one half. *)
Definition halves (n : nat) : Rng.Tape := repeat 0.5 n.

(** A tape that can serve [n] draws, none of them zero. *)
Definition hasDraws (n : nat) (tape : Rng.Tape) : Prop :=
  Forall positiveDraw tape /\ (n <= length tape)%nat.

(** What a draw leaves alone in a randomizer: everything but the tape. *)
Definition sameObject (r r' : BehaviorRandomizer.t) : Prop :=
  BehaviorRandomizer.config r' = BehaviorRandomizer.config r /\
  BehaviorRandomizer.session r' = BehaviorRandomizer.session r /\
  BehaviorRandomizer.variations r' = BehaviorRandomizer.variations r /\
  BehaviorRandomizer.attentionState r' = BehaviorRandomizer.attentionState r /\
  BehaviorRandomizer.operationHistory r' = BehaviorRandomizer.operationHistory r.

(** The four contributors of [randomizeDelay], run in its order. *)
Definition delayContributions (M : MathLib) (now : Z) (baseDelay : Q)
    : Prog BehaviorRandomizer.t (list BehaviorRandomizer.Contribution) :=
  (c1 <- BehaviorRandomizer.applyRhythmicVariation now baseDelay ;;
   c2 <- BehaviorRandomizer.applyAttentionImpact now baseDelay ;;
   c3 <- BehaviorRandomizer.applyFatigueImpact now baseDelay ;;
   c4 <- BehaviorRandomizer.applyStrategicRandomization M now baseDelay ;;
   ret [c1; c2; c3; c4])%prog.

Definition nonZeroOffset (c : BehaviorRandomizer.Contribution) : bool :=
  negb (Qeq_bool (fst c) 0).

(** The records that a list of contributions carries. *)
Definition recorded (cs : list BehaviorRandomizer.Contribution)
    : list BehaviorRandomizer.IBehaviorVariation :=
  flat_map (fun c => match snd c with Some v => [v] | None => [] end) cs.

(** A session that has just started, without fatigue. *)
Definition freshSession : IInputSession :=
  mkSession "session-1" 0 None 0 0 0.

(** A new randomizer with the default configuration. *)
Definition freshRandomizer : BehaviorRandomizer.t :=
  BehaviorRandomizer.create freshSession BehaviorRandomizer.defaultConfig 0 (halves 5).

Definition plainDelayContext : BehaviorRandomizer.DelayContext :=
  BehaviorRandomizer.mkDelayContext None None None.

(** A sequence context without any of the three permissions. *)
Definition lockedSequenceContext : BehaviorRandomizer.SequenceContext :=
  BehaviorRandomizer.mkSequenceContext None None (Some false) None.

(** A sequence context with the three permissions. *)
Definition openSequenceContext : BehaviorRandomizer.SequenceContext :=
  BehaviorRandomizer.mkSequenceContext None (Some true) (Some true) (Some true).

(** A new randomizer whose generator will return the draws of [tape]. *)
Definition randomizerWith (tape : Rng.Tape) : BehaviorRandomizer.t :=
  BehaviorRandomizer.create freshSession BehaviorRandomizer.defaultConfig 0 tape.

(** *** Safety monitor *)

(** The safety score in the words of the specification: the penalty of an
    alert level, and 100 minus the deductions, clamped to [[0, 100]]. *)
Definition levelPenalty (level : SafetyMonitor.SafetyAlertLevel) : Q :=
  match level with
  | SafetyMonitor.EMERGENCY => 30
  | SafetyMonitor.CRITICAL => 20
  | SafetyMonitor.WARNING => 10
  | SafetyMonitor.INFO => 5
  end.

Fixpoint totalPenalty (recent : list SafetyMonitor.ISafetyAlert) : Q :=
  match recent with
  | [] => 0
  | alert :: rest => levelPenalty (SafetyMonitor.alert_level alert) + totalPenalty rest
  end.

Definition safetyScore_spec (recent : list SafetyMonitor.ISafetyAlert)
    (fatigue : Q) (analysis : SafetyMonitor.IBehaviorPatternAnalysis) : Q :=
  let raw :=
    100 - totalPenalty recent - fatigue * 15
    - (if SafetyMonitor.isRepetitive analysis
       then SafetyMonitor.patternStrength analysis * 10 else 0)
    - (if Qltb (SafetyMonitor.naturalness analysis) 0.7
       then (0.7 - SafetyMonitor.naturalness analysis) * 20 else 0) in
  Qmax 0 (Qmin 100 raw).






(** A configuration whose quotients are defined: positive maximal session
    duration and positive maximal error rate. *)
Definition validConfig (c : SafetyMonitor.ISafetyRuleConfig) : Prop :=
  0 < SafetyMonitor.maxSessionDuration c /\ 0 < SafetyMonitor.maxErrorRate c.

(** Two monitors with the same recent error rate (or both without recorded
    sessions). *)
Definition sameErrorRate (m1 m2 : SafetyMonitor.t) : Prop :=
  match SafetyMonitor.recentErrorRate m1, SafetyMonitor.recentErrorRate m2 with
  | Some a, Some b => a == b
  | None, None => True
  | _, _ => False
  end.

(** The defaults with a maximal session duration of one minute. *)
Definition oneMinuteConfig : SafetyMonitor.ISafetyRuleConfig :=
  SafetyMonitor.mkConfig 1 1000 30 5 0.3 0.7 0.8 0.1 0.1 60 true true.

(** The defaults with a minimal human-likeness score of 0.9. *)
Definition strictConfig : SafetyMonitor.ISafetyRuleConfig :=
  SafetyMonitor.mkConfig 240 1000 30 5 0.3 0.9 0.8 0.1 0.1 60 true true.

(** A monitor created at time 0 and started, with or without an
    emergency-stop callback. *)
Definition startedMonitor (config : SafetyMonitor.ISafetyRuleConfig)
    (callback : bool) : SafetyMonitor.t :=
  SafetyMonitor.mk config [] (SafetyMonitor.mkStats 0 0 0 0 None [] [] [] [] 0)
                   [] [] true true callback [].

(** A started monitor with the default configuration that has counted [n]
    operations. *)
Definition monitorWithOperations (n : Z) : SafetyMonitor.t :=
  SafetyMonitor.mk SafetyMonitor.defaultConfig []
                   (SafetyMonitor.mkStats 0 0 n 0 None [] [] [] [] 0)
                   [] [] true true false [].

Definition hesitantClick : IInputEvent := mkEvent mouse_click 1000 120 0.5.

(** The alerts that an operation created: the growth of the never-truncated
    [usageStats.alertHistory]. *)
Definition alertsCreated (before after : SafetyMonitor.t)
    : list SafetyMonitor.ISafetyAlert :=
  skipn (length (SafetyMonitor.alertHistory (SafetyMonitor.usageStats before)))
        (SafetyMonitor.alertHistory (SafetyMonitor.usageStats after)).

(** The emergency-stop invocations that an operation made. *)
Definition stopsMade (before after : SafetyMonitor.t) : list SafetyMonitor.CallSite :=
  skipn (length (SafetyMonitor.emergencyStops before))
        (SafetyMonitor.emergencyStops after).

(** *** Steps of the safety monitor *)

(** The alert list is the end of the alert history of the usage
    statistics: what the cap has dropped from the one is still in the other. *)
Definition alertsTail (m : SafetyMonitor.t) : Prop :=
  exists dropped,
    SafetyMonitor.alertHistory (SafetyMonitor.usageStats m)
    = dropped ++ SafetyMonitor.alerts m.

(** What the alert machinery may do to a monitor: it appends to the alert
    history, keeps the alert list within its cap and at the end of the alert
    history, may invoke the emergency-stop callback when that is enabled and
    registered, and leaves the configuration, the flags and the event and
    session histories alone. *)
Definition alertStep (m m' : SafetyMonitor.t) : Prop :=
  SafetyMonitor.config m' = SafetyMonitor.config m /\
  SafetyMonitor.isActive m' = SafetyMonitor.isActive m /\
  SafetyMonitor.safetyCheckTimer m' = SafetyMonitor.safetyCheckTimer m /\
  SafetyMonitor.emergencyStopCallback m' = SafetyMonitor.emergencyStopCallback m /\
  SafetyMonitor.inputHistory m' = SafetyMonitor.inputHistory m /\
  SafetyMonitor.sessionHistory m' = SafetyMonitor.sessionHistory m /\
  SafetyMonitor.operationCount (SafetyMonitor.usageStats m')
  = SafetyMonitor.operationCount (SafetyMonitor.usageStats m) /\
  SafetyMonitor.sessionStartTime (SafetyMonitor.usageStats m')
  = SafetyMonitor.sessionStartTime (SafetyMonitor.usageStats m) /\
  (exists new,
     SafetyMonitor.alertHistory (SafetyMonitor.usageStats m')
     = SafetyMonitor.alertHistory (SafetyMonitor.usageStats m) ++ new) /\
  (exists stops,
     SafetyMonitor.emergencyStops m' = SafetyMonitor.emergencyStops m ++ stops /\
     (SafetyMonitor.enableEmergencyStop (SafetyMonitor.config m)
      && SafetyMonitor.emergencyStopCallback m = false -> stops = [])) /\
  ((length (SafetyMonitor.alerts m) <= 1000)%nat ->
   (length (SafetyMonitor.alerts m') <= 1000)%nat) /\
  (alertsTail m -> alertsTail m').

(** An alert step that does not invoke the callback. *)
Definition quietStep (m m' : SafetyMonitor.t) : Prop :=
  alertStep m m' /\ SafetyMonitor.emergencyStops m' = SafetyMonitor.emergencyStops m.

(** The computation [p] returns from [m], in a state related to [m] by [R]. *)
Definition stepsAt (R : SafetyMonitor.t -> SafetyMonitor.t -> Prop)
    (p : Prog SafetyMonitor.t unit) (m : SafetyMonitor.t) : Prop :=
  exists m', p m = Some (tt, m') /\ R m m'.

(** The bounds that the monitor keeps on its three histories. *)
Definition boundedHistories (m : SafetyMonitor.t) : Prop :=
  (length (SafetyMonitor.alerts m) <= 1000)%nat /\
  (Z.of_nat (length (SafetyMonitor.inputHistory m)) <= 10000)%Z /\
  (length (SafetyMonitor.sessionHistory m) <= 100)%nat.

(** The monitor after [recordInputEvent] has stored and counted [event]
    and trimmed the history, before the real-time check runs. *)
Definition storedEvent (event : IInputEvent) (m : SafetyMonitor.t) : SafetyMonitor.t :=
  let history := SafetyMonitor.inputHistory m ++ [event] in
  SafetyMonitor.mk (SafetyMonitor.config m) (SafetyMonitor.alerts m)
    (SafetyMonitor.withOperationCount (SafetyMonitor.usageStats m)
       (SafetyMonitor.operationCount (SafetyMonitor.usageStats m) + 1)%Z)
    (if (10000 <? Z.of_nat (length history))%Z then skipn 5000 history else history)
    (SafetyMonitor.sessionHistory m) (SafetyMonitor.isActive m)
    (SafetyMonitor.safetyCheckTimer m) (SafetyMonitor.emergencyStopCallback m)
    (SafetyMonitor.emergencyStops m).

(** What any operation on a monitor respects. *)
Definition operationStep (m m' : SafetyMonitor.t) : Prop :=
  SafetyMonitor.config m' = SafetyMonitor.config m /\
  (exists new,
     SafetyMonitor.alertHistory (SafetyMonitor.usageStats m')
     = SafetyMonitor.alertHistory (SafetyMonitor.usageStats m) ++ new) /\
  (exists stops,
     SafetyMonitor.emergencyStops m' = SafetyMonitor.emergencyStops m ++ stops /\
     (SafetyMonitor.enableEmergencyStop (SafetyMonitor.config m)
      && SafetyMonitor.emergencyStopCallback m = false -> stops = [])) /\
  (boundedHistories m -> boundedHistories m') /\
  (SafetyMonitor.safetyCheckTimer m = SafetyMonitor.isActive m ->
   SafetyMonitor.safetyCheckTimer m' = SafetyMonitor.isActive m') /\
  (alertsTail m -> alertsTail m').

(** The one-minute configuration with emergency stop disabled. *)
Definition noStopConfig : SafetyMonitor.ISafetyRuleConfig :=
  SafetyMonitor.mkConfig 1 1000 30 5 0.3 0.7 0.8 0.1 0.1 60 false true.

(** A monitor that was started and stopped again. *)
Definition stoppedMonitor (config : SafetyMonitor.ISafetyRuleConfig)
    (callback : bool) : SafetyMonitor.t :=
  SafetyMonitor.mk config [] (SafetyMonitor.mkStats 0 0 0 0 None [] [] [] [] 0)
                   [] [] false false callback [].

(** *** Queries of the safety monitor *)

(** The order of [getAlertHistory]: [older] is not newer than [newer]. *)
Definition newestFirst (newer older : SafetyMonitor.ISafetyAlert) : Prop :=
  (SafetyMonitor.alert_timestamp older <= SafetyMonitor.alert_timestamp newer)%Z.

(** The alerts that the real-time check owes to an event that follows
    [previous]: one for a low confidence, one for an interval under 50 ms. *)
Definition realTimeAlerts (config : SafetyMonitor.ISafetyRuleConfig) (now : Z)
    (previous event : IInputEvent) : list SafetyMonitor.ISafetyAlert :=
  (if Qltb (confidence event) (SafetyMonitor.minHumanLikenessScore config)
   then [SafetyMonitor.mkAlert SafetyMonitor.WARNING SafetyMonitor.UNNATURAL_TIMING now]
   else [])
  ++ (if (event_timestamp event - event_timestamp previous <? 50)%Z
      then [SafetyMonitor.mkAlert SafetyMonitor.INFO SafetyMonitor.SUSPICIOUS_BEHAVIOR now]
      else []).

(** *** Randomizer *)

(** What a contributor of [randomizeDelay] leaves alone. *)
Definition keepsHistory (r r' : BehaviorRandomizer.t) : Prop :=
  BehaviorRandomizer.operationHistory r' = BehaviorRandomizer.operationHistory r /\
  BehaviorRandomizer.attentionState r' = BehaviorRandomizer.attentionState r.

(** *** Geometry *)

(** The coordinate [at] lies between [from] and [to], on whichever side of
    [from] the coordinate [to] is. *)
Definition towards (from at_ to : Q) : Prop :=
  (from <= to -> from <= at_ <= to) /\ (to <= from -> to <= at_ <= from).

(** The sum of the counts of a histogram. *)
Definition totalCount {K : Type} (counts : list (K * Z)) : Z :=
  fold_right Z.add 0%Z (map snd counts).

(** * Properties *)

(** ** The model on concrete inputs *)

(** A swap of positions 0 and 1: the first draw opens the 5% gate, the next
    two give index 0 twice, the fourth gives index 1; neither omission nor
    duplication follows. *)
Example randomizeOperationSequence_swaps :
  option_map (fun x => (BehaviorRandomizer.sequence (fst x),
                        length (BehaviorRandomizer.variations (snd x))))
    (BehaviorRandomizer.randomizeOperationSequence 0 ["a"; "b"; "c"]%string
       openSequenceContext (randomizerWith [0.01; 0.1; 0.1; 0.5; 0.5; 0.5]))
  = Some (["b"; "a"; "c"]%string, 1%nat).
Proof. vm_compute. reflexivity. Qed.

(** An omission of position 2 followed by a duplication of position 0. *)
Example randomizeOperationSequence_omits_and_duplicates :
  option_map (fun x => (BehaviorRandomizer.sequence (fst x),
                        length (BehaviorRandomizer.variations (snd x))))
    (BehaviorRandomizer.randomizeOperationSequence 0 ["a"; "b"; "c"]%string
       openSequenceContext (randomizerWith [0.5; 0.01; 0.9; 0.001; 0.4]))
  = Some (["a"; "a"; "b"]%string, 2%nat).
Proof. vm_compute. reflexivity. Qed.

(** A sequence of one element cannot be reordered: the placeholder enters
    the returned list and the history stays empty. *)
Example randomizeOperationSequence_placeholder :
  option_map (fun x => (BehaviorRandomizer.sequence (fst x),
                        BehaviorRandomizer.sequence_variations (fst x),
                        BehaviorRandomizer.variations (snd x)))
    (BehaviorRandomizer.randomizeOperationSequence 0 ["a"]%string
       openSequenceContext (randomizerWith [0.01; 0.5; 0.5]))
  = Some (["a"]%string, [None], []).
Proof. vm_compute. reflexivity. Qed.

Example detectRepeatingPattern_ABAB :
  SafetyMonitor.detectRepeatingPattern
    [mouse_click; key_press; mouse_click; key_press] = 2%Z.
Proof. vm_compute. reflexivity. Qed.

Example detectRepeatingPattern_ABC :
  SafetyMonitor.detectRepeatingPattern [mouse_click; key_press; mouse_move] = 0%Z.
Proof. vm_compute. reflexivity. Qed.

(** After 61 seconds of a one-minute session without operations the fatigue
    is the full time component alone. *)
Example calculateFatigueLevel_overdue :
  SafetyMonitor.calculateFatigueLevel (startedMonitor oneMinuteConfig true) 61000
  == 0.4.
Proof. vm_compute. reflexivity. Qed.

(** The first event of a started monitor, with sufficient confidence, is
    recorded and counted, and raises no alert. *)
Example recordInputEvent_confident :
  option_map (fun x => (length (SafetyMonitor.inputHistory (snd x)),
                        SafetyMonitor.operationCount (SafetyMonitor.usageStats (snd x)),
                        SafetyMonitor.alerts (snd x)))
    (SafetyMonitor.recordInputEvent 1000 (mkEvent mouse_click 1000 120 0.95)
       (startedMonitor SafetyMonitor.defaultConfig false))
  = Some (1%nat, 1%Z, []).
Proof. vm_compute. reflexivity. Qed.

(** ** Reasoning about computations *)

Lemma Some_injective {A : Type} (a b : A) : Some a = Some b -> a = b.
Proof. congruence. Qed.

Lemma bind_Some {S A B : Type} (m : Prog S A) (k : A -> Prog S B) s b s'' :
  bind m k s = Some (b, s'') ->
  exists a s', m s = Some (a, s') /\ k a s' = Some (b, s'').
Proof.
  unfold bind. destruct (m s) as [[a s']|]; [|discriminate].
  intros H. exists a, s'. auto.
Qed.

Lemma ret_Some {S A : Type} (a b : A) (s s' : S) :
  ret a s = Some (b, s') -> a = b /\ s = s'.
Proof. unfold ret. intros H. inversion H. auto. Qed.

(** Splits a hypothesis [H : (x <- m ;; k) s = Some _] into its steps. *)
Ltac step H :=
  let a := fresh "a" in
  let s := fresh "s" in
  let H1 := fresh "Hrun" in
  apply bind_Some in H; destruct H as (a & s & H1 & H).

Lemma Qltb_lt (a b : Q) : Qltb a b = true <-> a < b.
Proof.
  unfold Qltb. rewrite negb_true_iff. split; intros H.
  - apply Qnot_le_lt. intros Hle. apply Qle_bool_iff in Hle. congruence.
  - destruct (Qle_bool b a) eqn:E; [|reflexivity].
    apply Qle_bool_iff in E. exfalso. apply (Qlt_not_le _ _ H E).
Qed.

Lemma Qltb_ge (a b : Q) : Qltb a b = false <-> b <= a.
Proof.
  unfold Qltb. rewrite negb_false_iff. apply Qle_bool_iff.
Qed.

(** ** The random source *)

Lemma drawNonZero_positive q tape :
  positiveDraw q -> Rng.drawNonZero (q :: tape) = Some (q, tape).
Proof.
  intros [H0 H1]. cbn [Rng.drawNonZero]. unfold Rng.validDraw.
  assert (Hv : Qle_bool 0 q = true) by (apply Qle_bool_iff; lra).
  assert (Hl : Qltb q 1 = true) by (apply Qltb_lt; lra).
  rewrite Hv, Hl. cbn [andb].
  destruct (Qeq_bool q 0) eqn:E; [|reflexivity].
  apply Qeq_bool_eq in E. lra.
Qed.

Lemma gaussianRandom_returns M mean stdDev tape :
  Forall positiveDraw tape -> (2 <= length tape)%nat ->
  exists z, Rng.gaussianRandom M mean stdDev tape = Some (z, skipn 2 tape).
Proof.
  intros HF Hlen.
  destruct tape as [|u [|v tape]]; cbn [length] in Hlen; try lia.
  inversion HF as [|? ? Hu HF']; subst. inversion HF' as [|? ? Hv HF'']; subst.
  unfold Rng.gaussianRandom, bind.
  rewrite (drawNonZero_positive u _ Hu), (drawNonZero_positive v _ Hv).
  eexists. reflexivity.
Qed.

Lemma Forall_skipn {A : Type} (P : A -> Prop) n (l : list A) :
  Forall P l -> Forall P (skipn n l).
Proof.
  revert l. induction n as [|n IH]; intros l H; [exact H|].
  destruct l as [|x l]; [constructor|]. inversion H; subst. cbn. auto.
Qed.

(** ** Mouse paths *)

Section MousePaths.

Import HumanLikeBezierGenerator.

Lemma coord_at_0 a b c d u : u == 0 -> CubicBezier.coord a b c d u == a.
Proof.
  intros Hu. unfold CubicBezier.coord, Math_pow. cbn [Qpower Qpower_positive pow_pos].
  rewrite Hu. ring.
Qed.

Lemma coord_at_1 a b c d u : u == 1 -> CubicBezier.coord a b c d u == d.
Proof.
  intros Hu. unfold CubicBezier.coord, Math_pow. cbn [Qpower Qpower_positive pow_pos].
  rewrite Hu. ring.
Qed.

Lemma getPoint_at_0 b u : u == 0 -> IPoint_eq (CubicBezier.getPoint b u) (CubicBezier.p0 b).
Proof. intros Hu. split; cbn; apply coord_at_0; exact Hu. Qed.

Lemma getPoint_at_1 b u : u == 1 -> IPoint_eq (CubicBezier.getPoint b u) (CubicBezier.p3 b).
Proof. intros Hu. split; cbn; apply coord_at_1; exact Hu. Qed.

Lemma pathSteps_bounds pathLength speed steps :
  pathSteps pathLength speed = Some steps -> 20 <= steps /\ steps <= 100.
Proof.
  unfold pathSteps, Math_max, Math_min.
  destruct (Qeq_bool speed 0).
  - destruct (Qeq_bool pathLength 0); [discriminate|].
    destruct (Qltb 0 pathLength); intros H; apply Some_injective in H; subst steps;
      split; discriminate.
  - intros H. apply Some_injective in H. subst steps. split.
    + apply Q.le_max_l.
    + apply Q.max_lub; [lra | apply Q.le_min_l].
Qed.

Lemma pathSteps_moving pathLength speed :
  ~ speed == 0 ->
  pathSteps pathLength speed
  = Some (Math_max 20 (Math_min 100 (pathLength / (2 * speed)))).
Proof.
  intros Hspeed. unfold pathSteps.
  destruct (Qeq_bool speed 0) eqn:E; [|reflexivity].
  apply Qeq_bool_eq in E. contradiction.
Qed.

Lemma Qfloor_bounds steps :
  20 <= steps -> steps <= 100 -> (20 <= Qfloor steps <= 100)%Z.
Proof.
  intros Hlo Hhi. split.
  - change 20%Z with (Qfloor (inject_Z 20)). apply Qfloor_resp_le. exact Hlo.
  - change 100%Z with (Qfloor (inject_Z 100)). apply Qfloor_resp_le. exact Hhi.
Qed.

Lemma loopIndices_length steps :
  20 <= steps -> steps <= 100 ->
  (21 <= length (loopIndices steps) <= 101)%nat.
Proof.
  intros Hlo Hhi. destruct (Qfloor_bounds steps Hlo Hhi) as [H1 H2].
  unfold loopIndices, Math_floor. rewrite length_map, length_seq. lia.
Qed.

Lemma loopIndices_first steps :
  20 <= steps -> steps <= 100 ->
  exists rest, loopIndices steps = 0%Z :: rest.
Proof.
  intros Hlo Hhi. destruct (Qfloor_bounds steps Hlo Hhi) as [H1 H2].
  unfold loopIndices, Math_floor.
  destruct (Z.to_nat (Qfloor steps + 1)) as [|n] eqn:E; [lia|].
  cbn [seq map]. eexists. reflexivity.
Qed.

Lemma loopIndices_last steps :
  20 <= steps -> steps <= 100 ->
  exists front, loopIndices steps = front ++ [Qfloor steps].
Proof.
  intros Hlo Hhi. destruct (Qfloor_bounds steps Hlo Hhi) as [H1 H2].
  unfold loopIndices, Math_floor.
  replace (Z.to_nat (Qfloor steps + 1)) with (S (Z.to_nat (Qfloor steps))) by lia.
  rewrite seq_S, map_app. cbn [map Nat.add].
  rewrite Z2Nat.id by lia. eexists. reflexivity.
Qed.

Lemma addNoise_noiseless M point noiseLevel tape :
  noiseLevel <= 0 -> addNoise M point noiseLevel tape = Some (point, tape).
Proof.
  intros H. unfold addNoise. apply Qle_bool_iff in H. rewrite H. reflexivity.
Qed.

Lemma samplePath_length M bezier steps noise indices :
  forall tape path tape',
    samplePath M bezier steps noise indices tape = Some (path, tape') ->
    length path = length indices.
Proof.
  induction indices as [|i rest IH]; intros tape path tape' H; cbn [samplePath] in H.
  - apply ret_Some in H. destruct H as [<- _]. reflexivity.
  - step H. step H. apply ret_Some in H. destruct H as [<- _].
    cbn [length]. f_equal. eapply IH. eassumption.
Qed.

Lemma samplePath_noiseless M bezier steps noise indices :
  noise <= 0 ->
  forall tape,
    samplePath M bezier steps noise indices tape =
    Some (map (fun i => CubicBezier.getPoint bezier (inject_Z i / steps)) indices, tape).
Proof.
  intros Hn. induction indices as [|i rest IH]; intros tape; cbn [samplePath map].
  - reflexivity.
  - unfold bind. rewrite addNoise_noiseless by exact Hn. rewrite IH. reflexivity.
Qed.

Lemma addNoise_returns M point noiseLevel tape :
  Forall positiveDraw tape -> (4 <= length tape)%nat ->
  exists p tape', addNoise M point noiseLevel tape = Some (p, tape') /\
                  Forall positiveDraw tape' /\ (length tape - 4 <= length tape')%nat.
Proof.
  intros HF Hlen. unfold addNoise.
  destruct (Qle_bool noiseLevel 0).
  - exists point, tape. repeat split; [exact HF | lia].
  - destruct (gaussianRandom_returns M 0 noiseLevel tape HF) as [zx Hx]; [lia|].
    assert (HF2 : Forall positiveDraw (skipn 2 tape)) by (apply Forall_skipn; exact HF).
    assert (Hlen2 : (2 <= length (skipn 2 tape))%nat) by (rewrite length_skipn; lia).
    destruct (gaussianRandom_returns M 0 noiseLevel _ HF2 Hlen2) as [zy Hy].
    unfold bind. rewrite Hx, Hy. eexists _, _. split; [reflexivity|]. split.
    + apply Forall_skipn. exact HF2.
    + rewrite !length_skipn. lia.
Qed.

Lemma samplePath_returns M bezier steps noise indices :
  forall tape,
    Forall positiveDraw tape -> (4 * length indices <= length tape)%nat ->
    exists path tape', samplePath M bezier steps noise indices tape = Some (path, tape').
Proof.
  induction indices as [|i rest IH]; intros tape HF Hlen; cbn [samplePath].
  - eexists _, _. reflexivity.
  - cbn [length] in Hlen.
    destruct (addNoise_returns M (CubicBezier.getPoint bezier (inject_Z i / steps))
                noise tape HF) as (p & tape1 & Hp & HF1 & Hlen1); [lia|].
    destruct (IH tape1 HF1) as (path & tape2 & Hrest); [lia|].
    unfold bind. rewrite Hp, Hrest. eexists _, _. reflexivity.
Qed.

Lemma generateControlPoints_returns M start end_ curvature deviation tape :
  Forall positiveDraw tape -> (2 <= length tape)%nat ->
  exists cps tape', generateControlPoints M start end_ curvature deviation tape
                    = Some (cps, tape') /\
                    Forall positiveDraw tape' /\ (length tape - 2 <= length tape')%nat.
Proof.
  intros HF Hlen. unfold generateControlPoints.
  destruct (Qeq_bool _ 0).
  - eexists _, tape. repeat split; [exact HF | lia].
  - destruct (gaussianRandom_returns M 0 deviation tape HF Hlen) as [z Hz].
    unfold bind. rewrite Hz. eexists _, _. split; [reflexivity|]. split.
    + apply Forall_skipn. exact HF.
    + rewrite length_skipn. lia.
Qed.

Lemma Qle_bool_false (a b : Q) : b < a -> Qle_bool a b = false.
Proof.
  intros H. destruct (Qle_bool a b) eqn:E; [|reflexivity].
  apply Qle_bool_iff in E. lra.
Qed.

(** The first sample of a noisy path: the curve's start, displaced by the
    two Gaussian draws of [addNoise]. *)
Lemma samplePath_first_noisy M bezier steps noise tape path tape' :
  20 <= steps -> steps <= 100 -> 0 < noise ->
  samplePath M bezier steps noise (loopIndices steps) tape = Some (path, tape') ->
  exists noiseX noiseY tape2 tape3 first rest,
    Rng.gaussianRandom M 0 noise tape = Some (noiseX, tape2) /\
    Rng.gaussianRandom M 0 noise tape2 = Some (noiseY, tape3) /\
    path = first :: rest /\
    IPoint_eq first (mkPoint (px (CubicBezier.p0 bezier) + noiseX)
                             (py (CubicBezier.p0 bezier) + noiseY)).
Proof.
  intros Hlo Hhi Hn H.
  assert (Hsteps : ~ steps == 0) by lra.
  destruct (loopIndices_first steps Hlo Hhi) as [rest Hrest].
  rewrite Hrest in H. cbn [samplePath] in H.
  step H. step H. apply ret_Some in H. destruct H as [<- _].
  unfold addNoise in Hrun. rewrite (Qle_bool_false _ _ Hn) in Hrun.
  step Hrun. step Hrun. apply ret_Some in Hrun. destruct Hrun as [<- <-].
  exists a1, a2, s1, s2. eexists _, _.
  split; [exact Hrun1|]. split; [exact Hrun2|]. split; [reflexivity|].
  split; cbn [px py CubicBezier.getPoint].
  - rewrite coord_at_0; [reflexivity | field; exact Hsteps].
  - rewrite coord_at_0; [reflexivity | field; exact Hsteps].
Qed.

Lemma samplePath_first_quiet M bezier steps noise tape path tape' :
  20 <= steps -> steps <= 100 -> noise <= 0 ->
  samplePath M bezier steps noise (loopIndices steps) tape = Some (path, tape') ->
  firstPointIs path (CubicBezier.p0 bezier).
Proof.
  intros Hlo Hhi Hn H.
  assert (Hsteps : ~ steps == 0) by lra.
  rewrite (samplePath_noiseless _ _ _ _ _ Hn) in H. injection H as <- <-.
  destruct (loopIndices_first steps Hlo Hhi) as [rest ->]. cbn [map].
  eexists _, _. split; [reflexivity|].
  apply (getPoint_at_0 bezier). field. exact Hsteps.
Qed.

Lemma samplePath_last_quiet M bezier steps noise tape path tape' :
  20 <= steps -> steps <= 100 -> noise <= 0 ->
  inject_Z (Math_floor steps) == steps ->
  samplePath M bezier steps noise (loopIndices steps) tape = Some (path, tape') ->
  lastPointIs path (CubicBezier.p3 bezier).
Proof.
  intros Hlo Hhi Hn Hwhole H.
  assert (Hsteps : ~ steps == 0) by lra.
  rewrite (samplePath_noiseless _ _ _ _ _ Hn) in H. injection H as <- <-.
  destruct (loopIndices_last steps Hlo Hhi) as [front ->].
  rewrite map_app. cbn [map].
  eexists _, _. split; [reflexivity|].
  apply (getPoint_at_1 bezier). unfold Math_floor in Hwhole.
  rewrite Hwhole. field. exact Hsteps.
Qed.

Lemma generateControlPoints_tape M start end_ curvature deviation tape cps tape1 :
  generateControlPoints M start end_ curvature deviation tape = Some (cps, tape1) ->
  Forall positiveDraw tape -> (2 <= length tape)%nat ->
  tape1 = tape \/ tape1 = skipn 2 tape.
Proof.
  intros H HF Hlen. unfold generateControlPoints in H.
  destruct (Qeq_bool _ 0).
  - apply ret_Some in H. destruct H as [_ <-]. left. reflexivity.
  - step H. apply ret_Some in H. destruct H as [_ <-].
    destruct (gaussianRandom_returns M 0 deviation tape HF Hlen) as [z Hz].
    rewrite Hz in Hrun. injection Hrun as _ <-. right. reflexivity.
Qed.

Lemma halves_positive n : Forall positiveDraw (halves n).
Proof.
  apply Forall_forall. intros x Hx. apply repeat_spec in Hx. subst x.
  split; reflexivity.
Qed.

(** With a generator that returns one half, a standard Gaussian draw of the
    concrete [Math] is negative (about -1.18). *)
Lemma gaussianRandom_halves tape :
  exists z, Rng.gaussianRandom approxMath 0 1 (0.5 :: 0.5 :: tape) = Some (z, tape) /\
            z < 0.
Proof.
  eexists. split.
  - unfold Rng.gaussianRandom, bind.
    rewrite !drawNonZero_positive by (split; reflexivity). reflexivity.
  - vm_compute. reflexivity.
Qed.

Lemma generateMousePath_returns M config tape :
  Forall positiveDraw tape -> (406 <= length tape)%nat ->
  exists path tape', generateMousePath M config tape = Some (path, tape').
Proof.
  intros HF Hlen. unfold generateMousePath.
  destruct (generateControlPoints_returns M (startPoint config) (endPoint config)
              (curvature config) (deviation config) tape HF)
    as (cps & tape1 & Hcp & HF1 & Hlen1); [lia|].
  unfold bind. rewrite Hcp. cbv zeta.
  destruct (pathSteps _ _) as [steps|] eqn:Esteps; [|eexists _, _; reflexivity].
  destruct (pathSteps_bounds _ _ _ Esteps) as [Hlo Hhi]. clear Esteps.
  apply samplePath_returns; [exact HF1|].
  pose proof (loopIndices_length steps Hlo Hhi). lia.
Qed.

(** [generateMousePath] is [generateControlPoints] followed by the sampling
    loop on the curve through the control points. *)
Lemma generateMousePath_samples M config tape path tape' :
  ~ speed config == 0 ->
  generateMousePath M config tape = Some (path, tape') ->
  exists controlPoints tape1 steps,
    generateControlPoints M (startPoint config) (endPoint config)
      (curvature config) (deviation config) tape = Some (controlPoints, tape1) /\
    let bezier := CubicBezier.mk (startPoint config) (fst controlPoints)
                                 (snd controlPoints) (endPoint config) in
    pathSteps (CubicBezier.getLength M bezier) (speed config) = Some steps /\
    steps = Math_max 20 (Math_min 100
              (CubicBezier.getLength M bezier / (2 * speed config))) /\
    samplePath M bezier steps (noise config) (loopIndices steps) tape1
    = Some (path, tape').
Proof.
  intros Hspeed H. unfold generateMousePath in H. step H. cbv zeta in H.
  rewrite (pathSteps_moving _ _ Hspeed) in H.
  exists a, s. eexists. split; [exact Hrun|]. cbv zeta.
  split; [apply pathSteps_moving, Hspeed|]. split; [reflexivity|exact H].
Qed.

(** The first sample of a noisy path is the start point plus Gaussian noise. *)
Lemma generateMousePath_first_noisy M config tape path tape' :
  ~ speed config == 0 ->
  generateMousePath M config tape = Some (path, tape') ->
  0 < noise config ->
  exists controlPoints tape1 noiseX noiseY tape2 tape3 first rest,
    generateControlPoints M (startPoint config) (endPoint config)
      (curvature config) (deviation config) tape = Some (controlPoints, tape1) /\
    Rng.gaussianRandom M 0 (noise config) tape1 = Some (noiseX, tape2) /\
    Rng.gaussianRandom M 0 (noise config) tape2 = Some (noiseY, tape3) /\
    path = first :: rest /\
    IPoint_eq first (mkPoint (px (startPoint config) + noiseX)
                             (py (startPoint config) + noiseY)).
Proof.
  intros Hspeed H Hn.
  destruct (generateMousePath_samples _ _ _ _ _ Hspeed H)
    as (cps & tape1 & steps & Hcp & Hsteps & _ & Hs).
  destruct (pathSteps_bounds _ _ _ Hsteps) as [Hlo Hhi]. clear Hsteps.
  destruct (samplePath_first_noisy _ _ _ _ _ _ _ Hlo Hhi Hn Hs)
    as (noiseX & noiseY & tape2 & tape3 & first & rest & Hgx & Hgy & Hp & Hfirst).
  exists cps, tape1, noiseX, noiseY, tape2, tape3, first, rest.
  repeat split; try assumption; apply Hfirst.
Qed.

Lemma halves_length n : length (halves n) = n.
Proof. apply repeat_length. Qed.

(** With noise, every sample is the point of the curve displaced by two
    Gaussian draws: [addNoise] is called in each round of the loop. *)
Lemma samplePath_noisy M bezier steps noise indices :
  0 < noise ->
  forall tape path tape',
    samplePath M bezier steps noise indices tape = Some (path, tape') ->
    noisySamples M bezier steps noise indices tape path tape'.
Proof.
  intros Hn. induction indices as [|i rest IH]; intros tape path tape' H;
    cbn [samplePath] in H.
  - apply ret_Some in H. destruct H as [<- <-]. reflexivity.
  - step H. step H. apply ret_Some in H. destruct H as [<- <-].
    unfold addNoise in Hrun. rewrite (Qle_bool_false _ _ Hn) in Hrun.
    step Hrun. step Hrun. apply ret_Some in Hrun. destruct Hrun as [<- <-].
    cbn [noisySamples]. eexists _, _, _, _.
    split; [eassumption|]. split; [eassumption|]. split; [reflexivity|].
    apply IH. assumption.
Qed.

(** The last of the noisy samples. *)
Lemma noisySamples_last M bezier steps noise i :
  forall front tape path tape',
    noisySamples M bezier steps noise (front ++ [i]) tape path tape' ->
    exists frontPath noiseX noiseY tapeA tapeB,
      Rng.gaussianRandom M 0 noise tapeA = Some (noiseX, tapeB) /\
      Rng.gaussianRandom M 0 noise tapeB = Some (noiseY, tape') /\
      path = frontPath ++
             [mkPoint (px (CubicBezier.getPoint bezier (inject_Z i / steps)) + noiseX)
                      (py (CubicBezier.getPoint bezier (inject_Z i / steps)) + noiseY)].
Proof.
  induction front as [|j front IH]; intros tape path tape' H;
    cbn [app noisySamples] in H.
  - destruct path as [|sample path']; [contradiction|].
    destruct H as (noiseX & noiseY & tape1 & tape2 & Hx & Hy & Hs & Hrest).
    destruct path' as [|sample' path'']; [|contradiction].
    cbn [noisySamples] in Hrest. subst tape' sample.
    exists [], noiseX, noiseY, tape, tape1. auto.
  - destruct path as [|sample path']; [contradiction|].
    destruct H as (noiseX & noiseY & tape1 & tape2 & Hx & Hy & Hs & Hrest).
    destruct (IH _ _ _ Hrest)
      as (frontPath & lastX & lastY & tapeA & tapeB & HlastX & HlastY & Hpath).
    exists (sample :: frontPath), lastX, lastY, tapeA, tapeB.
    split; [exact HlastX|]. split; [exact HlastY|].
    rewrite Hpath. reflexivity.
Qed.

(** The length of the curve is a sum of square roots: it is at least its
    first term when [Math.sqrt] is never negative. *)
Lemma lengthStep_grows M b steps acc i :
  (forall q, 0 <= Math_sqrt M q) ->
  fst acc <= fst (CubicBezier.lengthStep M b steps acc i).
Proof.
  intros Hsqrt. destruct acc as [len prevPoint].
  unfold CubicBezier.lengthStep. cbn [fst].
  rewrite <- (Qplus_0_r len) at 1. apply Qplus_le_r. apply Hsqrt.
Qed.

Lemma fold_lengthStep_grows M b steps indices :
  (forall q, 0 <= Math_sqrt M q) ->
  forall acc,
    fst acc <= fst (fold_left (CubicBezier.lengthStep M b steps) indices acc).
Proof.
  intros Hsqrt. induction indices as [|i rest IH]; intros acc; cbn [fold_left].
  - apply Qle_refl.
  - eapply Qle_trans; [apply lengthStep_grows; exact Hsqrt | apply IH].
Qed.

Lemma getLength_first_segment M b :
  (forall q, 0 <= Math_sqrt M q) ->
  fst (CubicBezier.lengthStep M b 100 (0, CubicBezier.p0 b) 1)
  <= CubicBezier.getLength M b.
Proof.
  intros Hsqrt. unfold CubicBezier.getLength. cbv zeta.
  change (map Z.of_nat (seq 1 (Z.to_nat 100)))
    with (1%Z :: map Z.of_nat (seq 2 99)).
  cbn [fold_left]. apply fold_lengthStep_grows. exact Hsqrt.
Qed.

Lemma Qmake_nonneg (z : Z) (d : positive) : (0 <= z)%Z -> 0 <= z # d.
Proof. intros Hz. unfold Qle. cbn [Qnum Qden]. lia. Qed.

Lemma approxMath_sqrt_nonneg q : 0 <= Math_sqrt approxMath q.
Proof.
  change (Math_sqrt approxMath q) with (ApproxMath.sqrt q).
  unfold ApproxMath.sqrt. destruct (Qle_bool q 0); [apply Qle_refl|].
  apply Qmake_nonneg. apply Z.sqrt_nonneg.
Qed.

(** A curve long enough for the speed is sampled in 100 steps. *)
Lemma pathSteps_slow pathLength speed :
  0 < speed -> 200 * speed <= pathLength ->
  Math_max 20 (Math_min 100 (pathLength / (2 * speed))) == 100.
Proof.
  intros Hspeed Hlen. unfold Math_max, Math_min.
  assert (Hq : 100 <= pathLength / (2 * speed)).
  { apply Qle_shift_div_l; lra. }
  rewrite Q.max_r.
  - apply Q.min_l. exact Hq.
  - apply Q.min_glb; [discriminate | lra].
Qed.

(** The control points of the slow move, and the first chord of its curve. *)
Lemma slowMove_controlPoints :
  exists controlPoints,
    generateControlPoints approxMath (startPoint slowMoveConfig)
      (endPoint slowMoveConfig) (curvature slowMoveConfig)
      (deviation slowMoveConfig) (halves 406)
    = Some (controlPoints, halves 404) /\
    0.4 <= fst (CubicBezier.lengthStep approxMath
                  (CubicBezier.mk (startPoint slowMoveConfig) (fst controlPoints)
                                  (snd controlPoints) (endPoint slowMoveConfig))
                  100 (0, startPoint slowMoveConfig) 1).
Proof.
  exists (match generateControlPoints approxMath (startPoint slowMoveConfig)
                  (endPoint slowMoveConfig) (curvature slowMoveConfig)
                  (deviation slowMoveConfig) (halves 406) with
          | Some (controlPoints, _) => controlPoints
          | None => (startPoint slowMoveConfig, endPoint slowMoveConfig)
          end).
  split.
  - vm_compute. reflexivity.
  - vm_compute. discriminate.
Qed.

(** With a generator that returns one half, the first noise of the noisy
    move is negative. *)
Lemma noisyPath_first_noise controlPoints tape1 noiseX tape2 :
  generateControlPoints approxMath (startPoint noisyPathConfig)
    (endPoint noisyPathConfig) (curvature noisyPathConfig)
    (deviation noisyPathConfig) (halves 406) = Some (controlPoints, tape1) ->
  Rng.gaussianRandom approxMath 0 (noise noisyPathConfig) tape1
  = Some (noiseX, tape2) ->
  noiseX < 0.
Proof.
  intros Hcp Hgx.
  assert (Htape : tape1 = halves 406 \/ tape1 = skipn 2 (halves 406)).
  { apply (generateControlPoints_tape _ _ _ _ _ _ _ _ Hcp (halves_positive 406)).
    rewrite halves_length. lia. }
  assert (Hshape : exists rest1, tape1 = 0.5 :: 0.5 :: rest1).
  { destruct Htape as [-> | ->].
    - exists (halves 404). reflexivity.
    - exists (halves 402). reflexivity. }
  destruct Hshape as [rest1 ->].
  destruct (gaussianRandom_halves rest1) as (z & Hz & Hlt).
  change (noise noisyPathConfig) with 1 in Hgx.
  rewrite Hz in Hgx. apply Some_injective in Hgx.
  replace noiseX with z by congruence. exact Hlt.
Qed.

(** C3, as stated, fails, and neither of the two conditions of the amended
    claim can be left out.  With a non-zero speed, noise 1 and a generator
    that returns one half, the first sample of a move from (0,0) to (100,0)
    is not (0,0): the noise of [addNoise] is added to the two end samples
    like to any other.  Without noise, a pointer at rest at (0,0) that is
    asked to stay there at speed 0 gets no sample at all: the length of the
    curve is 0, the step count is 0/0, and the loop does not run. *)
Lemma generateMousePath_noise_or_standstill :
  ~ (forall (M : MathLib) (config : IMousePathConfig) (tape : Rng.Tape)
            (path : list IPoint) (tape' : Rng.Tape),
        ~ speed config == 0 ->
        generateMousePath M config tape = Some (path, tape') ->
        firstPointIs path (startPoint config) /\
        lastPointIs path (endPoint config) /\
        (20 <= length path)%nat) /\
  ~ (forall (M : MathLib) (config : IMousePathConfig) (tape : Rng.Tape)
            (path : list IPoint) (tape' : Rng.Tape),
        noise config <= 0 ->
        generateMousePath M config tape = Some (path, tape') ->
        firstPointIs path (startPoint config) /\
        lastPointIs path (endPoint config) /\
        (20 <= length path)%nat).
Proof.
  split; intros claim.
  - assert (Hspeed : ~ speed noisyPathConfig == 0) by discriminate.
    destruct (generateMousePath_returns approxMath noisyPathConfig (halves 406)
                (halves_positive 406)) as (path & tape' & E).
    { rewrite halves_length. apply Nat.le_refl. }
    destruct (claim _ _ _ _ _ Hspeed E) as [(q & rest & Hpath & Hqx & _) _].
    destruct (generateMousePath_first_noisy _ _ _ _ _ Hspeed E (eq_refl : 0 < 1))
      as (cps & tape1 & noiseX & noiseY & tape2 & tape3 & first & rest'
          & Hcp & Hgx & _ & Hfirst & Hpx & _).
    pose proof (noisyPath_first_noise _ _ _ _ Hcp Hgx) as Hneg.
    rewrite Hpath in Hfirst. injection Hfirst as <- _.
    change (px (startPoint noisyPathConfig)) with 0 in Hpx, Hqx.
    cbn [px] in Hpx. rewrite Hqx in Hpx. lra.
  - assert (E : generateMousePath approxMath standstillConfig [] = Some ([], [])).
    { vm_compute. reflexivity. }
    assert (Hquiet : noise standstillConfig <= 0) by discriminate.
    destruct (claim _ _ _ _ _ Hquiet E) as [(q & rest & Hpath & _) _].
    discriminate Hpath.
Qed.

(** C3, amended: for a non-zero speed, [generateMousePath] returns a path
    when the generator can supply the draws; the step count is
    [max(20, min(100, length / (2 * speed)))] and the path has
    [floor steps + 1 >= 21] samples.  With noise [<= 0] the first sample is
    the start point and, when the step count is a whole number, the last
    sample is the end point.  With noise [> 0] every sample is the point of
    the curve displaced by two Gaussian draws of its own: the first sample
    is the displaced start point, and the last one the displaced point of
    the curve at [floor steps / steps], which is the end point when the step
    count is a whole number. *)
Theorem generateMousePath_endpoints
    (M : MathLib) (config : IMousePathConfig) (tape : Rng.Tape) :
  ~ speed config == 0 ->
  (Forall positiveDraw tape -> (406 <= length tape)%nat ->
   exists path tape', generateMousePath M config tape = Some (path, tape')) /\
  (forall path tape',
     generateMousePath M config tape = Some (path, tape') ->
     exists controlPoints tape1 steps,
       generateControlPoints M (startPoint config) (endPoint config)
         (curvature config) (deviation config) tape = Some (controlPoints, tape1) /\
       let bezier := CubicBezier.mk (startPoint config) (fst controlPoints)
                                    (snd controlPoints) (endPoint config) in
       let lastOnCurve :=
         CubicBezier.getPoint bezier (inject_Z (Math_floor steps) / steps) in
       pathSteps (CubicBezier.getLength M bezier) (speed config) = Some steps /\
       steps = Math_max 20 (Math_min 100
                 (CubicBezier.getLength M bezier / (2 * speed config))) /\
       length path = Z.to_nat (Math_floor steps + 1) /\
       (21 <= length path)%nat /\
       (noise config <= 0 -> firstPointIs path (startPoint config)) /\
       (noise config <= 0 -> inject_Z (Math_floor steps) == steps ->
        lastPointIs path (endPoint config)) /\
       (0 < noise config ->
        noisySamples M bezier steps (noise config) (loopIndices steps)
          tape1 path tape' /\
        (exists noiseX noiseY tape2 tape3 first rest,
           Rng.gaussianRandom M 0 (noise config) tape1 = Some (noiseX, tape2) /\
           Rng.gaussianRandom M 0 (noise config) tape2 = Some (noiseY, tape3) /\
           path = first :: rest /\
           IPoint_eq first (mkPoint (px (startPoint config) + noiseX)
                                    (py (startPoint config) + noiseY))) /\
        (exists front noiseX noiseY tapeA tapeB,
           Rng.gaussianRandom M 0 (noise config) tapeA = Some (noiseX, tapeB) /\
           Rng.gaussianRandom M 0 (noise config) tapeB = Some (noiseY, tape') /\
           path = front ++ [mkPoint (px lastOnCurve + noiseX)
                                    (py lastOnCurve + noiseY)]) /\
        (inject_Z (Math_floor steps) == steps ->
         IPoint_eq lastOnCurve (endPoint config)))).
Proof.
  intros Hspeed. split.
  - apply generateMousePath_returns.
  - intros path tape' H.
    destruct (generateMousePath_samples _ _ _ _ _ Hspeed H)
      as (cps & tape1 & steps & Hcp & Hsteps & Hmax & Hs).
    exists cps, tape1, steps. split; [exact Hcp|]. cbv zeta in Hsteps, Hmax, Hs |- *.
    split; [exact Hsteps|]. split; [exact Hmax|]. clear Hmax.
    destruct (pathSteps_bounds _ _ _ Hsteps) as [Hlo Hhi]. clear Hsteps.
    remember (CubicBezier.mk (startPoint config) (fst cps) (snd cps) (endPoint config))
      as bezier eqn:Ebezier.
    assert (E0 : CubicBezier.p0 bezier = startPoint config) by (subst bezier; reflexivity).
    assert (E3 : CubicBezier.p3 bezier = endPoint config) by (subst bezier; reflexivity).
    clear Ebezier.
    assert (Hnz : ~ steps == 0) by lra.
    pose proof (samplePath_length _ _ _ _ _ _ _ _ Hs) as Hlen.
    pose proof (loopIndices_length steps Hlo Hhi) as Hidx.
    rewrite <- E0, <- E3.
    split; [|split; [|split; [|split]]].
    + rewrite Hlen. unfold loopIndices. rewrite length_map, length_seq. reflexivity.
    + lia.
    + intros Hn. eapply samplePath_first_quiet; eassumption.
    + intros Hn Hwhole. eapply samplePath_last_quiet; eassumption.
    + intros Hn.
      pose proof (samplePath_noisy _ _ _ _ _ Hn _ _ _ Hs) as Hall.
      split; [exact Hall|]. split; [|split].
      * eapply samplePath_first_noisy; eassumption.
      * destruct (loopIndices_last steps Hlo Hhi) as [front Hfront].
        rewrite Hfront in Hall. apply noisySamples_last in Hall. exact Hall.
      * intros Hwhole. apply getPoint_at_1. unfold Math_floor in Hwhole |- *.
        rewrite Hwhole. field. exact Hnz.
Qed.

Lemma generateMousePath_endpoints_witness :
  (exists path,
     firstPointIs path (startPoint slowMoveConfig) /\
     lastPointIs path (endPoint slowMoveConfig) /\
     length path = 101%nat) /\
  (exists first rest tape',
     generateMousePath approxMath noisyPathConfig (halves 406)
     = Some (first :: rest, tape') /\
     px first < px (startPoint noisyPathConfig)).
Proof.
  split.
  - assert (Hspeed : ~ speed slowMoveConfig == 0) by discriminate.
    destruct (generateMousePath_endpoints approxMath slowMoveConfig (halves 406)
                Hspeed) as [Hret Hprop].
    destruct (Hret (halves_positive 406)) as (path & tape' & E).
    { rewrite halves_length. apply Nat.le_refl. }
    destruct (Hprop path tape' E)
      as (cps & tape1 & steps & Hcp & _ & Hmax & Hlen & _ & Hfirst & Hlast & _).
    destruct slowMove_controlPoints as (cps0 & Hcp0 & Hchord).
    rewrite Hcp0 in Hcp. apply Some_injective in Hcp.
    pose proof (f_equal fst Hcp) as Ecps. cbn [fst] in Ecps. subst cps0.
    assert (Hsteps : steps == 100).
    { rewrite Hmax. apply pathSteps_slow; [reflexivity|].
      eapply Qle_trans; [|apply getLength_first_segment, approxMath_sqrt_nonneg].
      eapply Qle_trans; [|exact Hchord]. discriminate. }
    assert (Hquiet : noise slowMoveConfig <= 0) by discriminate.
    exists path. split; [exact (Hfirst Hquiet)|]. split.
    + apply (Hlast Hquiet). unfold Math_floor.
      rewrite (Qfloor_comp _ _ Hsteps). rewrite Hsteps. reflexivity.
    + rewrite Hlen. unfold Math_floor. rewrite (Qfloor_comp _ _ Hsteps). reflexivity.
  - assert (Hspeed : ~ speed noisyPathConfig == 0) by discriminate.
    destruct (generateMousePath_endpoints approxMath noisyPathConfig (halves 406)
                Hspeed) as [Hret Hprop].
    destruct (Hret (halves_positive 406)) as (path & tape' & E).
    { rewrite halves_length. apply Nat.le_refl. }
    destruct (Hprop path tape' E)
      as (cps & tape1 & steps & Hcp & _ & _ & _ & _ & _ & _ & Hnoisy).
    destruct (Hnoisy (eq_refl : 0 < 1))
      as (_ & (noiseX & noiseY & tape2 & tape3 & first & rest
               & Hgx & _ & Hpath & Hpx & _) & _).
    pose proof (noisyPath_first_noise _ _ _ _ Hcp Hgx) as Hneg.
    exists first, rest, tape'. split; [rewrite <- Hpath; exact E|].
    change (px (startPoint noisyPathConfig)) with 0 in Hpx |- *.
    cbn [px] in Hpx. rewrite Hpx. lra.
Defined.

End MousePaths.

(** ** Delays *)

Section Delays.

Import BehaviorRandomizer.

Lemma get_Some r a r' : get r = Some (a, r') -> a = r /\ r' = r.
Proof. unfold get. intros H. injection H as <- <-. auto. Qed.

Lemma pushVariation_Some v r u r' :
  pushVariation v r = Some (u, r') ->
  config r' = config r /\ session r' = session r /\
  variations r' = variations r ++ [v] /\ rng r' = rng r.
Proof. unfold pushVariation. intros H. injection H as _ <-. cbn. auto. Qed.

Lemma liftRng_Some {A : Type} (m : Prog Rng.Tape A) r a r' :
  liftRng m r = Some (a, r') ->
  exists tape', m (rng r) = Some (a, tape') /\ rng r' = tape' /\ sameObject r r'.
Proof.
  unfold liftRng. destruct (m (rng r)) as [[x tape']|]; [|discriminate].
  intros H. injection H as <- <-. exists tape'. cbn. unfold sameObject. cbn. auto 10.
Qed.

Lemma random_Some r x r' :
  random r = Some (x, r') -> 0 <= x /\ x < 1 /\ sameObject r r'.
Proof.
  intros H. apply liftRng_Some in H. destruct H as (tape' & H & _ & Hsame).
  unfold Rng.random in H. destruct (rng r) as [|q tape]; [discriminate|].
  destruct (Rng.validDraw q) eqn:E; [|discriminate].
  injection H as <- _. unfold Rng.validDraw in E.
  apply andb_true_iff in E. destruct E as [E0 E1].
  apply Qle_bool_iff in E0. apply Qltb_lt in E1. auto.
Qed.

Lemma random_returns r q tape :
  rng r = q :: tape -> positiveDraw q ->
  exists r', random r = Some (q, r') /\ rng r' = tape /\ sameObject r r'.
Proof.
  intros Hr [H0 H1]. unfold random, liftRng, Rng.random. rewrite Hr.
  assert (Hv : Rng.validDraw q = true).
  { unfold Rng.validDraw. apply andb_true_iff. split.
    - apply Qle_bool_iff. lra.
    - apply Qltb_lt. exact H1. }
  rewrite Hv. eexists. split; [reflexivity|]. cbn. unfold sameObject. cbn. auto 10.
Qed.

(** Each contributor records its variation in the history, whatever its
    offset; only a disabled rhythm contributor records nothing. *)
Lemma applyRhythmicVariation_records now baseDelay r c r' :
  applyRhythmicVariation now baseDelay r = Some (c, r') ->
  config r' = config r /\ session r' = session r /\
  variations r' = variations r ++ recorded [c] /\
  length (recorded [c]) =
    (if Qeq_bool (rhythmicVariation (config r)) 0 then 0 else 1)%nat.
Proof.
  intros H. unfold applyRhythmicVariation in H. step H.
  apply get_Some in Hrun. destruct Hrun as [-> ->].
  destruct (Qeq_bool (rhythmicVariation (config r)) 0).
  - apply ret_Some in H. destruct H as [<- <-]. cbn. rewrite app_nil_r. auto.
  - step H. step H. apply ret_Some in H. destruct H as [<- <-].
    apply pushVariation_Some in Hrun0. destruct Hrun0 as (Hc & Hs & Hv & _).
    assert (Hsame : sameObject r s).
    { destruct (3 <=? length _)%nat; [destruct (Qltb _ _)|];
        try (step Hrun; apply ret_Some in Hrun; destruct Hrun as [_ <-];
             match goal with
             | Hx : random _ = Some _ |- _ => apply random_Some in Hx; apply Hx
             end);
        try (apply ret_Some in Hrun; destruct Hrun as [_ <-];
             unfold sameObject; auto). }
    destruct Hsame as (Hc0 & Hs0 & Hv0 & _).
    cbn. rewrite Hc, Hs, Hv, Hc0, Hs0, Hv0. auto.
Qed.

Lemma applyAttentionImpact_records now baseDelay r c r' :
  applyAttentionImpact now baseDelay r = Some (c, r') ->
  config r' = config r /\ session r' = session r /\
  variations r' = variations r ++ recorded [c] /\ length (recorded [c]) = 1%nat.
Proof.
  intros H. unfold applyAttentionImpact in H. step H.
  apply get_Some in Hrun. destruct Hrun as [-> ->].
  step H. step H. apply ret_Some in H. destruct H as [<- <-].
  apply random_Some in Hrun. destruct Hrun as (_ & _ & Hc0 & Hs0 & Hv0 & _).
  apply pushVariation_Some in Hrun0. destruct Hrun0 as (Hc & Hs & Hv & _).
  cbn. rewrite Hc, Hs, Hv, Hc0, Hs0, Hv0. auto.
Qed.

Lemma applyFatigueImpact_records now baseDelay r c r' :
  applyFatigueImpact now baseDelay r = Some (c, r') ->
  config r' = config r /\ session r' = session r /\
  variations r' = variations r ++ recorded [c] /\ length (recorded [c]) = 1%nat /\
  (fatigueLevel (session r) == 0 -> fst c == 0).
Proof.
  intros H. unfold applyFatigueImpact in H. step H.
  apply get_Some in Hrun. destruct Hrun as [-> ->].
  step H. step H. apply ret_Some in H. destruct H as [<- <-].
  apply random_Some in Hrun. destruct Hrun as (_ & _ & Hc0 & Hs0 & Hv0 & _).
  apply pushVariation_Some in Hrun0. destruct Hrun0 as (Hc & Hs & Hv & _).
  cbn. rewrite Hc, Hs, Hv, Hc0, Hs0, Hv0. repeat split; auto.
  intros Hf. rewrite Hf. ring.
Qed.

Lemma applyStrategicRandomization_records M now baseDelay r c r' :
  applyStrategicRandomization M now baseDelay r = Some (c, r') ->
  config r' = config r /\ session r' = session r /\
  variations r' = variations r ++ recorded [c] /\ length (recorded [c]) = 1%nat.
Proof.
  intros H. unfold applyStrategicRandomization in H. step H.
  apply get_Some in Hrun. destruct Hrun as [-> ->].
  step H. step H. apply ret_Some in H. destruct H as [<- <-].
  apply liftRng_Some in Hrun. destruct Hrun as (_ & _ & _ & Hc0 & Hs0 & Hv0 & _).
  apply pushVariation_Some in Hrun0. destruct Hrun0 as (Hc & Hs & Hv & _).
  cbn. rewrite Hc, Hs, Hv, Hc0, Hs0, Hv0. auto.
Qed.

Lemma recorded_four a b c d :
  recorded [a; b; c; d] = recorded [a] ++ recorded [b] ++ recorded [c] ++ recorded [d].
Proof. unfold recorded. cbn [flat_map]. rewrite !app_nil_r. reflexivity. Qed.

Lemma delayContributions_records M now baseDelay r cs r4 :
  delayContributions M now baseDelay r = Some (cs, r4) ->
  length cs = 4%nat /\
  config r4 = config r /\
  variations r4 = variations r ++ recorded cs /\
  length (recorded cs) =
    (if Qeq_bool (rhythmicVariation (config r)) 0 then 3 else 4)%nat /\
  (fatigueLevel (session r) == 0 -> exists c, nth_error cs 2 = Some c /\ fst c == 0).
Proof.
  intros H. unfold delayContributions in H.
  step H. step H. step H. step H. apply ret_Some in H. destruct H as [<- <-].
  apply applyRhythmicVariation_records in Hrun.
  destruct Hrun as (Hc1 & Hs1 & Hv1 & Hn1).
  apply applyAttentionImpact_records in Hrun0.
  destruct Hrun0 as (Hc2 & Hs2 & Hv2 & Hn2).
  apply applyFatigueImpact_records in Hrun1.
  destruct Hrun1 as (Hc3 & Hs3 & Hv3 & Hn3 & Hzero).
  apply applyStrategicRandomization_records in Hrun2.
  destruct Hrun2 as (Hc4 & Hs4 & Hv4 & Hn4).
  split; [reflexivity|]. split; [congruence|]. split; [|split].
  - rewrite Hv4, Hv3, Hv2, Hv1.
    rewrite recorded_four, <- !app_assoc. reflexivity.
  - rewrite recorded_four, !length_app, Hn1, Hn2, Hn3, Hn4.
    destruct (Qeq_bool _ 0); reflexivity.
  - intros Hf. exists a1. split; [reflexivity|]. apply Hzero.
    rewrite Hs2, Hs1. exact Hf.
Qed.

Lemma addContribution_variations cs : forall acc,
  snd (fold_left addContribution cs acc)
  = snd acc ++ map snd (filter nonZeroOffset cs).
Proof.
  induction cs as [|c cs IH]; intros acc; cbn [fold_left filter map].
  - rewrite app_nil_r. reflexivity.
  - rewrite IH. unfold addContribution, nonZeroOffset.
    destruct (negb (Qeq_bool (fst c) 0)); cbn [snd map].
    + rewrite <- app_assoc. reflexivity.
    + reflexivity.
Qed.

(** [randomizeDelay] is its four contributors, the clamp, and the entry in
    the operation history. *)
Lemma randomizeDelay_inv M now baseDelay context r res r' :
  randomizeDelay M now baseDelay context r = Some (res, r') ->
  exists cs r4,
    delayContributions M now baseDelay r = Some (cs, r4) /\
    delay res = Math_max (baseDelay * 0.3)
                  (Math_min (baseDelay * 3.0)
                     (fst (fold_left addContribution cs (baseDelay, [])))) /\
    result_variations res = snd (fold_left addContribution cs (baseDelay, [])) /\
    variations r' = variations r4 /\ config r' = config r4.
Proof.
  intros H. unfold randomizeDelay in H.
  step H. step H. step H. step H. step H. step H.
  apply ret_Some in H. destruct H as [<- <-].
  apply get_Some in Hrun3. destruct Hrun3 as [-> ->].
  unfold setOperationHistory in Hrun4. injection Hrun4 as _ <-.
  exists [a; a0; a1; a2], s2. split.
  - unfold delayContributions, bind. rewrite Hrun, Hrun0, Hrun1, Hrun2. reflexivity.
  - cbn [fold_left delay result_variations variations config]. auto.
Qed.

Lemma random_total r n :
  hasDraws (S n) (rng r) ->
  exists x r', random r = Some (x, r') /\ hasDraws n (rng r') /\ sameObject r r'.
Proof.
  intros [HF Hlen]. destruct (rng r) as [|q tape] eqn:Er; [cbn in Hlen; lia|].
  inversion HF as [|? ? Hq HF']; subst.
  destruct (random_returns r q tape Er Hq) as (r' & Hr & Htape & Hsame).
  exists q, r'. split; [exact Hr|]. split; [|exact Hsame].
  rewrite Htape. split; [exact HF' | cbn in Hlen; lia].
Qed.

Lemma gaussianRandom_total M mean stdDev r n :
  hasDraws (S (S n)) (rng r) ->
  exists z r', gaussianRandom M mean stdDev r = Some (z, r') /\
               hasDraws n (rng r') /\ sameObject r r'.
Proof.
  intros [HF Hlen].
  destruct (gaussianRandom_returns M mean stdDev (rng r) HF) as [z Hz]; [lia|].
  unfold gaussianRandom, liftRng. rewrite Hz. eexists _, _.
  split; [reflexivity|]. cbn [rng]. split.
  - split; [apply Forall_skipn; exact HF | rewrite length_skipn; lia].
  - unfold sameObject. cbn. auto 10.
Qed.

Lemma pushVariation_total v r :
  exists r', pushVariation v r = Some (tt, r') /\ rng r' = rng r.
Proof. eexists. split; reflexivity. Qed.

Lemma hasDraws_weaken n m tape : (m <= n)%nat -> hasDraws n tape -> hasDraws m tape.
Proof. intros Hle [HF Hlen]. split; [exact HF | lia]. Qed.

Lemma applyRhythmicVariation_total now baseDelay r n :
  hasDraws (S n) (rng r) ->
  exists c r', applyRhythmicVariation now baseDelay r = Some (c, r') /\
               hasDraws n (rng r').
Proof.
  intros Hd. unfold applyRhythmicVariation, bind, get.
  destruct (Qeq_bool _ 0).
  - eexists _, _. split; [reflexivity|].
    apply (hasDraws_weaken (S n)); [lia | exact Hd].
  - destruct (random_total r n Hd) as (x & r1 & Hx & Hd1 & _).
    destruct (3 <=? length _)%nat; [destruct (Qltb _ _)|].
    + rewrite Hx. cbn. eexists _, _. split; [reflexivity|]. exact Hd1.
    + cbn. eexists _, _. split; [reflexivity|].
      apply (hasDraws_weaken (S n)); [lia | exact Hd].
    + rewrite Hx. cbn. eexists _, _. split; [reflexivity|]. exact Hd1.
Qed.

Lemma applyAttentionImpact_total now baseDelay r n :
  hasDraws (S n) (rng r) ->
  exists c r', applyAttentionImpact now baseDelay r = Some (c, r') /\
               hasDraws n (rng r').
Proof.
  intros Hd. unfold applyAttentionImpact, bind, get.
  destruct (random_total r n Hd) as (x & r1 & Hx & Hd1 & _).
  rewrite Hx. cbn. eexists _, _. split; [reflexivity|]. exact Hd1.
Qed.

Lemma applyFatigueImpact_total now baseDelay r n :
  hasDraws (S n) (rng r) ->
  exists c r', applyFatigueImpact now baseDelay r = Some (c, r') /\
               hasDraws n (rng r').
Proof.
  intros Hd. unfold applyFatigueImpact, bind, get.
  destruct (random_total r n Hd) as (x & r1 & Hx & Hd1 & _).
  rewrite Hx. cbn. eexists _, _. split; [reflexivity|]. exact Hd1.
Qed.

Lemma applyStrategicRandomization_total M now baseDelay r n :
  hasDraws (S (S n)) (rng r) ->
  exists c r', applyStrategicRandomization M now baseDelay r = Some (c, r') /\
               hasDraws n (rng r').
Proof.
  intros Hd. unfold applyStrategicRandomization, bind, get.
  destruct (gaussianRandom_total M 0
              (baseDelay * strategySpread (strategy (config r))) r n Hd)
    as (z & r1 & Hz & Hd1 & _).
  rewrite Hz. cbn. eexists _, _. split; [reflexivity|]. exact Hd1.
Qed.

Lemma randomizeDelay_total M now baseDelay context r :
  hasDraws 5 (rng r) ->
  exists res r', randomizeDelay M now baseDelay context r = Some (res, r').
Proof.
  intros Hd. unfold randomizeDelay.
  destruct (applyRhythmicVariation_total now baseDelay r 4 Hd) as (c1 & r1 & H1 & Hd1).
  destruct (applyAttentionImpact_total now baseDelay r1 3 Hd1) as (c2 & r2 & H2 & Hd2).
  destruct (applyFatigueImpact_total now baseDelay r2 2 Hd2) as (c3 & r3 & H3 & Hd3).
  destruct (applyStrategicRandomization_total M now baseDelay r3 0 Hd3)
    as (c4 & r4 & H4 & _).
  unfold bind at 1. rewrite H1. unfold bind at 1. rewrite H2.
  unfold bind at 1. rewrite H3. unfold bind at 1. rewrite H4.
  eexists _, _. reflexivity.
Qed.

Lemma clamp_bounds (lo hi x : Q) :
  lo <= hi -> lo <= Math_max lo (Math_min hi x) /\ Math_max lo (Math_min hi x) <= hi.
Proof.
  intros H. unfold Math_max, Math_min. split.
  - apply Q.le_max_l.
  - apply Q.max_lub; [exact H | apply Q.le_min_l].
Qed.

Lemma freshRandomizer_hasDraws : hasDraws 5 (rng freshRandomizer).
Proof.
  change (hasDraws 5 (halves 5)). split.
  - apply halves_positive.
  - rewrite halves_length. apply Nat.le_refl.
Qed.

(** C4: for a positive base delay, [randomizeDelay] returns whenever the
    generator can supply its draws, and the delay it returns lies in
    [0.3 * baseDelay, 3.0 * baseDelay], whatever the context, the strategy
    and the draws. *)
Theorem randomizeDelay_within_bounds
    (M : MathLib) (now : Z) (baseDelay : Q) (context : DelayContext) (r : t) :
  0 < baseDelay ->
  (hasDraws 5 (rng r) ->
   exists res r', randomizeDelay M now baseDelay context r = Some (res, r')) /\
  (forall res r',
     randomizeDelay M now baseDelay context r = Some (res, r') ->
     0.3 * baseDelay <= delay res /\ delay res <= 3.0 * baseDelay).
Proof.
  intros Hpos. split.
  - apply randomizeDelay_total.
  - intros res r' H.
    destruct (randomizeDelay_inv _ _ _ _ _ _ _ H) as (cs & r4 & _ & Hdelay & _).
    rewrite Hdelay.
    destruct (clamp_bounds (baseDelay * 0.3) (baseDelay * 3.0)
                (fst (fold_left addContribution cs (baseDelay, []))))
      as [Hlo Hhi]; [lra|].
    remember (Math_max (baseDelay * 0.3)
                (Math_min (baseDelay * 3.0)
                   (fst (fold_left addContribution cs (baseDelay, []))))) as d.
    split; lra.
Qed.

Lemma randomizeDelay_within_bounds_witness :
  exists res, 0.3 * 100 <= delay res /\ delay res <= 3.0 * 100.
Proof.
  destruct (randomizeDelay_within_bounds approxMath 0 100 plainDelayContext
              freshRandomizer (eq_refl : 0 < 100)) as [Hret Hbounds].
  destruct (Hret freshRandomizer_hasDraws) as (res & r' & E).
  exists res. exact (Hbounds res r' E).
Defined.

Lemma nonZeroOffsets_third_zero (cs : list Contribution) c :
  length cs = 4%nat -> nth_error cs 2 = Some c -> fst c == 0 ->
  (length (filter nonZeroOffset cs) <= 3)%nat.
Proof.
  intros Hlen Hnth Hzero.
  destruct cs as [|c1 [|c2 [|c3 [|c4 [|c5 cs]]]]]; try discriminate.
  cbn [nth_error] in Hnth. injection Hnth as ->.
  assert (Hc : nonZeroOffset c = false).
  { unfold nonZeroOffset. apply negb_false_iff. apply Qeq_bool_iff. exact Hzero. }
  cbn [filter]. rewrite Hc.
  destruct (nonZeroOffset c1), (nonZeroOffset c2), (nonZeroOffset c4); cbn; lia.
Qed.

(** C5, as stated, fails: a new randomizer with the default configuration
    and a session without fatigue has a fatigue offset of zero, and still
    one call of [randomizeDelay] adds four records to the history. *)
Lemma randomizeDelay_records_zero_offsets :
  ~ (forall (M : MathLib) (now : Z) (baseDelay : Q) (context : DelayContext)
            (r r' r4 : t) (res : DelayResult) (cs : list Contribution),
        randomizeDelay M now baseDelay context r = Some (res, r') ->
        delayContributions M now baseDelay r = Some (cs, r4) ->
        length (variations r') =
        (length (variations r) + length (filter nonZeroOffset cs))%nat).
Proof.
  intros claim.
  destruct (randomizeDelay_total approxMath 0 100 plainDelayContext freshRandomizer
              freshRandomizer_hasDraws) as (res & r' & E).
  destruct (randomizeDelay_inv _ _ _ _ _ _ _ E) as (cs & r4 & Hcs & _ & _ & Hv & _).
  pose proof (claim _ _ _ _ _ _ _ _ _ E Hcs) as Hclaim.
  destruct (delayContributions_records _ _ _ _ _ _ Hcs)
    as (Hlen & _ & Hrec & Hfour & Hzero).
  destruct (Hzero (Qeq_refl 0)) as (c & Hnth & Hc).
  pose proof (nonZeroOffsets_third_zero cs c Hlen Hnth Hc) as Hle.
  rewrite Hv, Hrec, length_app in Hclaim.
  assert (H4 : length (recorded cs) = 4%nat) by exact Hfour.
  lia.
Qed.

(** C5, amended: a call of [randomizeDelay] that returns lists in its result
    one record per contributor whose offset is non-zero and none for a zero
    offset; the variation history receives the record of every contributor
    that ran, zero offset or not: four records, or three when
    [rhythmicVariation] is configured as 0. *)
Theorem randomizeDelay_variation_records
    (M : MathLib) (now : Z) (baseDelay : Q) (context : DelayContext) (r : t) :
  (hasDraws 5 (rng r) ->
   exists res r', randomizeDelay M now baseDelay context r = Some (res, r')) /\
  (forall res r',
     randomizeDelay M now baseDelay context r = Some (res, r') ->
     exists cs r4,
       delayContributions M now baseDelay r = Some (cs, r4) /\
       length cs = 4%nat /\
       result_variations res = map snd (filter nonZeroOffset cs) /\
       variations r' = variations r ++ recorded cs /\
       length (recorded cs) =
         (if Qeq_bool (rhythmicVariation (config r)) 0 then 3 else 4)%nat).
Proof.
  split.
  - apply randomizeDelay_total.
  - intros res r' H.
    destruct (randomizeDelay_inv _ _ _ _ _ _ _ H)
      as (cs & r4 & Hcs & _ & Hres & Hv & _).
    destruct (delayContributions_records _ _ _ _ _ _ Hcs)
      as (Hlen & _ & Hrec & Hcount & _).
    exists cs, r4. split; [exact Hcs|]. split; [exact Hlen|]. split; [|split].
    + rewrite Hres, addContribution_variations. reflexivity.
    + rewrite Hv. exact Hrec.
    + exact Hcount.
Qed.

Lemma randomizeDelay_variation_records_witness :
  exists res r',
    randomizeDelay approxMath 0 100 plainDelayContext freshRandomizer
    = Some (res, r') /\
    length (variations r') = 4%nat.
Proof.
  destruct (randomizeDelay_variation_records approxMath 0 100 plainDelayContext
              freshRandomizer) as [Hret Hrec].
  destruct (Hret freshRandomizer_hasDraws) as (res & r' & E).
  destruct (Hrec res r' E) as (cs & r4 & _ & _ & _ & Hv & Hcount).
  exists res, r'. split; [exact E|].
  rewrite Hv, length_app, Hcount. reflexivity.
Defined.

End Delays.

(** ** Operation sequences *)

Section Sequences.

Import BehaviorRandomizer.

(** C9: when none of the three permissions is given (false or absent),
    [randomizeOperationSequence] returns the input sequence and no
    variation, and leaves the randomizer, its history and its generator
    included, as it was. *)
Theorem randomizeOperationSequence_locked
    (T : Type) (now : Z) (sequence : list T) (context : SequenceContext) (r : t) :
  truthy (allowReordering context) = false ->
  truthy (allowOmission context) = false ->
  truthy (allowDuplication context) = false ->
  randomizeOperationSequence now sequence context r
  = Some (mkSequenceResult sequence [], r).
Proof.
  intros Hre Hom Hdu.
  unfold randomizeOperationSequence, gatedMutation, andAlso, bind.
  rewrite Hre, Hom, Hdu. reflexivity.
Qed.

Lemma randomizeOperationSequence_locked_witness :
  randomizeOperationSequence 0 ["open"; "loot"; "close"]%string
    lockedSequenceContext freshRandomizer
  = Some (mkSequenceResult ["open"; "loot"; "close"]%string [], freshRandomizer).
Proof.
  apply (randomizeOperationSequence_locked string 0
           ["open"; "loot"; "close"]%string lockedSequenceContext freshRandomizer);
    reflexivity.
Defined.

End Sequences.

(** ** Safety monitor *)

Section Monitor.

Import SafetyMonitor.

(** What [createAlert] does to a monitor. *)
Lemma createAlert_spec now level type trigger m :
  exists m',
    createAlert now level type trigger m = Some (tt, m') /\
    config m' = config m /\
    inputHistory m' = inputHistory m /\
    sessionHistory m' = sessionHistory m /\
    isActive m' = isActive m /\
    safetyCheckTimer m' = safetyCheckTimer m /\
    emergencyStopCallback m' = emergencyStopCallback m /\
    usageStats m' = withAlertHistory (usageStats m)
                      (alertHistory (usageStats m) ++ [mkAlert level type now]) /\
    alerts m' = (if (1000 <? length (alerts m ++ [mkAlert level type now]))%nat
                 then skipn 500 (alerts m ++ [mkAlert level type now])
                 else alerts m ++ [mkAlert level type now]) /\
    emergencyStops m' =
      emergencyStops m ++
      (if trigger && enableEmergencyStop (config m) && emergencyStopCallback m
       then [InCreateAlert] else []).
Proof.
  destruct m as [cfg al us ih sh act timer cb stops].
  unfold createAlert, bind, get, setAlerts, setUsageStats, when, callEmergencyStop, ret.
  cbn [config alerts usageStats inputHistory sessionHistory isActive
       safetyCheckTimer emergencyStopCallback emergencyStops].
  destruct (trigger && enableEmergencyStop cfg && cb);
    cbn [config alerts usageStats inputHistory sessionHistory isActive
         safetyCheckTimer emergencyStopCallback emergencyStops];
    destruct (1000 <? length (al ++ [mkAlert level type now]))%nat;
    eexists; (split; [reflexivity|]);
    cbn [config alerts usageStats inputHistory sessionHistory isActive
         safetyCheckTimer emergencyStopCallback emergencyStops];
    rewrite ?app_nil_r; auto 12.
Qed.

Lemma skipn_length_app {A : Type} (l l' : list A) : skipn (length l) (l ++ l') = l'.
Proof. induction l as [|x l IH]; [reflexivity | exact IH]. Qed.

(** The real-time check of the first event of a history, when its
    confidence is below the configured minimum: one warning, nothing else. *)
Lemma performRealTimeSafetyCheck_first_low now event m :
  length (inputHistory m) = 1%nat ->
  confidence event < minHumanLikenessScore (config m) ->
  exists m',
    performRealTimeSafetyCheck now event m = Some (tt, m') /\
    alertsCreated m m' = [mkAlert WARNING UNNATURAL_TIMING now] /\
    stopsMade m m' = [] /\
    (alerts m = [] -> alerts m' = [mkAlert WARNING UNNATURAL_TIMING now]) /\
    inputHistory m' = inputHistory m.
Proof.
  intros Hlen Hlow. apply Qltb_lt in Hlow.
  destruct (createAlert_spec now WARNING UNNATURAL_TIMING false m)
    as (m1 & Hrun & _ & Hih & _ & _ & _ & _ & Hus & Hal & Hst).
  exists m1. split; [|split; [|split; [|split]]].
  - unfold performRealTimeSafetyCheck, bind, get. rewrite Hlow.
    unfold when. rewrite Hrun, Hih, Hlen. reflexivity.
  - unfold alertsCreated. rewrite Hus.
    destruct (usageStats m); cbn [alertHistory withAlertHistory].
    apply skipn_length_app.
  - unfold stopsMade. rewrite Hst. cbn [andb]. rewrite app_nil_r.
    rewrite <- (app_nil_r (emergencyStops m)) at 2. apply skipn_length_app.
  - intros Hnone. rewrite Hal, Hnone. reflexivity.
  - exact Hih.
Qed.

(** C8: with the monitor active and [minHumanLikenessScore] 0.9, recording
    a single event (the first of the history) of confidence 0.5 creates
    exactly one alert, of level Warning and type unnatural-timing. *)
Theorem recordInputEvent_low_confidence
    (now : Z) (event : IInputEvent) (m : t) :
  isActive m = true ->
  inputHistory m = [] ->
  minHumanLikenessScore (config m) == 0.9 ->
  confidence event == 0.5 ->
  exists m',
    recordInputEvent now event m = Some (tt, m') /\
    alertsCreated m m' = [mkAlert WARNING UNNATURAL_TIMING now] /\
    (alerts m = [] -> alerts m' = [mkAlert WARNING UNNATURAL_TIMING now]).
Proof.
  intros Hactive Hempty Hmin Hconf.
  destruct m as [cfg al us ih sh act timer cb stops].
  cbn [isActive inputHistory config] in Hactive, Hempty, Hmin. subst act ih.
  set (m1 := mk cfg al (withOperationCount us (operationCount us + 1)%Z)
                [event] sh true timer cb stops).
  destruct (performRealTimeSafetyCheck_first_low now event m1 eq_refl)
    as (m' & Hrun & Hcreated & _ & Halerts & _).
  { cbn [config m1]. rewrite Hmin, Hconf. reflexivity. }
  exists m'. split; [|split].
  - unfold recordInputEvent, bind, get, setInputHistory, setUsageStats, when, ret.
    cbn [isActive negb inputHistory usageStats config alerts sessionHistory
         safetyCheckTimer emergencyStopCallback emergencyStops app length
         Z.of_nat Z.ltb Z.compare Pos.of_succ_nat Pos.compare Pos.compare_cont].
    exact Hrun.
  - unfold alertsCreated in *. destruct us. exact Hcreated.
  - exact Halerts.
Qed.

Lemma recordInputEvent_low_confidence_witness :
  exists m',
    recordInputEvent 1000 hesitantClick (startedMonitor strictConfig false)
    = Some (tt, m') /\
    alerts m' = [mkAlert WARNING UNNATURAL_TIMING 1000].
Proof.
  destruct (recordInputEvent_low_confidence 1000 hesitantClick
              (startedMonitor strictConfig false) eq_refl eq_refl
              (Qeq_refl 0.9) (Qeq_refl 0.5))
    as (m' & Hrun & _ & Halerts).
  exists m'. split; [exact Hrun | exact (Halerts eq_refl)].
Defined.

(** C10: a monitor is inactive when it is created and after
    [stopMonitoring]; while it is inactive, [recordInputEvent] changes
    nothing at all: no event, no count, no interval, no alert. *)
Theorem recordInputEvent_inactive :
  (forall config now, isActive (create config now) = false) /\
  (forall m m', stopMonitoring m = Some (tt, m') -> isActive m' = false) /\
  (forall now event m,
     isActive m = false -> recordInputEvent now event m = Some (tt, m)).
Proof.
  split; [|split].
  - reflexivity.
  - intros m m' H. unfold stopMonitoring, bind, get in H.
    destruct (isActive m) eqn:E; cbn [negb] in H.
    + unfold setMonitoring in H. injection H as <-. reflexivity.
    + apply ret_Some in H. destruct H as [_ <-]. exact E.
  - intros now event m H. unfold recordInputEvent, bind, get.
    rewrite H. reflexivity.
Qed.

Lemma recordInputEvent_inactive_witness :
  recordInputEvent 1000 hesitantClick (create strictConfig 0)
  = Some (tt, create strictConfig 0).
Proof.
  destruct recordInputEvent_inactive as (Hnew & _ & Hnoop).
  apply Hnoop. apply Hnew.
Defined.

(** The session-duration rule on an overdue session with emergency stop
    enabled and a callback registered: one critical alert, and the callback
    runs twice, once inside [createAlert] and once more in the rule. *)
Lemma checkSessionDuration_overdue now m :
  maxSessionDuration (config m) * 60 * 1000 <= elapsed m now ->
  enableEmergencyStop (config m) = true ->
  emergencyStopCallback m = true ->
  exists m',
    checkSessionDuration now m = Some (tt, m') /\
    alertsCreated m m' = [mkAlert CRITICAL EXCESSIVE_USAGE now] /\
    stopsMade m m' = [InCreateAlert; InCheckSessionDuration].
Proof.
  intros Hover Hen Hcb. apply Qle_bool_iff in Hover.
  destruct (createAlert_spec now CRITICAL EXCESSIVE_USAGE true m)
    as (m1 & Hrun & Hcfg & _ & _ & _ & _ & Hcb1 & Hus & _ & Hst).
  rewrite Hen, Hcb in Hst. cbn [andb] in Hst.
  destruct m1 as [cfg1 al1 us1 ih1 sh1 act1 timer1 cb1 stops1].
  cbn [config emergencyStopCallback usageStats emergencyStops] in Hcfg, Hcb1, Hus, Hst.
  eexists. split; [|split].
  - unfold checkSessionDuration, bind, get. rewrite Hover, Hen, Hrun.
    cbn [config emergencyStopCallback]. rewrite Hcfg, Hen, Hcb1, Hcb.
    cbn [andb when]. unfold callEmergencyStop. reflexivity.
  - unfold alertsCreated. cbn [usageStats]. rewrite Hus.
    destruct (usageStats m); cbn [alertHistory withAlertHistory].
    apply skipn_length_app.
  - unfold stopsMade. cbn [emergencyStops]. rewrite Hst, <- app_assoc.
    apply skipn_length_app.
Qed.

(** C1 (defect of the code): with [maxSessionDuration] one minute, emergency
    stop enabled and a callback registered, the periodic check run 61 seconds
    after the start creates exactly one alert, Critical and of type
    excessive-usage, but invokes the callback twice, not once. *)
Theorem timerTick_overdue_session (M : MathLib) :
  option_map
    (fun x => (alertsCreated (startedMonitor oneMinuteConfig true) (snd x),
               length (stopsMade (startedMonitor oneMinuteConfig true) (snd x))))
    (run M 61000 TimerTick (startedMonitor oneMinuteConfig true))
  = Some ([mkAlert CRITICAL EXCESSIVE_USAGE 61000], 2%nat).
Proof. vm_compute. reflexivity. Qed.

Lemma startedMonitor_reachable M config callback :
  reachable M (startedMonitor config callback).
Proof.
  apply (reachable_run M (create config 0) 0 (StartMonitoring callback)).
  - apply reachable_create.
  - reflexivity.
Qed.

(** C2 (defect of the code): in a reachable state the periodic check invokes
    the emergency-stop callback from [checkSessionDuration] itself, after and
    outside the alert creation that has already invoked it. *)
Theorem emergencyStop_outside_createAlert (M : MathLib) :
  reachable M (startedMonitor oneMinuteConfig true) /\
  option_map (fun x => stopsMade (startedMonitor oneMinuteConfig true) (snd x))
             (run M 61000 TimerTick (startedMonitor oneMinuteConfig true))
  = Some [InCreateAlert; InCheckSessionDuration].
Proof.
  split.
  - apply startedMonitor_reachable.
  - vm_compute. reflexivity.
Qed.

(** *** Safety score *)

Lemma deductAlert_penalty score alert :
  deductAlert score alert = score - levelPenalty (alert_level alert).
Proof. unfold deductAlert, levelPenalty. destruct (alert_level alert); reflexivity. Qed.

Lemma deductAlerts_total recent : forall score,
  fold_left deductAlert recent score == score - totalPenalty recent.
Proof.
  induction recent as [|alert rest IH]; intros score; cbn [fold_left totalPenalty].
  - ring.
  - rewrite IH, deductAlert_penalty. ring.
Qed.

Lemma safetyScoreOf_spec recent fatigue analysis :
  safetyScoreOf recent fatigue analysis == safetyScore_spec recent fatigue analysis.
Proof.
  unfold safetyScoreOf, safetyScore_spec, Math_max, Math_min. cbv zeta.
  assert (Hraw :
    (if Qltb (naturalness analysis) 0.7
     then (if isRepetitive analysis
           then fold_left deductAlert recent 100 - fatigue * 15
                - patternStrength analysis * 10
           else fold_left deductAlert recent 100 - fatigue * 15)
          - (0.7 - naturalness analysis) * 20
     else (if isRepetitive analysis
           then fold_left deductAlert recent 100 - fatigue * 15
                - patternStrength analysis * 10
           else fold_left deductAlert recent 100 - fatigue * 15))
    == 100 - totalPenalty recent - fatigue * 15
       - (if isRepetitive analysis then patternStrength analysis * 10 else 0)
       - (if Qltb (naturalness analysis) 0.7
          then (0.7 - naturalness analysis) * 20 else 0)).
  { destruct (Qltb (naturalness analysis) 0.7), (isRepetitive analysis);
      rewrite deductAlerts_total; ring. }
  rewrite Hraw. reflexivity.
Qed.




(** *** Fatigue *)

Lemma Qdiv_le_compat_r (a b c : Q) : 0 < c -> a <= b -> a / c <= b / c.
Proof.
  intros Hc Hab. apply Qmult_le_compat_r; [exact Hab|].
  apply Qlt_le_weak, Qinv_lt_0_compat. exact Hc.
Qed.

(** C7: for a valid configuration, fatigue does not decrease when the
    elapsed session time grows while the operation rate and the recent
    error rate stay the same. *)
Theorem calculateFatigueLevel_monotone (m1 m2 : t) (now1 now2 : Z) :
  config m1 = config m2 ->
  validConfig (config m1) ->
  0 < elapsed m1 now1 ->
  elapsed m1 now1 <= elapsed m2 now2 ->
  operationRate m1 now1 == operationRate m2 now2 ->
  sameErrorRate m1 m2 ->
  calculateFatigueLevel m1 now1 <= calculateFatigueLevel m2 now2.
Proof.
  intros Hcfg [Hmax _] _ Hle Hrate Herr.
  unfold calculateFatigueLevel, Math_min. cbv zeta. rewrite <- Hcfg.
  apply Q.min_le_compat_l.
  assert (Htime :
    Qmin 1 (elapsed m1 now1 / (maxSessionDuration (config m1) * 60 * 1000))
    <= Qmin 1 (elapsed m2 now2 / (maxSessionDuration (config m1) * 60 * 1000))).
  { apply Q.min_le_compat_l. apply Qdiv_le_compat_r; [lra | exact Hle]. }
  assert (Hr : Qmin 1 (operationRate m1 now1 / 20)
               == Qmin 1 (operationRate m2 now2 / 20))
    by (rewrite Hrate; reflexivity).
  unfold sameErrorRate in Herr.
  destruct (recentErrorRate m1) as [e1|], (recentErrorRate m2) as [e2|];
    try contradiction.
  - assert (He : Qmin 1 (e1 / maxErrorRate (config m1))
                 == Qmin 1 (e2 / maxErrorRate (config m1)))
      by (rewrite Herr; reflexivity).
    lra.
  - lra.
Qed.

Lemma calculateFatigueLevel_monotone_witness :
  calculateFatigueLevel (monitorWithOperations 10) 60000
  <= calculateFatigueLevel (monitorWithOperations 20) 120000.
Proof.
  apply calculateFatigueLevel_monotone.
  - reflexivity.
  - split; reflexivity.
  - reflexivity.
  - discriminate.
  - reflexivity.
  - exact I.
Defined.

End Monitor.

(** ** Invariants of the safety monitor *)

Section MonitorInvariants.

Import SafetyMonitor.

Lemma alertStep_refl m : alertStep m m.
Proof.
  unfold alertStep. repeat split; auto.
  - exists []. rewrite app_nil_r. reflexivity.
  - exists []. rewrite app_nil_r. auto.
Qed.

Lemma alertStep_trans m1 m2 m3 : alertStep m1 m2 -> alertStep m2 m3 -> alertStep m1 m3.
Proof.
  intros (Hc & Ha & Ht & Hcb & Hi & Hs & Ho & Hst & (n1 & Hn1) & (s1 & Hs1 & Hg1) & Hb & Hk)
         (Hc' & Ha' & Ht' & Hcb' & Hi' & Hs' & Ho' & Hst' & (n2 & Hn2) & (s2 & Hs2 & Hg2) & Hb' & Hk').
  unfold alertStep. repeat split; try congruence.
  - exists (n1 ++ n2). rewrite Hn2, Hn1, app_assoc. reflexivity.
  - exists (s1 ++ s2). split.
    + rewrite Hs2, Hs1, app_assoc. reflexivity.
    + intros Hg. rewrite (Hg1 Hg), Hg2; [reflexivity|]. rewrite Hc, Hcb. exact Hg.
  - auto.
  - auto.
Qed.

Lemma quietStep_refl m : quietStep m m.
Proof. split; [apply alertStep_refl | reflexivity]. Qed.

Lemma quietStep_trans m1 m2 m3 : quietStep m1 m2 -> quietStep m2 m3 -> quietStep m1 m3.
Proof.
  intros [H1 E1] [H2 E2]. split; [eapply alertStep_trans; eassumption | congruence].
Qed.

Section Steps.

Variable R : t -> t -> Prop.
Hypothesis R_refl : forall m, R m m.
Hypothesis R_trans : forall m1 m2 m3, R m1 m2 -> R m2 m3 -> R m1 m3.

Lemma stepsAt_ret m : stepsAt R (ret tt) m.
Proof. exists m. split; [reflexivity | apply R_refl]. Qed.

Lemma stepsAt_get (k : t -> Prog t unit) m :
  stepsAt R (k m) m -> stepsAt R (bind get k) m.
Proof. intros H. exact H. Qed.

Lemma stepsAt_seq (p q : Prog t unit) m :
  stepsAt R p m -> (forall m1, R m m1 -> stepsAt R q m1) ->
  stepsAt R (bind p (fun _ => q)) m.
Proof.
  intros (m1 & Hp & H1) Hq. destruct (Hq m1 H1) as (m2 & Hq2 & H2).
  exists m2. split.
  - unfold bind. rewrite Hp. exact Hq2.
  - eapply R_trans; eassumption.
Qed.

Lemma stepsAt_when (b : bool) p m : (b = true -> stepsAt R p m) -> stepsAt R (when b p) m.
Proof.
  intros H. destruct b; cbn [when]; [apply H; reflexivity | apply stepsAt_ret].
Qed.

End Steps.

Lemma length_cap {A : Type} (l : list A) (x : A) :
  (length l <= 1000)%nat ->
  (length (if (1000 <? length (l ++ [x]))%nat then skipn 500 (l ++ [x]) else l ++ [x])
   <= 1000)%nat.
Proof.
  intros H. destruct (1000 <? length (l ++ [x]))%nat eqn:E.
  - rewrite length_skipn, length_app. cbn [length]. lia.
  - apply Nat.ltb_ge in E. exact E.
Qed.

Lemma alertHistory_withAlertHistory u h : alertHistory (withAlertHistory u h) = h.
Proof. reflexivity. Qed.

(** [createAlert] is an alert step; without the trigger it is a quiet one. *)
Lemma createAlert_alertStep now level type trigger m :
  stepsAt alertStep (createAlert now level type trigger) m.
Proof.
  destruct (createAlert_spec now level type trigger m)
    as (m' & Hrun & Hc & Hi & Hs & Ha & Ht & Hcb & Hus & Hal & Hst).
  exists m'. split; [exact Hrun|].
  assert (Htail : alertsTail m -> alertsTail m').
  { intros (dropped & Hd). unfold alertsTail. rewrite Hus, Hal.
    rewrite alertHistory_withAlertHistory, Hd, <- app_assoc.
    destruct (1000 <? _)%nat.
    - exists (dropped ++ firstn 500 (alerts m ++ [mkAlert level type now])).
      rewrite <- app_assoc, firstn_skipn. reflexivity.
    - exists dropped. reflexivity. }
  unfold alertStep. rewrite Hus. destruct (usageStats m).
  cbn [withAlertHistory operationCount sessionStartTime alertHistory].
  repeat split; auto.
  - eexists. reflexivity.
  - eexists. split; [exact Hst|]. intros Hg.
    rewrite <- andb_assoc, Hg, andb_false_r. reflexivity.
  - intros Hb. rewrite Hal. apply length_cap. exact Hb.
Qed.

Lemma createAlert_quietStep now level type m :
  stepsAt quietStep (createAlert now level type false) m.
Proof.
  destruct (createAlert_alertStep now level type false m) as (m' & Hrun & Hstep).
  exists m'. split; [exact Hrun|]. split; [exact Hstep|].
  destruct (createAlert_spec now level type false m)
    as (m2 & Hrun2 & _ & _ & _ & _ & _ & _ & _ & _ & Hst).
  rewrite Hrun in Hrun2. injection Hrun2 as <-.
  rewrite Hst. cbn [andb]. apply app_nil_r.
Qed.

Lemma quiet_is_alertStep p m : stepsAt quietStep p m -> stepsAt alertStep p m.
Proof. intros (m' & H & Hq & _). exists m'. auto. Qed.

Lemma setUsageStats_quietStep u m :
  operationCount u = operationCount (usageStats m) ->
  sessionStartTime u = sessionStartTime (usageStats m) ->
  alertHistory u = alertHistory (usageStats m) ->
  stepsAt quietStep (setUsageStats u) m.
Proof.
  intros Ho Hs Ha. eexists. split; [reflexivity|].
  split; [|reflexivity]. unfold alertStep.
  cbn [config alerts usageStats inputHistory sessionHistory isActive
       safetyCheckTimer emergencyStopCallback emergencyStops].
  repeat split; auto.
  - exists []. rewrite app_nil_r. exact Ha.
  - exists []. rewrite app_nil_r. auto.
  - unfold alertsTail. cbn [usageStats alerts]. rewrite Ha. auto.
Qed.

Lemma callEmergencyStop_alertStep site m :
  enableEmergencyStop (config m) && emergencyStopCallback m = true ->
  stepsAt alertStep (callEmergencyStop site) m.
Proof.
  intros Hg. eexists. split; [reflexivity|]. unfold alertStep.
  cbn [config alerts usageStats inputHistory sessionHistory isActive
       safetyCheckTimer emergencyStopCallback emergencyStops].
  repeat split; auto.
  - exists []. rewrite app_nil_r. reflexivity.
  - exists [site]. split; [reflexivity|]. intros Hf. congruence.
Qed.

Ltac seq_alert :=
  apply (stepsAt_seq alertStep alertStep_trans).
Ltac seq_quiet :=
  apply (stepsAt_seq quietStep quietStep_trans).

Lemma checkSessionDuration_alertStep now m :
  stepsAt alertStep (checkSessionDuration now) m.
Proof.
  unfold checkSessionDuration. apply stepsAt_get. cbv beta.
  destruct (Qle_bool _ _).
  - seq_alert; [apply createAlert_alertStep|]. intros m1 _.
    apply stepsAt_get. cbv beta.
    apply (stepsAt_when alertStep alertStep_refl). apply callEmergencyStop_alertStep.
  - destruct (Qle_bool _ _).
    + apply createAlert_alertStep.
    + apply (stepsAt_ret alertStep alertStep_refl).
Qed.

Lemma checkRestRequirement_quietStep now m :
  stepsAt quietStep (checkRestRequirement now) m.
Proof.
  unfold checkRestRequirement. apply stepsAt_get. cbv beta.
  destruct (Qle_bool _ _).
  - seq_quiet; [apply createAlert_quietStep|]. intros m1 _.
    apply stepsAt_get. cbv beta.
    apply setUsageStats_quietStep; destruct (usageStats m1); reflexivity.
  - apply (stepsAt_ret quietStep quietStep_refl).
Qed.

Lemma checkBehaviorPatterns_alertStep M now m :
  stepsAt alertStep (checkBehaviorPatterns M now) m.
Proof.
  unfold checkBehaviorPatterns. apply stepsAt_get. cbv beta.
  seq_alert.
  - apply (stepsAt_when alertStep alertStep_refl). intros _.
    apply createAlert_alertStep.
  - intros m1 _. apply stepsAt_get. cbv beta.
    apply (stepsAt_when alertStep alertStep_refl). intros _.
    apply createAlert_alertStep.
Qed.

Lemma checkFatigueLevel_quietStep now m :
  stepsAt quietStep (checkFatigueLevel now) m.
Proof.
  unfold checkFatigueLevel. apply stepsAt_get. cbv beta.
  apply (stepsAt_when quietStep quietStep_refl). intros _.
  apply createAlert_quietStep.
Qed.

Lemma checkSystemHealth_quietStep now m :
  stepsAt quietStep (checkSystemHealth now) m.
Proof.
  unfold checkSystemHealth. apply stepsAt_get. cbv beta.
  seq_quiet.
  - apply (stepsAt_when quietStep quietStep_refl). intros _.
    apply createAlert_quietStep.
  - intros m1 _. apply stepsAt_get. cbv beta.
    apply (stepsAt_when quietStep quietStep_refl). intros _.
    apply createAlert_quietStep.
Qed.

Lemma performSafetyCheck_alertStep M now m :
  stepsAt alertStep (performSafetyCheck M now) m.
Proof.
  unfold performSafetyCheck. apply stepsAt_get. cbv beta.
  seq_alert.
  { apply quiet_is_alertStep. apply setUsageStats_quietStep;
      destruct (usageStats m); reflexivity. }
  intros m1 _. seq_alert; [apply checkSessionDuration_alertStep|].
  intros m2 _. seq_alert; [apply quiet_is_alertStep, checkRestRequirement_quietStep|].
  intros m3 _. seq_alert; [apply checkBehaviorPatterns_alertStep|].
  intros m4 _. seq_alert; [apply quiet_is_alertStep, checkFatigueLevel_quietStep|].
  intros m5 _. apply quiet_is_alertStep, checkSystemHealth_quietStep.
Qed.

Lemma performRealTimeSafetyCheck_quietStep now event m :
  stepsAt quietStep (performRealTimeSafetyCheck now event) m.
Proof.
  unfold performRealTimeSafetyCheck. apply stepsAt_get. cbv beta.
  seq_quiet.
  - apply (stepsAt_when quietStep quietStep_refl). intros _.
    apply createAlert_quietStep.
  - intros m1 _. apply stepsAt_get. cbv beta.
    destruct (2 <=? length (inputHistory m1))%nat;
      [|apply (stepsAt_ret quietStep quietStep_refl)].
    destruct (nth_error _ _); [|apply (stepsAt_ret quietStep quietStep_refl)].
    seq_quiet.
    + apply setUsageStats_quietStep; destruct (usageStats m1); reflexivity.
    + intros m2 _. apply (stepsAt_when quietStep quietStep_refl). intros _.
      apply createAlert_quietStep.
Qed.

Lemma alertStep_operationStep m m' : alertStep m m' -> operationStep m m'.
Proof.
  intros (Hc & Ha & Ht & Hcb & Hi & Hs & _ & _ & Hnew & Hstops & Hb & Hk).
  unfold operationStep, boundedHistories. rewrite Hi, Hs, Ha, Ht.
  repeat split; auto; tauto.
Qed.

Lemma recordInputEvent_stored now event m :
  isActive m = true ->
  recordInputEvent now event m
  = performRealTimeSafetyCheck now event (storedEvent event m).
Proof.
  intros Hactive. unfold recordInputEvent, bind, get. rewrite Hactive.
  cbn [negb]. unfold setInputHistory, setUsageStats, storedEvent.
  cbn [config alerts usageStats inputHistory sessionHistory isActive
       safetyCheckTimer emergencyStopCallback emergencyStops].
  cbv zeta.
  destruct (10000 <? Z.of_nat (length (inputHistory m ++ [event])))%Z;
    cbn [when]; unfold ret; rewrite Hactive; reflexivity.
Qed.

Lemma storedEvent_bounded event m :
  (Z.of_nat (length (inputHistory m)) <= 10000)%Z ->
  (Z.of_nat (length (inputHistory (storedEvent event m))) <= 10000)%Z.
Proof.
  intros H. unfold storedEvent. cbv zeta. cbn [inputHistory].
  destruct (10000 <? Z.of_nat (length (inputHistory m ++ [event])))%Z eqn:E.
  - rewrite length_skipn, length_app in *. cbn [length] in *.
    apply Z.ltb_lt in E. lia.
  - apply Z.ltb_ge in E. exact E.
Qed.

Lemma recordInputEvent_operationStep now event m :
  exists m', recordInputEvent now event m = Some (tt, m') /\
             operationStep m m' /\ emergencyStops m' = emergencyStops m.
Proof.
  destruct (isActive m) eqn:Hactive.
  - rewrite (recordInputEvent_stored now event m Hactive).
    destruct (performRealTimeSafetyCheck_quietStep now event (storedEvent event m))
      as (m' & Hrun & Hstep & Hquiet).
    exists m'. split; [exact Hrun|]. split; [|exact Hquiet].
    destruct Hstep as (Hc & Ha & Ht & Hcb & Hi & Hs & _ & _ & (new & Hnew) & _ & Hb & Hk).
    unfold operationStep, boundedHistories. rewrite Hc, Hi, Hs, Ha, Ht, Hnew, Hquiet.
    pose proof (storedEvent_bounded event m) as Hin.
    assert (Hh : alertHistory (usageStats (storedEvent event m))
                 = alertHistory (usageStats m))
      by (unfold storedEvent; cbn [usageStats]; destruct (usageStats m); reflexivity).
    rewrite Hh.
    change (config (storedEvent event m)) with (config m).
    change (alerts (storedEvent event m)) with (alerts m) in Hb.
    change (sessionHistory (storedEvent event m)) with (sessionHistory m).
    change (isActive (storedEvent event m)) with (isActive m).
    change (safetyCheckTimer (storedEvent event m)) with (safetyCheckTimer m).
    change (emergencyStops (storedEvent event m)) with (emergencyStops m).
    assert (Hkept : alertsTail m -> alertsTail (storedEvent event m)).
    { unfold alertsTail. rewrite Hh. auto. }
    repeat split; auto; try tauto.
    + exists new. reflexivity.
    + exists []. rewrite app_nil_r. auto.
  - exists m. split; [|split; [|reflexivity]].
    + unfold recordInputEvent, bind, get. rewrite Hactive. reflexivity.
    + apply alertStep_operationStep, alertStep_refl.
Qed.

Lemma recordSession_operationStep now session m :
  exists m', recordSession now session m = Some (tt, m') /\
             operationStep m m' /\ emergencyStops m' = emergencyStops m.
Proof.
  unfold recordSession, bind, get, setSessionHistory, setUsageStats.
  cbn [config alerts usageStats inputHistory sessionHistory isActive
       safetyCheckTimer emergencyStopCallback emergencyStops].
  cbv zeta.
  assert (Hcap : forall h : list IInputSession,
             (length h <= 100)%nat ->
             (length (if (100 <? length (h ++ [session]))%nat
                      then skipn 50 (h ++ [session]) else h ++ [session]) <= 100)%nat).
  { intros h Hh. destruct (100 <? length (h ++ [session]))%nat eqn:E.
    - rewrite length_skipn, length_app in *. cbn [length]. lia.
    - apply Nat.ltb_ge in E. exact E. }
  destruct (100 <? length (sessionHistory m ++ [session]))%nat eqn:E;
    cbn [when]; unfold ret, setSessionHistory;
    cbn [config alerts usageStats inputHistory sessionHistory isActive
         safetyCheckTimer emergencyStopCallback emergencyStops];
    (eexists; split; [reflexivity|]);
    (split; [|reflexivity]);
    unfold operationStep, boundedHistories, alertsTail;
    cbn [config alerts usageStats inputHistory sessionHistory isActive
         safetyCheckTimer emergencyStopCallback emergencyStops];
    specialize (Hcap (sessionHistory m)); rewrite E in Hcap;
    destruct (usageStats m); cbn [withSession alertHistory];
    (repeat split; auto; try tauto;
     [exists []; rewrite app_nil_r; reflexivity
     |exists []; rewrite app_nil_r; auto]).
Qed.

Lemma startMonitoring_operationStep callback m :
  exists m', startMonitoring callback m = Some (tt, m') /\
             operationStep m m' /\ emergencyStops m' = emergencyStops m.
Proof.
  unfold startMonitoring, bind, get.
  destruct (isActive m) eqn:Hactive.
  - exists m. split; [reflexivity|]. split; [|reflexivity].
    apply alertStep_operationStep, alertStep_refl.
  - unfold setMonitoring. eexists. split; [reflexivity|]. split; [|reflexivity].
    unfold operationStep, boundedHistories, alertsTail.
    cbn [config alerts usageStats inputHistory sessionHistory isActive
         safetyCheckTimer emergencyStopCallback emergencyStops].
    repeat split; auto; try tauto.
    + exists []. rewrite app_nil_r. reflexivity.
    + exists []. rewrite app_nil_r. auto.
Qed.

Lemma stopMonitoring_operationStep m :
  exists m', stopMonitoring m = Some (tt, m') /\
             operationStep m m' /\ emergencyStops m' = emergencyStops m.
Proof.
  unfold stopMonitoring, bind, get.
  destruct (isActive m) eqn:Hactive; cbn [negb].
  - unfold setMonitoring. eexists. split; [reflexivity|]. split; [|reflexivity].
    unfold operationStep, boundedHistories, alertsTail.
    cbn [config alerts usageStats inputHistory sessionHistory isActive
         safetyCheckTimer emergencyStopCallback emergencyStops].
    repeat split; auto; try tauto.
    + exists []. rewrite app_nil_r. reflexivity.
    + exists []. rewrite app_nil_r. auto.
  - exists m. split; [reflexivity|]. split; [|reflexivity].
    apply alertStep_operationStep, alertStep_refl.
Qed.

Lemma timerTick_operationStep M now m :
  exists m', run M now TimerTick m = Some (tt, m') /\ operationStep m m'.
Proof.
  unfold run, bind, get. destruct (safetyCheckTimer m).
  - destruct (performSafetyCheck_alertStep M now m) as (m' & Hrun & Hstep).
    exists m'. split; [exact Hrun|]. apply alertStep_operationStep, Hstep.
  - exists m. split; [reflexivity|].
    apply alertStep_operationStep, alertStep_refl.
Qed.

Lemma run_operationStep M now op m :
  exists m', run M now op m = Some (tt, m') /\ operationStep m m' /\
             (op <> TimerTick -> emergencyStops m' = emergencyStops m).
Proof.
  destruct op as [callback| |event|session|].
  - destruct (startMonitoring_operationStep callback m) as (m' & H1 & H2 & H3).
    exists m'; auto.
  - destruct (stopMonitoring_operationStep m) as (m' & H1 & H2 & H3).
    exists m'; auto.
  - destruct (recordInputEvent_operationStep now event m) as (m' & H1 & H2 & H3).
    exists m'; auto.
  - destruct (recordSession_operationStep now session m) as (m' & H1 & H2 & H3).
    exists m'; auto.
  - destruct (timerTick_operationStep M now m) as (m' & H1 & H2).
    exists m'. split; [exact H1|]. split; [exact H2|].
    intros Hop. destruct Hop. reflexivity.
Qed.

Lemma create_bounded config now : boundedHistories (create config now).
Proof. unfold boundedHistories, create. cbn. lia. Qed.

(** X1.  However a monitor is used, its three histories stay bounded:
    at most 1000 alerts, 10000 input events and 100 sessions. *)
Theorem reachable_histories_bounded M m :
  reachable M m -> boundedHistories m.
Proof.
  induction 1 as [config now|m now op m' _ IH Hrun].
  - apply create_bounded.
  - destruct (run_operationStep M now op m) as (m1 & Hrun1 & Hstep & _).
    rewrite Hrun in Hrun1. injection Hrun1 as <-.
    destruct Hstep as (_ & _ & _ & Hb & _). auto.
Qed.

Lemma reachable_histories_bounded_witness :
  boundedHistories (create defaultConfig 0).
Proof.
  apply (reachable_histories_bounded approxMath). apply reachable_create.
Defined.

(** X2.  Every operation returns, keeps the configuration and only appends
    to the alert history of the usage statistics. *)
Theorem run_appends_alertHistory M now op m :
  exists m' new,
    run M now op m = Some (tt, m') /\
    config m' = config m /\
    alertHistory (usageStats m') = alertHistory (usageStats m) ++ new.
Proof.
  destruct (run_operationStep M now op m)
    as (m' & Hrun & (Hc & (new & Hnew) & _) & _).
  exists m', new. auto.
Qed.

Lemma reachable_timer M m : reachable M m -> safetyCheckTimer m = isActive m.
Proof.
  induction 1 as [config now|m now op m' _ IH Hrun].
  - reflexivity.
  - destruct (run_operationStep M now op m) as (m1 & Hrun1 & Hstep & _).
    rewrite Hrun in Hrun1. injection Hrun1 as <-.
    destruct Hstep as (_ & _ & _ & _ & Ht & _). auto.
Qed.

(** X3.  With emergency stop disabled in the configuration, no sequence of
    operations ever invokes the emergency-stop callback. *)
Theorem reachable_disabled_never_stops M m :
  reachable M m ->
  enableEmergencyStop (config m) = false ->
  emergencyStops m = [].
Proof.
  induction 1 as [config now|m now op m' _ IH Hrun]; intros Hoff.
  - reflexivity.
  - destruct (run_operationStep M now op m) as (m1 & Hrun1 & Hstep & _).
    rewrite Hrun in Hrun1. injection Hrun1 as <-.
    destruct Hstep as (Hc & _ & (stops & Hstops & Hnone) & _).
    rewrite Hc in Hoff. rewrite Hstops, (IH Hoff), Hnone; [reflexivity|].
    rewrite Hoff. reflexivity.
Qed.

Lemma reachable_disabled_never_stops_witness :
  exists m',
    run approxMath 61000 TimerTick (startedMonitor noStopConfig true) = Some (tt, m') /\
    emergencyStops m' = [].
Proof.
  eexists. split.
  - vm_compute. reflexivity.
  - apply (reachable_disabled_never_stops approxMath).
    + apply (reachable_run approxMath (startedMonitor noStopConfig true) 61000 TimerTick).
      * apply (reachable_run approxMath (create noStopConfig 0) 0 (StartMonitoring true)).
        -- apply reachable_create.
        -- reflexivity.
      * vm_compute. reflexivity.
    + reflexivity.
Defined.

(** X4.  Only the periodic check can invoke the emergency-stop callback:
    starting, stopping, recording an input event or a session never does. *)
Theorem run_public_never_stops M now op m m' :
  op <> TimerTick ->
  run M now op m = Some (tt, m') ->
  emergencyStops m' = emergencyStops m.
Proof.
  intros Hop Hrun.
  destruct (run_operationStep M now op m) as (m1 & Hrun1 & _ & Hsame).
  rewrite Hrun in Hrun1. injection Hrun1 as <-. auto.
Qed.

Lemma run_public_never_stops_witness :
  exists m',
    run approxMath 61000 (RecordInputEvent hesitantClick)
        (startedMonitor oneMinuteConfig true) = Some (tt, m') /\
    emergencyStops m' = [].
Proof.
  eexists. split.
  - vm_compute. reflexivity.
  - apply (run_public_never_stops approxMath 61000 (RecordInputEvent hesitantClick)
             (startedMonitor oneMinuteConfig true)).
    + discriminate.
    + vm_compute. reflexivity.
Defined.

(** X5.  Once a monitor is stopped, the periodic check no longer runs: a
    timer tick on a reachable, inactive monitor leaves it as it is. *)
Theorem timerTick_inactive M now m :
  reachable M m ->
  isActive m = false ->
  run M now TimerTick m = Some (tt, m).
Proof.
  intros Hreach Hoff. apply reachable_timer in Hreach.
  unfold run, bind, get. rewrite Hreach, Hoff. reflexivity.
Qed.

Lemma timerTick_inactive_witness :
  run approxMath 61000 TimerTick (stoppedMonitor oneMinuteConfig true)
  = Some (tt, stoppedMonitor oneMinuteConfig true).
Proof.
  apply timerTick_inactive.
  - apply (reachable_run approxMath (startedMonitor oneMinuteConfig true) 5 StopMonitoring).
    + apply (reachable_run approxMath (create oneMinuteConfig 0) 0 (StartMonitoring true)).
      * apply reachable_create.
      * reflexivity.
    + reflexivity.
  - reflexivity.
Defined.

End MonitorInvariants.

(** ** Pattern detection *)

Section Patterns.
Import SafetyMonitor.

Lemma InputEventType_eqb_eq a b : InputEventType_eqb a b = true -> a = b.
Proof. destruct a, b; cbn; congruence. Qed.

Lemma patternsEqualFrom_eq pattern1 : forall pattern2,
  length pattern1 = length pattern2 ->
  patternsEqualFrom pattern1 pattern2 = true -> pattern1 = pattern2.
Proof.
  induction pattern1 as [|a r1 IH]; intros [|b r2] Hlen Heq; cbn in *;
    try discriminate; [reflexivity|].
  apply andb_true_iff in Heq as [Hab Hrest].
  apply InputEventType_eqb_eq in Hab. subst b.
  f_equal. apply IH; [lia|exact Hrest].
Qed.

Lemma patternsEqual_eq pattern1 pattern2 :
  patternsEqual pattern1 pattern2 = true -> pattern1 = pattern2.
Proof.
  unfold patternsEqual.
  destruct (length pattern1 =? length pattern2)%nat eqn:E; cbn [negb];
    [|discriminate].
  apply Nat.eqb_eq in E. apply patternsEqualFrom_eq, E.
Qed.

Lemma blocks_concat {A : Type} (n : nat) (pattern : list A) : forall k l,
  length l = (k * n)%nat ->
  (forall i, (i < k)%nat -> firstn n (skipn (i * n) l) = pattern) ->
  l = concat (repeat pattern k).
Proof.
  induction k as [|k IH]; intros l Hlen Hblocks.
  - destruct l; [reflexivity|discriminate].
  - cbn [repeat concat].
    rewrite <- (firstn_skipn n l) at 1. f_equal.
    + apply (Hblocks 0%nat). lia.
    + apply IH.
      * rewrite length_skipn. lia.
      * intros i Hi. rewrite skipn_skipn.
        replace (i * n + n)%nat with (S i * n)%nat by lia.
        apply (Hblocks (S i)). lia.
Qed.

Lemma isPatternRepeating_sound sequence n :
  (0 < n)%nat ->
  isPatternRepeating sequence n = true ->
  (length sequence mod n = 0)%nat /\
  sequence = concat (repeat (firstn n sequence) (length sequence / n)).
Proof.
  intros Hn. unfold isPatternRepeating.
  destruct (length sequence mod n =? 0)%nat eqn:Hmod; cbn [negb]; [|discriminate].
  cbv zeta. intros Hall. apply Nat.eqb_eq in Hmod.
  rewrite forallb_forall in Hall.
  split; [exact Hmod|].
  apply (blocks_concat n).
  - pose proof (Nat.div_mod_eq (length sequence) n). lia.
  - intros i Hi. destruct i as [|i]; [reflexivity|].
    symmetry. specialize (Hall (S i)).
    unfold slice in Hall. rewrite Nat.sub_0_r in Hall.
    replace (S i * n + n - S i * n)%nat with n in Hall by lia.
    apply patternsEqual_eq, Hall. apply in_seq. lia.
Qed.

Lemma candidate_bounds (sequence : list InputEventType) n :
  Qle_bool (inject_Z (Z.of_nat n)) (Math_min (lengthQ sequence / 2) 10) = true ->
  (n <= 10)%nat /\ (2 * n <= length sequence)%nat.
Proof.
  intros H. apply Qle_bool_iff in H. unfold Math_min, lengthQ in H.
  pose proof (Q.le_min_l (inject_Z (Z.of_nat (length sequence)) / 2) 10) as H1.
  pose proof (Q.le_min_r (inject_Z (Z.of_nat (length sequence)) / 2) 10) as H2.
  remember (Qmin (inject_Z (Z.of_nat (length sequence)) / 2) 10) as bound eqn:E.
  clear E.
  split.
  - assert (Hq : inject_Z (Z.of_nat n) <= inject_Z 10).
    { apply Qle_trans with bound; [exact H|exact H2]. }
    rewrite <- Zle_Qle in Hq. lia.
  - assert (Hq : inject_Z (Z.of_nat n) * 2 <= inject_Z (Z.of_nat (length sequence))).
    { remember (inject_Z (Z.of_nat n)) as a eqn:Ea.
      remember (inject_Z (Z.of_nat (length sequence))) as b eqn:Eb.
      clear Ea Eb. unfold Qdiv in H1. change (/ 2) with (1 # 2) in H1. lra. }
    change 2 with (inject_Z 2) in Hq. rewrite <- inject_Z_mult, <- Zle_Qle in Hq. lia.
Qed.

(** X6.  A non-zero result of [detectRepeatingPattern] is a period of the
    sequence: it lies between 2 and 10, fits at least twice, divides the
    length, and the sequence is its first block repeated. *)
Theorem detectRepeatingPattern_sound (sequence : list InputEventType) :
  detectRepeatingPattern sequence = 0%Z \/
  exists n : nat,
    detectRepeatingPattern sequence = Z.of_nat n /\
    (2 <= n <= 10)%nat /\ (2 * n <= length sequence)%nat /\
    (length sequence mod n = 0)%nat /\
    sequence = concat (repeat (firstn n sequence) (length sequence / n)).
Proof.
  unfold detectRepeatingPattern. cbv zeta.
  destruct (find _ _) as [n|] eqn:Hfind; [right|left; reflexivity].
  apply find_some in Hfind as [Hin Hrep].
  apply filter_In in Hin as [Hseq Hcand].
  apply in_seq in Hseq. apply candidate_bounds in Hcand.
  apply isPatternRepeating_sound in Hrep as [Hmod Hblocks]; [|lia].
  exists n. repeat split; try lia; assumption.
Qed.

Lemma detectRepeatingPattern_divides (sequence : list InputEventType) :
  detectRepeatingPattern sequence = 0%Z \/
  exists n : nat,
    detectRepeatingPattern sequence = Z.of_nat n /\
    (2 <= n <= 10)%nat /\ (length sequence mod n = 0)%nat.
Proof.
  unfold detectRepeatingPattern. cbv zeta.
  destruct (find _ _) as [n|] eqn:Hfind; [right|left; reflexivity].
  apply find_some in Hfind as [Hin Hrep].
  apply filter_In in Hin as [Hseq Hcand].
  apply in_seq in Hseq. apply candidate_bounds in Hcand.
  apply isPatternRepeating_sound in Hrep as [Hmod _]; [|lia].
  exists n. repeat split; try lia; assumption.
Qed.

Lemma lastn_length {A : Type} n (l : list A) :
  (n <= length l)%nat -> length (lastn n l) = n.
Proof. intros H. unfold lastn. rewrite length_skipn. lia. Qed.

(** X7.  On a history of at least fifty events the analysis looks at the last
    fifty, so the only pattern lengths it can report are 0, 2, 5 and 10. *)
Theorem analyzeBehaviorPatterns_full_window M m :
  (50 <= length (inputHistory m))%nat ->
  In (patternLength (analyzeBehaviorPatterns M m)) [0; 2; 5; 10]%Z.
Proof.
  intros Hlen. unfold analyzeBehaviorPatterns.
  destruct (length (inputHistory m) <? 10)%nat eqn:E;
    [apply Nat.ltb_lt in E; lia|].
  cbv zeta. cbn [patternLength].
  destruct (detectRepeatingPattern_divides
              (map event_type (lastn 50 (inputHistory m))))
    as [Hzero|(n & Hn & Hbounds & Hmod)].
  - rewrite Hzero. left. reflexivity.
  - rewrite Hn. rewrite length_map, lastn_length in Hmod by exact Hlen.
    assert (Hcases : n = 2%nat \/ n = 5%nat \/ n = 10%nat).
    { do 11 (destruct n as [|n]; [try lia; try discriminate Hmod; auto|]). lia. }
    destruct Hcases as [->|[->| ->]]; cbn; auto.
Qed.

Lemma analyzeBehaviorPatterns_full_window_witness :
  In (patternLength
        (analyzeBehaviorPatterns approxMath
           (mk defaultConfig [] (mkStats 0 0 0 0 None [] [] [] [] 0)
               (repeat hesitantClick 60) [] true true false [])))
     [0; 2; 5; 10]%Z.
Proof.
  apply analyzeBehaviorPatterns_full_window. cbn [inputHistory].
  rewrite repeat_length. lia.
Defined.

(** X8.  Fifty events whose types alternate between two (or less) are not
    reported repetitive: the period found is 2, and only a longer one counts. *)
Theorem analyzeBehaviorPatterns_alternating M m a b :
  (50 <= length (inputHistory m))%nat ->
  map event_type (lastn 50 (inputHistory m)) = concat (repeat [a; b] 25) ->
  patternLength (analyzeBehaviorPatterns M m) = 2%Z /\
  isRepetitive (analyzeBehaviorPatterns M m) = false.
Proof.
  intros Hlen Htypes. unfold analyzeBehaviorPatterns.
  destruct (length (inputHistory m) <? 10)%nat eqn:E;
    [apply Nat.ltb_lt in E; lia|].
  cbv zeta. cbn [patternLength isRepetitive]. rewrite Htypes.
  destruct a, b; vm_compute; split; reflexivity.
Qed.

Lemma analyzeBehaviorPatterns_alternating_witness :
  patternLength
    (analyzeBehaviorPatterns approxMath
       (mk defaultConfig [] (mkStats 0 0 0 0 None [] [] [] [] 0)
           (repeat hesitantClick 50) [] true true false [])) = 2%Z /\
  isRepetitive
    (analyzeBehaviorPatterns approxMath
       (mk defaultConfig [] (mkStats 0 0 0 0 None [] [] [] [] 0)
           (repeat hesitantClick 50) [] true true false [])) = false.
Proof.
  apply (analyzeBehaviorPatterns_alternating approxMath _ mouse_click mouse_click).
  - cbn [inputHistory]. rewrite repeat_length. lia.
  - vm_compute. reflexivity.
Defined.

End Patterns.

(** ** Fatigue and safety score *)

Section Scores.
Import SafetyMonitor.

Lemma totalPenalty_app recent more :
  totalPenalty (recent ++ more) == totalPenalty recent + totalPenalty more.
Proof.
  induction recent as [|alert rest IH]; cbn [app totalPenalty].
  - ring.
  - rewrite IH. ring.
Qed.

Lemma totalPenalty_nonneg recent : 0 <= totalPenalty recent.
Proof.
  induction recent as [|alert rest IH]; cbn [totalPenalty].
  - discriminate.
  - assert (0 <= levelPenalty (alert_level alert))
      by (destruct (alert_level alert); discriminate).
    lra.
Qed.

(** X9.  More recent alerts or more fatigue never raise the safety score. *)
Theorem safetyScoreOf_antitone recent more fatigue1 fatigue2 analysis :
  fatigue1 <= fatigue2 ->
  safetyScoreOf (recent ++ more) fatigue2 analysis
  <= safetyScoreOf recent fatigue1 analysis.
Proof.
  intros Hf. rewrite !safetyScoreOf_spec. unfold safetyScore_spec. cbv zeta.
  apply Q.max_le_compat_l, Q.min_le_compat_l.
  pose proof (totalPenalty_app recent more) as Happ.
  pose proof (totalPenalty_nonneg more) as Hmore.
  remember (totalPenalty (recent ++ more)) as p2 eqn:E2.
  remember (totalPenalty recent) as p1 eqn:E1.
  remember (totalPenalty more) as p eqn:E.
  remember (if isRepetitive analysis then patternStrength analysis * 10 else 0)
    as r eqn:Er.
  remember (if Qltb (naturalness analysis) 0.7
            then (0.7 - naturalness analysis) * 20 else 0) as n eqn:En.
  clear E1 E2 E Er En. lra.
Qed.

Lemma safetyScoreOf_antitone_witness :
  safetyScoreOf ([] ++ [mkAlert CRITICAL EXCESSIVE_USAGE 61000]) 0.5
                (mkAnalysis false 0 0 1 0.8)
  <= safetyScoreOf [] 0.25 (mkAnalysis false 0 0 1 0.8).
Proof. apply safetyScoreOf_antitone. discriminate. Defined.

Lemma Qdiv_nonneg (a b : Q) : 0 <= a -> 0 < b -> 0 <= a / b.
Proof.
  intros Ha Hb. unfold Qdiv. apply Qmult_le_0_compat; [exact Ha|].
  apply Qinv_le_0_compat. lra.
Qed.

Lemma Qmin_1_nonneg (a : Q) : 0 <= a -> 0 <= Qmin 1 a.
Proof. intros Ha. apply Q.min_glb; [discriminate|exact Ha]. Qed.

Lemma sum_nonneg {A : Type} (f : A -> Z) (l : list A) : forall acc,
  (0 <= acc)%Z -> Forall (fun x => (0 <= f x)%Z) l ->
  (0 <= fold_left (fun sum x => (sum + f x)%Z) l acc)%Z.
Proof.
  induction l as [|x rest IH]; intros acc Hacc Hall; cbn [fold_left].
  - exact Hacc.
  - inversion Hall as [|? ? Hx Hrest]; subst. apply IH; [lia|exact Hrest].
Qed.

Lemma recentErrorRate_nonneg m :
  Forall (fun session => (0 <= session_errorCount session)%Z) (sessionHistory m) ->
  match recentErrorRate m with Some errorRate => 0 <= errorRate | None => True end.
Proof.
  intros Hall. unfold recentErrorRate. cbv zeta.
  destruct (0 <? length (lastn 10 (sessionHistory m)))%nat; [|exact I].
  destruct (0 <? fold_left _ (lastn 10 (sessionHistory m)) 0)%Z eqn:Hops;
    [|discriminate].
  apply Z.ltb_lt in Hops. apply Qdiv_nonneg.
  - change 0 with (inject_Z 0). rewrite <- Zle_Qle.
    apply (sum_nonneg session_errorCount); [lia|].
    unfold lastn. apply Forall_skipn, Hall.
  - change 0 with (inject_Z 0). rewrite <- Zlt_Qlt. exact Hops.
Qed.

(** X10.  The fatigue level never exceeds 1, and it is not negative when
    the limits of the configuration are positive, time has passed since the
    session started and no counter is negative. *)
Theorem calculateFatigueLevel_range (m : t) (now : Z) :
  validConfig (config m) ->
  0 < elapsed m now ->
  (0 <= operationCount (usageStats m))%Z ->
  Forall (fun session => (0 <= session_errorCount session)%Z) (sessionHistory m) ->
  0 <= calculateFatigueLevel m now <= 1.
Proof.
  intros [Hmax Herr] Htime Hcount Hsessions.
  pose proof (recentErrorRate_nonneg m Hsessions) as Hrate.
  unfold calculateFatigueLevel, Math_min. cbv zeta.
  split; [|apply Q.le_min_l].
  assert (Ht : 0 <= Qmin 1 (elapsed m now / (maxSessionDuration (config m) * 60 * 1000))).
  { apply Qmin_1_nonneg, Qdiv_nonneg; lra. }
  assert (Hr : 0 <= Qmin 1 (operationRate m now / 20)).
  { apply Qmin_1_nonneg, Qdiv_nonneg; [|reflexivity].
    unfold operationRate. apply Qdiv_nonneg.
    - change 0 with (inject_Z 0). rewrite <- Zle_Qle. exact Hcount.
    - apply Qlt_shift_div_l; [reflexivity|lra]. }
  apply Q.min_glb; [discriminate|].
  destruct (recentErrorRate m) as [errorRate|].
  - assert (He : 0 <= Qmin 1 (errorRate / maxErrorRate (config m)))
      by (apply Qmin_1_nonneg, Qdiv_nonneg; assumption).
    lra.
  - lra.
Qed.

Lemma calculateFatigueLevel_range_witness :
  0 <= calculateFatigueLevel (monitorWithOperations 10) 60000 <= 1.
Proof.
  apply calculateFatigueLevel_range.
  - split; reflexivity.
  - reflexivity.
  - cbn. lia.
  - constructor.
Defined.

End Scores.

(** ** Queries of the safety monitor *)

Section Queries.
Import SafetyMonitor.

Lemma insertByTimestamp_permutation alert sorted :
  Permutation (alert :: sorted) (insertByTimestamp alert sorted).
Proof.
  induction sorted as [|next rest IH]; cbn [insertByTimestamp].
  - apply Permutation_refl.
  - destruct (alert_timestamp alert <? alert_timestamp next)%Z.
    + apply perm_trans with (next :: alert :: rest).
      * apply perm_swap.
      * apply perm_skip, IH.
    + apply Permutation_refl.
Qed.

Lemma sortByTimestamp_permutation alerts :
  Permutation alerts (sortByTimestamp alerts).
Proof.
  induction alerts as [|alert rest IH]; cbn [sortByTimestamp fold_right].
  - apply perm_nil.
  - apply perm_trans with (alert :: sortByTimestamp rest).
    + apply perm_skip, IH.
    + apply insertByTimestamp_permutation.
Qed.

Lemma insertByTimestamp_sorted alert sorted :
  StronglySorted newestFirst sorted ->
  StronglySorted newestFirst (insertByTimestamp alert sorted).
Proof.
  induction 1 as [|next rest Hrest IH Hnext]; cbn [insertByTimestamp].
  - constructor; constructor.
  - destruct (alert_timestamp alert <? alert_timestamp next)%Z eqn:E.
    + constructor; [exact IH|].
      apply Z.ltb_lt in E.
      apply (Permutation_Forall (insertByTimestamp_permutation alert rest)).
      constructor; [unfold newestFirst; lia|exact Hnext].
    + apply Z.ltb_ge in E. constructor.
      * constructor; assumption.
      * constructor; [exact E|].
        apply (Forall_impl _ (P := newestFirst next)); [|exact Hnext].
        unfold newestFirst. intros older Holder. lia.
Qed.

Lemma sortByTimestamp_sorted alerts :
  StronglySorted newestFirst (sortByTimestamp alerts).
Proof.
  induction alerts as [|alert rest IH]; cbn [sortByTimestamp fold_right].
  - constructor.
  - apply insertByTimestamp_sorted, IH.
Qed.

(** X11.  [getAlertHistory] without a limit returns the alerts of the
    monitor, each once, newest first; a limit of 0 counts as no limit, and a
    positive limit keeps that many of the newest. *)
Theorem getAlertHistory_newest_first (m : t) (n : positive) :
  Permutation (alerts m) (getAlertHistory None m) /\
  StronglySorted newestFirst (getAlertHistory None m) /\
  getAlertHistory (Some 0%Z) m = getAlertHistory None m /\
  getAlertHistory (Some (Z.pos n)) m
  = firstn (Pos.to_nat n) (getAlertHistory None m) /\
  length (getAlertHistory (Some (Z.pos n)) m)
  = Nat.min (Pos.to_nat n) (length (alerts m)).
Proof.
  unfold getAlertHistory. cbv zeta. cbn [Z.eqb].
  unfold sliceTo. cbn [Z.ltb Z.compare Z.to_nat].
  repeat split.
  - apply sortByTimestamp_permutation.
  - apply sortByTimestamp_sorted.
  - rewrite length_firstn.
    rewrite <- (Permutation_length (sortByTimestamp_permutation (alerts m))).
    reflexivity.
Qed.

Lemma filter_pushIf condition issue issues :
  filter isHigh (pushIf condition issue issues)
  = filter isHigh issues ++ (if condition && isHigh issue then [issue] else []).
Proof.
  unfold pushIf. destruct condition; cbn [andb].
  - rewrite filter_app. cbn [filter]. destruct (isHigh issue); reflexivity.
  - rewrite app_nil_r. reflexivity.
Qed.

Lemma determineSafetyLevel_70 score :
  70 <= score -> determineSafetyLevel score <> danger.
Proof.
  intros Hscore. unfold determineSafetyLevel.
  destruct (Qle_bool 80 score); [discriminate|].
  assert (H60 : Qle_bool 60 score = true) by (apply Qle_bool_iff; lra).
  rewrite H60. discriminate.
Qed.

(** X12.  When the manual check declares the monitor safe, the score is at
    least 70 (so the status level is not danger), the session is within its
    maximal duration and the naturalness is at least 0.7. *)
Theorem performManualSafetyCheck_safe M m now :
  isSafe (performManualSafetyCheck M m now) = true ->
  70 <= calculateSafetyScore M m now /\
  status_level (getSafetyStatus M m now) <> danger /\
  elapsed m now <= maxSessionDuration (config m) * 60 * 1000 /\
  0.7 <= naturalness (analyzeBehaviorPatterns M m).
Proof.
  unfold performManualSafetyCheck. cbv zeta. cbn [isSafe].
  intros Hsafe. apply andb_true_iff in Hsafe as [Hscore Hhigh].
  apply Qle_bool_iff in Hscore. apply Nat.eqb_eq in Hhigh.
  rewrite !filter_pushIf in Hhigh. cbn [filter isHigh severity app] in Hhigh.
  rewrite !andb_true_r, !andb_false_r, !app_nil_r in Hhigh.
  rewrite length_app in Hhigh.
  split; [exact Hscore|]. split; [|split].
  - unfold getSafetyStatus. cbv zeta. cbn [status_level].
    apply determineSafetyLevel_70, Hscore.
  - apply Qltb_ge.
    destruct (Qltb (maxSessionDuration (config m) * 60 * 1000) (elapsed m now));
      [cbn [length] in Hhigh; lia|reflexivity].
  - apply Qltb_ge.
    destruct (Qltb (naturalness (analyzeBehaviorPatterns M m)) 0.7);
      [|reflexivity].
    destruct (Qltb (maxSessionDuration (config m) * 60 * 1000) (elapsed m now));
      cbn [length] in Hhigh; lia.
Qed.

Lemma performManualSafetyCheck_safe_witness :
  70 <= calculateSafetyScore approxMath (monitorWithOperations 10) 60000 /\
  status_level (getSafetyStatus approxMath (monitorWithOperations 10) 60000) <> danger /\
  elapsed (monitorWithOperations 10) 60000
  <= maxSessionDuration (config (monitorWithOperations 10)) * 60 * 1000 /\
  0.7 <= naturalness (analyzeBehaviorPatterns approxMath (monitorWithOperations 10)).
Proof.
  apply performManualSafetyCheck_safe. vm_compute. reflexivity.
Defined.

(** X13.  At the very moment the session reaches its maximal duration the
    periodic rule already raises its critical alert, while the manual check
    does not yet report the duration. *)
Theorem sessionLimit_reached M m now :
  elapsed m now == maxSessionDuration (config m) * 60 * 1000 ->
  ~ In excessive_duration (map issue_type (issues (performManualSafetyCheck M m now))) /\
  exists m',
    checkSessionDuration now m = Some (tt, m') /\
    alertHistory (usageStats m')
    = alertHistory (usageStats m) ++ [mkAlert CRITICAL EXCESSIVE_USAGE now].
Proof.
  intros Hlimit. split.
  - unfold performManualSafetyCheck. cbv zeta. cbn [issues].
    assert (Hnot : Qltb (maxSessionDuration (config m) * 60 * 1000) (elapsed m now)
                   = false) by (apply Qltb_ge; lra).
    rewrite Hnot. unfold pushIf.
    repeat match goal with |- context [if ?c then _ else _] => destruct c end;
      cbn; intuition discriminate.
  - assert (Hover : Qle_bool (maxSessionDuration (config m) * 60 * 1000) (elapsed m now)
                    = true) by (apply Qle_bool_iff; lra).
    destruct (createAlert_spec now CRITICAL EXCESSIVE_USAGE
                               (enableEmergencyStop (config m)) m)
      as (m1 & Hrun & Hcfg & _ & _ & _ & _ & Hcb1 & Hus & _ & _).
    unfold checkSessionDuration, bind, get. rewrite Hover, Hrun.
    assert (Hhist : alertHistory (usageStats m1)
                    = alertHistory (usageStats m) ++ [mkAlert CRITICAL EXCESSIVE_USAGE now])
      by (rewrite Hus; destruct (usageStats m); reflexivity).
    destruct (enableEmergencyStop (config m1) && emergencyStopCallback m1);
      cbn [when]; eexists; (split; [reflexivity|]); exact Hhist.
Qed.

Lemma sessionLimit_reached_witness :
  ~ In excessive_duration
       (map issue_type
            (issues (performManualSafetyCheck approxMath
                       (startedMonitor oneMinuteConfig true) 60000))) /\
  exists m',
    checkSessionDuration 60000 (startedMonitor oneMinuteConfig true) = Some (tt, m') /\
    alertHistory (usageStats m')
    = alertHistory (usageStats (startedMonitor oneMinuteConfig true))
      ++ [mkAlert CRITICAL EXCESSIVE_USAGE 60000].
Proof. apply sessionLimit_reached. reflexivity. Defined.

End Queries.

(** ** The real-time check *)

Section RealTime.
Import SafetyMonitor.

Lemma storedEvent_last_two event previous hist m :
  inputHistory m = hist ++ [previous] ->
  exists kept, inputHistory (storedEvent event m) = kept ++ [previous; event].
Proof.
  intros Hhist. unfold storedEvent. cbv zeta. cbn [inputHistory].
  rewrite Hhist, <- app_assoc. cbn [app].
  destruct (10000 <? _)%Z eqn:E.
  - exists (skipn 5000 hist). rewrite skipn_app.
    apply Z.ltb_lt in E. rewrite length_app in E. cbn [length] in E.
    replace (5000 - length hist)%nat with 0%nat by lia. reflexivity.
  - exists hist. reflexivity.
Qed.

Lemma nth_error_previous {A : Type} (kept : list A) previous last :
  (2 <=? length (kept ++ [previous; last]))%nat = true /\
  nth_error (kept ++ [previous; last]) (length (kept ++ [previous; last]) - 2)
  = Some previous.
Proof.
  rewrite length_app. cbn [length]. split.
  - apply Nat.leb_le. lia.
  - replace (length kept + 2 - 2)%nat with (length kept + 0)%nat by lia.
    rewrite nth_error_app2 by lia.
    replace (length kept + 0 - length kept)%nat with 0%nat by lia. reflexivity.
Qed.

Lemma when_createAlert now level type condition m :
  exists m',
    when condition (createAlert now level type false) m = Some (tt, m') /\
    config m' = config m /\
    inputHistory m' = inputHistory m /\
    alertHistory (usageStats m')
    = alertHistory (usageStats m)
      ++ (if condition then [mkAlert level type now] else []) /\
    operationIntervals (usageStats m') = operationIntervals (usageStats m).
Proof.
  destruct condition; cbn [when].
  - destruct (createAlert_spec now level type false m)
      as (m' & Hrun & Hcfg & Hih & _ & _ & _ & _ & Hus & _).
    exists m'. rewrite Hus. destruct (usageStats m).
    cbn [withAlertHistory alertHistory operationIntervals]. auto.
  - exists m. rewrite app_nil_r. auto.
Qed.

Lemma performRealTimeSafetyCheck_pair now event previous last kept m :
  inputHistory m = kept ++ [previous; last] ->
  exists m',
    performRealTimeSafetyCheck now event m = Some (tt, m') /\
    alertHistory (usageStats m')
    = alertHistory (usageStats m) ++ realTimeAlerts (config m) now previous event /\
    operationIntervals (usageStats m')
    = operationIntervals (usageStats m)
      ++ [(event_timestamp event - event_timestamp previous)%Z].
Proof.
  intros Hhist.
  destruct (when_createAlert now WARNING UNNATURAL_TIMING
              (Qltb (confidence event) (minHumanLikenessScore (config m))) m)
    as (m1 & Hrun1 & Hcfg1 & Hih1 & Hal1 & Hint1).
  destruct (nth_error_previous kept previous last) as [Hlen Hnth].
  rewrite <- Hhist, <- Hih1 in Hlen, Hnth.
  remember (mk (config m1) (alerts m1)
               (withOperationIntervals (usageStats m1)
                  (operationIntervals (usageStats m1)
                   ++ [(event_timestamp event - event_timestamp previous)%Z]))
               (inputHistory m1) (sessionHistory m1) (isActive m1)
               (safetyCheckTimer m1) (emergencyStopCallback m1)
               (emergencyStops m1)) as m2 eqn:E2.
  destruct (when_createAlert now INFO SUSPICIOUS_BEHAVIOR
              (event_timestamp event - event_timestamp previous <? 50)%Z m2)
    as (m3 & Hrun3 & _ & _ & Hal3 & Hint3).
  exists m3. split; [|split].
  - unfold performRealTimeSafetyCheck, bind, get. rewrite Hrun1, Hlen, Hnth.
    cbv zeta. unfold setUsageStats. rewrite <- E2. exact Hrun3.
  - rewrite Hal3, E2. cbn [usageStats].
    unfold realTimeAlerts. rewrite app_assoc, <- Hal1.
    destruct (usageStats m1); reflexivity.
  - rewrite Hint3, E2. cbn [usageStats]. rewrite <- Hint1.
    destruct (usageStats m1); reflexivity.
Qed.

(** X14.  An active monitor that already holds an event stores the interval
    between it and the next recorded event, and creates for the new event
    exactly: one Warning (unnatural timing) when its confidence is below the
    configured minimum, and one Info (suspicious behaviour) when the interval
    is under 50 ms; nothing else. *)
Theorem recordInputEvent_following now event previous hist m :
  isActive m = true ->
  inputHistory m = hist ++ [previous] ->
  exists m',
    recordInputEvent now event m = Some (tt, m') /\
    alertsCreated m m' = realTimeAlerts (config m) now previous event /\
    operationIntervals (usageStats m')
    = operationIntervals (usageStats m)
      ++ [(event_timestamp event - event_timestamp previous)%Z].
Proof.
  intros Hactive Hhist.
  destruct (storedEvent_last_two event previous hist m Hhist) as (kept & Hkept).
  destruct (performRealTimeSafetyCheck_pair now event previous event kept
              (storedEvent event m) Hkept) as (m' & Hrun & Hal & Hint).
  exists m'. split; [|split].
  - rewrite (recordInputEvent_stored now event m Hactive). exact Hrun.
  - unfold alertsCreated. rewrite Hal.
    change (config (storedEvent event m)) with (config m).
    assert (Hsame : alertHistory (usageStats (storedEvent event m))
                    = alertHistory (usageStats m))
      by (unfold storedEvent; cbn [usageStats]; destruct (usageStats m); reflexivity).
    rewrite Hsame. apply skipn_length_app.
  - rewrite Hint. unfold storedEvent. cbn [usageStats].
    destruct (usageStats m); reflexivity.
Qed.

Lemma recordInputEvent_following_witness :
  exists m',
    recordInputEvent 1040 (mkEvent key_press 1040 80 0.95)
      (mk defaultConfig [] (mkStats 0 0 1 0 None [] [] [] [] 0)
          [hesitantClick] [] true true false [])
    = Some (tt, m') /\
    alertsCreated
      (mk defaultConfig [] (mkStats 0 0 1 0 None [] [] [] [] 0)
          [hesitantClick] [] true true false []) m'
    = [mkAlert INFO SUSPICIOUS_BEHAVIOR 1040] /\
    operationIntervals (usageStats m') = [40%Z].
Proof.
  apply (recordInputEvent_following 1040 (mkEvent key_press 1040 80 0.95)
           hesitantClick []); reflexivity.
Defined.

End RealTime.

(** ** The rest rule *)

Section Rest.
Import SafetyMonitor.

(** X15.  When the rest rule fires it raises one Warning (fatigue detected),
    counts a rest period and restarts its clock: checked again before another
    full interval has passed, it does nothing.  (The clock is read with a
    fallback for a zero time stamp, hence [now <> 0].) *)
Theorem checkRestRequirement_restarts now later m :
  now <> 0%Z ->
  requiredRestInterval (config m) * 60 * 1000
  <= inject_Z (now - lastRestOrStart (usageStats m)) ->
  inject_Z (later - now) < requiredRestInterval (config m) * 60 * 1000 ->
  exists m',
    checkRestRequirement now m = Some (tt, m') /\
    alertsCreated m m' = [mkAlert WARNING FATIGUE_DETECTED now] /\
    restPeriods (usageStats m') = (restPeriods (usageStats m) + 1)%Z /\
    checkRestRequirement later m' = Some (tt, m').
Proof.
  intros Hnow Hdue Hsoon. apply Qle_bool_iff in Hdue.
  destruct (createAlert_spec now WARNING FATIGUE_DETECTED false m)
    as (m1 & Hrun & Hcfg & _ & _ & _ & _ & _ & Hus & _).
  eexists. split; [|split; [|split]].
  - unfold checkRestRequirement, bind, get. rewrite Hdue, Hrun.
    unfold setUsageStats. reflexivity.
  - unfold alertsCreated. cbn [usageStats]. rewrite Hus.
    destruct (usageStats m); cbn [withAlertHistory withRest alertHistory].
    apply skipn_length_app.
  - cbn [usageStats]. rewrite Hus.
    destruct (usageStats m); reflexivity.
  - unfold checkRestRequirement, bind, get. cbn [usageStats config].
    unfold lastRestOrStart at 1. cbn [withRest lastRestTime].
    apply Z.eqb_neq in Hnow. rewrite Hnow, Hcfg.
    apply Qltb_lt in Hsoon. unfold Qltb in Hsoon.
    apply negb_true_iff in Hsoon. rewrite Hsoon. reflexivity.
Qed.

Lemma checkRestRequirement_restarts_witness :
  exists m',
    checkRestRequirement 1800000 (startedMonitor defaultConfig false) = Some (tt, m') /\
    alertsCreated (startedMonitor defaultConfig false) m'
    = [mkAlert WARNING FATIGUE_DETECTED 1800000] /\
    restPeriods (usageStats m')
    = (restPeriods (usageStats (startedMonitor defaultConfig false)) + 1)%Z /\
    checkRestRequirement 1860000 m' = Some (tt, m').
Proof.
  apply checkRestRequirement_restarts.
  - discriminate.
  - discriminate.
  - reflexivity.
Defined.

End Rest.

(** ** What reachable monitors look like *)

Section Reachable.
Import SafetyMonitor.

Lemma reachable_invariant M (P : t -> Prop) :
  (forall config now, P (create config now)) ->
  (forall m m', operationStep m m' -> P m -> P m') ->
  forall m, reachable M m -> P m.
Proof.
  intros Hcreate Hstep m. induction 1 as [config now|m now op m' _ IH Hrun].
  - apply Hcreate.
  - destruct (run_operationStep M now op m) as (m1 & Hrun1 & Hop & _).
    rewrite Hrun in Hrun1. injection Hrun1 as <-.
    apply (Hstep m); assumption.
Qed.

(** X16.  The capped alert list of a monitor is always the end of the alert
    history that its usage statistics keep in full. *)
Theorem reachable_alerts_tail M m :
  reachable M m ->
  exists dropped, alertHistory (usageStats m) = dropped ++ alerts m.
Proof.
  apply (reachable_invariant M alertsTail).
  - intros config now. exists []. reflexivity.
  - intros m1 m2 (_ & _ & _ & _ & _ & Hk). exact Hk.
Qed.

Lemma reachable_alerts_tail_witness :
  exists m',
    run approxMath 61000 TimerTick (startedMonitor oneMinuteConfig true) = Some (tt, m') /\
    exists dropped, alertHistory (usageStats m') = dropped ++ alerts m'.
Proof.
  eexists. split.
  - vm_compute. reflexivity.
  - apply (reachable_alerts_tail approxMath).
    apply (reachable_run approxMath (startedMonitor oneMinuteConfig true) 61000 TimerTick).
    + apply (reachable_run approxMath (create oneMinuteConfig 0) 0 (StartMonitoring true)).
      * apply reachable_create.
      * reflexivity.
    + vm_compute. reflexivity.
Defined.

Lemma reachable_inputHistory M m :
  reachable M m -> (Z.of_nat (length (inputHistory m)) <= 10000)%Z.
Proof.
  intros Hreach.
  enough (Hb : boundedHistories m) by (destruct Hb as (_ & Hb & _); exact Hb).
  revert m Hreach. apply (reachable_invariant M boundedHistories).
  - intros config now. unfold boundedHistories, create. cbn. lia.
  - intros m1 m2 (_ & _ & _ & Hb & _). exact Hb.
Qed.

(** X17.  The first rule of [checkSystemHealth], an alert for an input
    history of more than 15000 events, never fires: [recordInputEvent] keeps
    the history at 10000 at most.  Only the rule on alert frequency is left. *)
Theorem checkSystemHealth_history_rule_idle M now m :
  reachable M m ->
  checkSystemHealth now m
  = when (10 <? length (recentAlerts m now))%nat
         (createAlert now WARNING SYSTEM_ANOMALY false) m.
Proof.
  intros Hreach. apply reachable_inputHistory in Hreach.
  unfold checkSystemHealth, bind, get.
  assert (Hidle : (15000 <? Z.of_nat (length (inputHistory m)))%Z = false)
    by (apply Z.ltb_ge; lia).
  rewrite Hidle. reflexivity.
Qed.

Lemma checkSystemHealth_history_rule_idle_witness :
  checkSystemHealth 5 (startedMonitor defaultConfig false)
  = when (10 <? length (recentAlerts (startedMonitor defaultConfig false) 5))%nat
         (createAlert 5 WARNING SYSTEM_ANOMALY false)
         (startedMonitor defaultConfig false).
Proof.
  apply (checkSystemHealth_history_rule_idle approxMath).
  apply (reachable_run approxMath (create defaultConfig 0) 0 (StartMonitoring false)).
  - apply reachable_create.
  - reflexivity.
Defined.

End Reachable.

(** ** The operation history of the randomizer *)

Section OperationHistory.
Import BehaviorRandomizer.

Lemma keepsHistory_trans r1 r2 r3 :
  keepsHistory r1 r2 -> keepsHistory r2 r3 -> keepsHistory r1 r3.
Proof. intros [H1 H2] [H3 H4]. split; congruence. Qed.

Lemma pushVariation_keepsHistory v r u r' :
  pushVariation v r = Some (u, r') -> keepsHistory r r'.
Proof. unfold pushVariation. intros H. injection H as _ <-. split; reflexivity. Qed.

Lemma liftRng_keepsHistory {A : Type} (m : Prog Rng.Tape A) r a r' :
  liftRng m r = Some (a, r') -> keepsHistory r r'.
Proof.
  intros H. apply liftRng_Some in H as (_ & _ & _ & _ & _ & _ & Ha & Ho).
  split; assumption.
Qed.

Lemma applyRhythmicVariation_keepsHistory now baseDelay r c r' :
  applyRhythmicVariation now baseDelay r = Some (c, r') -> keepsHistory r r'.
Proof.
  intros H. unfold applyRhythmicVariation in H. step H.
  apply get_Some in Hrun. destruct Hrun as [-> ->].
  destruct (Qeq_bool (rhythmicVariation (config r)) 0).
  - apply ret_Some in H. destruct H as [_ <-]. split; reflexivity.
  - step H. step H. apply ret_Some in H. destruct H as [_ <-].
    apply pushVariation_keepsHistory in Hrun0.
    apply keepsHistory_trans with s; [|exact Hrun0].
    destruct (3 <=? length _)%nat; [destruct (Qltb _ _)|];
      try (step Hrun; apply ret_Some in Hrun; destruct Hrun as [_ <-];
           match goal with
           | Hx : random _ = Some _ |- _ => apply liftRng_keepsHistory in Hx; exact Hx
           end);
      apply ret_Some in Hrun; destruct Hrun as [_ <-]; split; reflexivity.
Qed.

Lemma applyAttentionImpact_keepsHistory now baseDelay r c r' :
  applyAttentionImpact now baseDelay r = Some (c, r') -> keepsHistory r r'.
Proof.
  intros H. unfold applyAttentionImpact in H. step H.
  apply get_Some in Hrun. destruct Hrun as [-> ->].
  step H. step H. apply ret_Some in H. destruct H as [_ <-].
  apply liftRng_keepsHistory in Hrun. apply pushVariation_keepsHistory in Hrun0.
  eapply keepsHistory_trans; eassumption.
Qed.

Lemma applyFatigueImpact_keepsHistory now baseDelay r c r' :
  applyFatigueImpact now baseDelay r = Some (c, r') -> keepsHistory r r'.
Proof.
  intros H. unfold applyFatigueImpact in H. step H.
  apply get_Some in Hrun. destruct Hrun as [-> ->].
  step H. step H. apply ret_Some in H. destruct H as [_ <-].
  apply liftRng_keepsHistory in Hrun. apply pushVariation_keepsHistory in Hrun0.
  eapply keepsHistory_trans; eassumption.
Qed.

Lemma applyStrategicRandomization_keepsHistory M now baseDelay r c r' :
  applyStrategicRandomization M now baseDelay r = Some (c, r') -> keepsHistory r r'.
Proof.
  intros H. unfold applyStrategicRandomization in H. step H.
  apply get_Some in Hrun. destruct Hrun as [-> ->].
  step H. step H. apply ret_Some in H. destruct H as [_ <-].
  apply liftRng_keepsHistory in Hrun. apply pushVariation_keepsHistory in Hrun0.
  eapply keepsHistory_trans; eassumption.
Qed.

Lemma setOperationHistory_Some h r u r' :
  setOperationHistory h r = Some (u, r') ->
  operationHistory r' = h /\ attentionState r' = attentionState r.
Proof. unfold setOperationHistory. intros H. apply ret_Some in H as [_ <-]. auto. Qed.

(** X18.  A call of [randomizeDelay] that returns has put one entry at the
    end of the operation history, with the base delay, the delay it returns
    and the variations it returns; the history keeps at most 1000 entries,
    and the attention state is untouched. *)
Theorem randomizeDelay_operationHistory M now baseDelay context r res r' :
  randomizeDelay M now baseDelay context r = Some (res, r') ->
  (length (operationHistory r) <= 1000)%nat ->
  (length (operationHistory r') <= 1000)%nat /\
  (exists kept,
     operationHistory r'
     = kept ++ [mkOperation now (operationName context) baseDelay
                            (delay res) (result_variations res)]) /\
  attentionState r' = attentionState r.
Proof.
  intros H Hlen. unfold randomizeDelay in H.
  step H. step H. step H. step H. step H. step H.
  apply ret_Some in H. destruct H as [<- <-].
  apply get_Some in Hrun3. destruct Hrun3 as [-> ->].
  apply setOperationHistory_Some in Hrun4 as [Hset Hatt].
  apply applyRhythmicVariation_keepsHistory in Hrun.
  apply applyAttentionImpact_keepsHistory in Hrun0.
  apply applyFatigueImpact_keepsHistory in Hrun1.
  apply applyStrategicRandomization_keepsHistory in Hrun2.
  pose proof (keepsHistory_trans _ _ _ (keepsHistory_trans _ _ _
               (keepsHistory_trans _ _ _ Hrun Hrun0) Hrun1) Hrun2) as [Hh Ha].
  cbn [delay result_variations].
  rewrite Hset, Hatt, Hh. split; [|split; [|exact Ha]].
  - match goal with |- context [if ?c then _ else _] => destruct c eqn:E end.
    + rewrite length_skipn, length_app. cbn [length]. lia.
    + apply Nat.ltb_ge in E. exact E.
  - match goal with |- context [if ?c then _ else _] => destruct c eqn:E end.
    + exists (skipn 500 (operationHistory r)). rewrite skipn_app.
      apply Nat.ltb_lt in E. rewrite length_app in E. cbn [length] in E.
      replace (500 - length (operationHistory r))%nat with 0%nat by lia.
      reflexivity.
    + eexists. reflexivity.
Qed.

Lemma randomizeDelay_operationHistory_witness :
  exists res r',
    randomizeDelay approxMath 0 100 plainDelayContext freshRandomizer = Some (res, r') /\
    (length (operationHistory r') <= 1000)%nat /\
    (exists kept,
       operationHistory r'
       = kept ++ [mkOperation 0 (operationName plainDelayContext) 100
                              (delay res) (result_variations res)]) /\
    attentionState r' = attentionState freshRandomizer.
Proof.
  destruct (randomizeDelay_total approxMath 0 100 plainDelayContext freshRandomizer
              freshRandomizer_hasDraws) as (res & r' & Hrun).
  exists res, r'. split; [exact Hrun|].
  apply (randomizeDelay_operationHistory approxMath 0 100 plainDelayContext
           freshRandomizer res r' Hrun).
  cbn. lia.
Defined.

End OperationHistory.

(** ** Mutations of an operation sequence *)

Section SequenceMutations.
Import BehaviorRandomizer.

Context {T : Type}.

Lemma setNth_length (i : nat) (x : T) : forall l, length (setNth i x l) = length l.
Proof.
  induction i as [|i IH]; intros [|y l]; cbn [setNth length]; auto.
Qed.

Lemma setNth_exchange (a b : T) : forall l j,
  nth_error l j = Some b -> Permutation (a :: l) (b :: setNth j a l).
Proof.
  induction l as [|x l IH]; intros [|j] H; cbn in H; try discriminate.
  - injection H as ->. cbn [setNth]. apply perm_swap.
  - cbn [setNth]. apply perm_trans with (x :: a :: l); [apply perm_swap|].
    apply perm_trans with (x :: b :: setNth j a l); [|apply perm_swap].
    apply perm_skip, IH, H.
Qed.

Lemma setNth_swap (a b : T) : forall l i j,
  nth_error l i = Some a -> nth_error l j = Some b ->
  Permutation l (setNth j a (setNth i b l)).
Proof.
  induction l as [|x l IH]; intros [|i] [|j] Hi Hj; cbn in Hi, Hj;
    try discriminate; cbn [setNth].
  - injection Hi as ->. injection Hj as ->. apply Permutation_refl.
  - injection Hi as ->. apply setNth_exchange, Hj.
  - injection Hj as ->. apply setNth_exchange, Hi.
  - apply perm_skip, IH; assumption.
Qed.

Lemma filterIndexFrom_length (keep : nat -> bool) : forall (l : list T) i,
  (length (filterIndexFrom keep i l) <= length l)%nat.
Proof.
  induction l as [|x l IH]; intros i; cbn [filterIndexFrom length]; [lia|].
  specialize (IH (S i)). destruct (keep i); cbn [length]; lia.
Qed.

Lemma filterIndexFrom_drops_one (k : nat) : forall (l : list T) i,
  (length l <= S (length (filterIndexFrom (fun index => negb (index =? k)%nat) i l)))%nat.
Proof.
  induction l as [|x l IH]; intros i; cbn [filterIndexFrom length]; [lia|].
  destruct (i =? k)%nat eqn:E; cbn [negb length].
  - apply Nat.eqb_eq in E. subst i.
    assert (Hall : forall (l' : list T) j, (k < j)%nat ->
              filterIndexFrom (fun index => negb (index =? k)%nat) j l' = l').
    { induction l' as [|y l' IH']; intros j Hj; cbn [filterIndexFrom]; [reflexivity|].
      assert (Hne : (j =? k)%nat = false) by (apply Nat.eqb_neq; lia).
      rewrite Hne. cbn [negb]. f_equal. apply IH'. lia. }
    rewrite Hall by lia. lia.
  - specialize (IH (S i)). lia.
Qed.

Lemma reorderSequence_permutation now (sequence : list T) r out r' :
  reorderSequence now sequence r = Some (out, r') ->
  Permutation sequence (fst out).
Proof.
  unfold reorderSequence. destruct (length sequence <? 2)%nat.
  - intros H. apply ret_Some in H as [<- _]. apply Permutation_refl.
  - intros H. step H. step H.
    destruct (nth_error sequence a) as [x|] eqn:Ha; [|discriminate].
    destruct (nth_error sequence a0) as [y|] eqn:Hb; [|discriminate].
    step H. apply ret_Some in H as [<- _]. cbn [fst].
    apply setNth_swap; assumption.
Qed.

Lemma omitOperation_length now (sequence : list T) r out r' :
  omitOperation now sequence r = Some (out, r') ->
  (length (fst out) <= length sequence <= S (length (fst out)))%nat.
Proof.
  unfold omitOperation. destruct (length sequence =? 0)%nat.
  - intros H. apply ret_Some in H as [<- _]. cbn [fst]. lia.
  - intros H. step H. step H. apply ret_Some in H as [<- _]. cbn [fst].
    split; [apply filterIndexFrom_length|apply filterIndexFrom_drops_one].
Qed.

Lemma duplicateOperation_length now (sequence : list T) r out r' :
  duplicateOperation now sequence r = Some (out, r') ->
  (length sequence <= length (fst out) <= S (length sequence))%nat.
Proof.
  unfold duplicateOperation. destruct (length sequence =? 0)%nat.
  - intros H. apply ret_Some in H as [<- _]. cbn [fst]. lia.
  - intros H. step H.
    destruct (nth_error sequence a) as [x|] eqn:Ha; [|discriminate].
    step H. apply ret_Some in H as [<- _]. cbn [fst].
    rewrite length_app. cbn [length].
    pose proof (f_equal (@length T) (firstn_skipn a sequence)) as Hsplit.
    rewrite length_app in Hsplit. lia.
Qed.

Lemma gatedMutation_inv allowed should
    (mutate : list T -> Prog t (list T * option IBehaviorVariation)) acc out r r' :
  gatedMutation allowed should mutate acc r = Some (out, r') ->
  out = acc \/
  (truthy allowed = true /\
   exists r1 v r2, mutate (fst acc) r1 = Some (v, r2) /\ fst out = fst v).
Proof.
  unfold gatedMutation. intros H. step H. destruct a.
  - right. step H. apply ret_Some in H as [<- _].
    split.
    + unfold andAlso in Hrun. destruct (truthy allowed); [reflexivity|].
      apply ret_Some in Hrun as [Hfalse _]. discriminate.
    + exists s, a, s0. auto.
  - left. apply ret_Some in H as [<- _]. reflexivity.
Qed.

(** X19.  With omission and duplication not allowed, whatever
    [randomizeOperationSequence] returns is a rearrangement of the input. *)
Theorem randomizeOperationSequence_rearranges now (sequence : list T) context r res r' :
  truthy (allowOmission context) = false ->
  truthy (allowDuplication context) = false ->
  randomizeOperationSequence now sequence context r = Some (res, r') ->
  Permutation sequence (BehaviorRandomizer.sequence res).
Proof.
  intros Hom Hdu H. unfold randomizeOperationSequence in H.
  step H. step H. step H. apply ret_Some in H as [<- _].
  cbn [BehaviorRandomizer.sequence].
  apply gatedMutation_inv in Hrun1 as [->|[Htrue _]]; [|congruence].
  apply gatedMutation_inv in Hrun0 as [->|[Htrue _]]; [|congruence].
  apply gatedMutation_inv in Hrun as [->|(_ & r1 & v & r2 & Hmut & ->)].
  - apply Permutation_refl.
  - apply reorderSequence_permutation in Hmut. exact Hmut.
Qed.

(** X20.  Whatever the permissions, the sequence that
    [randomizeOperationSequence] returns differs in length from the input by
    one element at most. *)
Theorem randomizeOperationSequence_length now (sequence : list T) context r res r' :
  randomizeOperationSequence now sequence context r = Some (res, r') ->
  (length sequence <= S (length (BehaviorRandomizer.sequence res)))%nat /\
  (length (BehaviorRandomizer.sequence res) <= S (length sequence))%nat.
Proof.
  intros H. unfold randomizeOperationSequence in H.
  step H. step H. step H. apply ret_Some in H as [<- _].
  cbn [BehaviorRandomizer.sequence].
  assert (H1 : length (fst a) = length sequence).
  { apply gatedMutation_inv in Hrun as [->|(_ & r1 & v & r2 & Hmut & ->)];
      [reflexivity|].
    apply reorderSequence_permutation in Hmut.
    symmetry. apply Permutation_length, Hmut. }
  assert (H2 : (length (fst a0) <= length (fst a) <= S (length (fst a0)))%nat).
  { apply gatedMutation_inv in Hrun0 as [->|(_ & r1 & v & r2 & Hmut & ->)]; [lia|].
    apply omitOperation_length in Hmut. exact Hmut. }
  assert (H3 : (length (fst a0) <= length (fst a1) <= S (length (fst a0)))%nat).
  { apply gatedMutation_inv in Hrun1 as [->|(_ & r1 & v & r2 & Hmut & ->)]; [lia|].
    apply duplicateOperation_length in Hmut. exact Hmut. }
  lia.
Qed.

End SequenceMutations.

Section SequenceWitnesses.
Import BehaviorRandomizer.

Lemma randomizeOperationSequence_rearranges_witness :
  exists res r',
    randomizeOperationSequence 0 ["a"; "b"; "c"]%string
      (mkSequenceContext None (Some true) None None)
      (randomizerWith [0.01; 0.1; 0.1; 0.5; 0.5; 0.5]) = Some (res, r') /\
    Permutation ["a"; "b"; "c"]%string (BehaviorRandomizer.sequence res).
Proof.
  eexists. eexists. split.
  - vm_compute. reflexivity.
  - eapply (randomizeOperationSequence_rearranges 0 ["a"; "b"; "c"]%string
             (mkSequenceContext None (Some true) None None)
             (randomizerWith [0.01; 0.1; 0.1; 0.5; 0.5; 0.5])).
    + reflexivity.
    + reflexivity.
    + vm_compute. reflexivity.
Defined.

Lemma randomizeOperationSequence_length_witness :
  exists res r',
    randomizeOperationSequence 0 ["a"; "b"; "c"]%string openSequenceContext
      (randomizerWith [0.5; 0.01; 0.9; 0.5; 0.4]) = Some (res, r') /\
    (3 <= S (length (BehaviorRandomizer.sequence res)))%nat /\
    (length (BehaviorRandomizer.sequence res) <= 4)%nat.
Proof.
  eexists. eexists. split.
  - vm_compute. reflexivity.
  - eapply (randomizeOperationSequence_length 0 ["a"; "b"; "c"]%string
             openSequenceContext (randomizerWith [0.5; 0.01; 0.9; 0.5; 0.4])).
    vm_compute. reflexivity.
Defined.

End SequenceWitnesses.

(** ** Aiming correction *)

Section Curves.
Import HumanLikeBezierGenerator.

Lemma step_towards (from to k : Q) :
  0 <= k <= 1 -> towards from (from + (to - from) * k) to.
Proof.
  intros [Hk0 Hk1]. unfold towards. split; intros Hside.
  - assert (H1 : 0 <= (to - from) * k) by (apply Qmult_le_0_compat; lra).
    assert (H2 : 0 <= (to - from) * (1 - k)) by (apply Qmult_le_0_compat; lra).
    assert (E : (to - from) * (1 - k) == (to - from) - (to - from) * k) by ring.
    remember ((to - from) * k) as step eqn:Es.
    remember ((to - from) * (1 - k)) as rest eqn:Er. clear Es Er. lra.
  - assert (H1 : 0 <= (from - to) * k) by (apply Qmult_le_0_compat; lra).
    assert (H2 : 0 <= (from - to) * (1 - k)) by (apply Qmult_le_0_compat; lra).
    assert (E1 : (from - to) * k == - ((to - from) * k)) by ring.
    assert (E2 : (from - to) * (1 - k) == (from - to) + (to - from) * k) by ring.
    remember ((to - from) * k) as step eqn:Es.
    remember ((from - to) * k) as back eqn:Eb.
    remember ((from - to) * (1 - k)) as rest eqn:Er. clear Es Eb Er. lra.
Qed.

Lemma stay_towards (from to : Q) : towards from from to.
Proof. unfold towards. split; intros H; lra. Qed.

(** X23.  For an accuracy between 0 and 1, [generateAimingCorrection]
    returns the current point itself when the distance it computes to the
    target is below 1, and otherwise the current point plus, in each
    coordinate, the error times (1 - accuracy) x 0.1.  In both cases each
    coordinate of the result lies between that of the current point and that
    of the target: the correction is directed to the target and never passes
    it. *)
Theorem generateAimingCorrection_step M currentPoint targetPoint accuracy :
  0 <= accuracy <= 1 ->
  let errorX := px targetPoint - px currentPoint in
  let errorY := py targetPoint - py currentPoint in
  let distance := Math_sqrt M (errorX * errorX + errorY * errorY) in
  let corrected :=
    generateAimingCorrection M currentPoint targetPoint (Some accuracy) in
  (distance < 1 -> corrected = currentPoint) /\
  (1 <= distance ->
   corrected = mkPoint (px currentPoint + errorX * ((1 - accuracy) * 0.1))
                       (py currentPoint + errorY * ((1 - accuracy) * 0.1))) /\
  towards (px currentPoint) (px corrected) (px targetPoint) /\
  towards (py currentPoint) (py corrected) (py targetPoint).
Proof.
  intros [H0 H1]. cbv zeta. unfold generateAimingCorrection. cbv zeta.
  destruct (Qltb _ 1) eqn:Enear.
  - apply Qltb_lt in Enear. split; [reflexivity|]. split; [intros Hfar; lra|].
    split; apply stay_towards.
  - apply Qltb_ge in Enear. split; [intros Hnear; lra|]. split; [reflexivity|].
    cbn [px py]. split; apply step_towards; lra.
Qed.

Lemma generateAimingCorrection_step_witness :
  generateAimingCorrection approxMath (mkPoint 0 0) (mkPoint 30 40) (Some 0.5)
  = mkPoint (0 + (30 - 0) * ((1 - 0.5) * 0.1)) (0 + (40 - 0) * ((1 - 0.5) * 0.1)) /\
  towards 0 (px (generateAimingCorrection approxMath (mkPoint 0 0) (mkPoint 30 40)
                   (Some 0.5))) 30.
Proof.
  destruct (generateAimingCorrection_step approxMath (mkPoint 0 0) (mkPoint 30 40) 0.5)
    as (_ & Hfar & Hx & _).
  - split; discriminate.
  - split; [|exact Hx]. apply Hfar. vm_compute. discriminate.
Defined.

End Curves.

(** ** Delays and reaction times *)

Section DelayCalculator.
Import IntelligentDelayCalculator.

Lemma liftRng_inv {A : Type} (m : Prog Rng.Tape A) c a c' :
  liftRng m c = Some (a, c') ->
  m (rng c) = Some (a, rng c') /\
  inputSession c' = inputSession c /\ reactionModel c' = reactionModel c.
Proof.
  unfold liftRng. destruct (m (rng c)) as [[x tape]|]; [|discriminate].
  intros H. apply ret_Some in H as [<- <-]. auto.
Qed.

Lemma random_inv c x c' :
  random c = Some (x, c') ->
  0 <= x /\ x < 1 /\
  inputSession c' = inputSession c /\ reactionModel c' = reactionModel c.
Proof.
  intros H. apply liftRng_inv in H as (H & Hs & Hm).
  unfold Rng.random in H. destruct (rng c) as [|q tape]; [discriminate|].
  destruct (Rng.validDraw q) eqn:E; [|discriminate].
  apply ret_Some in H as [<- _]. unfold Rng.validDraw in E.
  apply andb_true_iff in E as [E0 E1].
  apply Qle_bool_iff in E0. apply Qltb_lt in E1. auto.
Qed.

(** X25.  [calculateHesitationTime] returns 0 (no hesitation) or a time of
    at least 200 ms and less than 1000 ms, scaled by 1 + fatigue; a negative
    probability never hesitates and a probability of 1 or more always does. *)
Theorem calculateHesitationTime_range (probability : Q) c time c' :
  calculateHesitationTime (Some probability) c = Some (time, c') ->
  0 <= fatigueLevel (inputSession c) ->
  (time = 0 \/
   200 * (1 + fatigueLevel (inputSession c)) <= time /\
   time < 1000 * (1 + fatigueLevel (inputSession c))) /\
  (probability < 0 -> time = 0) /\
  (1 <= probability -> 200 * (1 + fatigueLevel (inputSession c)) <= time).
Proof.
  intros H Hf. unfold calculateHesitationTime in H. cbv zeta in H.
  step H. apply random_inv in Hrun as (Hx0 & Hx1 & Hs & _).
  destruct (Qltb probability a) eqn:Egate.
  - apply ret_Some in H as [<- _]. apply Qltb_lt in Egate.
    split; [left; reflexivity|]. split; [reflexivity|]. intros Hp. lra.
  - apply Qltb_ge in Egate. step H. step H.
    apply random_inv in Hrun as (Hy0 & Hy1 & Hs0 & _).
    unfold get in Hrun0. apply ret_Some in Hrun0 as [<- <-].
    apply ret_Some in H as [<- _]. rewrite Hs0, Hs.
    remember (fatigueLevel (inputSession c)) as f eqn:E. clear E.
    assert (Hlo : 200 * (1 + f) <= (200 + a0 * (1000 - 200)) * (1 + f)).
    { apply Qmult_le_compat_r; [|lra].
      assert (0 <= a0 * (1000 - 200)) by (apply Qmult_le_0_compat; lra). lra. }
    assert (Hhi : (200 + a0 * (1000 - 200)) * (1 + f) < 1000 * (1 + f)).
    { apply Qmult_lt_compat_r; [lra|].
      assert (a0 * (1000 - 200) < 1 * (1000 - 200))
        by (apply Qmult_lt_compat_r; lra). lra. }
    split; [right; split; assumption|]. split; [intros Hp; lra|].
    intros _. exact Hlo.
Qed.

Lemma calculateHesitationTime_range_witness :
  exists time c',
    calculateHesitationTime (Some 0.1) (create freshSession [0.05; 0.5])
    = Some (time, c') /\
    (time = 0 \/
     200 * (1 + fatigueLevel (inputSession (create freshSession [0.05; 0.5]))) <= time /\
     time < 1000 * (1 + fatigueLevel (inputSession (create freshSession [0.05; 0.5])))) /\
    (0.1 < 0 -> time = 0) /\
    (1 <= 0.1 ->
     200 * (1 + fatigueLevel (inputSession (create freshSession [0.05; 0.5]))) <= time).
Proof.
  eexists. eexists. split.
  - vm_compute. reflexivity.
  - eapply (calculateHesitationTime_range 0.1 (create freshSession [0.05; 0.5])).
    + vm_compute. reflexivity.
    + discriminate.
Defined.

End DelayCalculator.

Section ReactionModel.
Import HumanReactionModel.

Lemma mapGet_mapSet_same key value entries :
  mapGet key (mapSet key value entries) = Some value.
Proof.
  unfold mapGet. induction entries as [|[k v] rest IH]; cbn [mapSet find fst].
  - rewrite String.eqb_refl. reflexivity.
  - destruct (String.eqb k key) eqn:E; cbn [find fst]; rewrite E.
    + reflexivity.
    + exact IH.
Qed.

Lemma mapGet_mapSet_other key key' value entries :
  key' <> key ->
  mapGet key' (mapSet key value entries) = mapGet key' entries.
Proof.
  intros Hne. unfold mapGet.
  induction entries as [|[k v] rest IH]; cbn [mapSet find fst].
  - assert (E : String.eqb key key' = false)
      by (apply String.eqb_neq; congruence).
    rewrite E. reflexivity.
  - destruct (String.eqb k key) eqn:E; cbn [find fst].
    + apply String.eqb_eq in E. subst k.
      assert (E' : String.eqb key key' = false)
        by (apply String.eqb_neq; congruence).
      rewrite E'. reflexivity.
    + destruct (String.eqb k key'); [reflexivity|exact IH].
Qed.

Lemma contextFactorOf_zero model context context' :
  contextFactorOf (setContextFactor context 0 model) context'
  = contextFactorOf (setContextFactor context 1 model) context'.
Proof.
  unfold contextFactorOf, setContextFactor. cbn [contextFactors].
  destruct (String.eqb context' context) eqn:E.
  - apply String.eqb_eq in E. subst context'.
    rewrite !mapGet_mapSet_same. reflexivity.
  - apply String.eqb_neq in E.
    rewrite !mapGet_mapSet_other by exact E. reflexivity.
Qed.

(** X26.  A context factor of 0 cannot be configured: after
    [setContextFactor(context, 0)] the full reaction time is computed as
    after [setContextFactor(context, 1)], for every parameter set and every
    outcome of the draws. *)
Theorem calculateFullReactionTime_zero_factor M model context params tape :
  calculateFullReactionTime M (setContextFactor context 0 model) params tape
  = calculateFullReactionTime M (setContextFactor context 1 model) params tape.
Proof.
  unfold calculateFullReactionTime, calculateBaseReaction, bind.
  change (baseReactionTime (setContextFactor context 0 model))
    with (baseReactionTime (setContextFactor context 1 model)).
  change (variability (setContextFactor context 0 model))
    with (variability (setContextFactor context 1 model)).
  destruct (Rng.gaussianRandom M _ _ tape) as [[reactionTime tape']|]; [|reflexivity].
  change (fatigueFactor (setContextFactor context 0 model))
    with (fatigueFactor (setContextFactor context 1 model)).
  destruct (params_context params) as [context'|]; [|reflexivity].
  rewrite contextFactorOf_zero. reflexivity.
Qed.

End ReactionModel.

Section Likeness.
Import HumanInputSimulator.

Lemma lookupOr_values table fallback name value :
  lookupOr table fallback name = Some value ->
  In value (fallback :: map snd table).
Proof.
  unfold lookupOr. destruct (inheritedName name); [discriminate|].
  destruct (find _ table) as [entry|] eqn:E; intros H; injection H as <-.
  - right. apply find_some in E as [Hin _]. apply in_map, Hin.
  - left. reflexivity.
Qed.

Lemma clamp_monotone (a b : Q) :
  a <= b -> Math_max 0 (Math_min 1 a) <= Math_max 0 (Math_min 1 b).
Proof.
  intros H. unfold Math_max, Math_min.
  apply Q.max_le_compat_l, Q.min_le_compat_l, H.
Qed.

(** X27.  The confidence that [calculateHumanLikeness] gives an operation
    lies between 0 and 1, and for a positive expected duration it does not
    grow with the distance between the actual and the expected duration. *)
Theorem calculateHumanLikeness_antitone
    (humanAccuracyLevel : Q) (operationType : string)
    (actual1 actual2 expected confidence1 confidence2 : Q) :
  0 < expected ->
  Qabs (actual1 - expected) <= Qabs (actual2 - expected) ->
  calculateHumanLikeness humanAccuracyLevel operationType actual1 (Some expected)
  = Some confidence1 ->
  calculateHumanLikeness humanAccuracyLevel operationType actual2 (Some expected)
  = Some confidence2 ->
  confidence2 <= confidence1 /\ 0 <= confidence2 /\ confidence1 <= 1.
Proof.
  intros Hpos Hdev H1 H2. unfold calculateHumanLikeness in H1, H2.
  cbv zeta in H1, H2.
  assert (Hnz : Qeq_bool expected 0 = false).
  { destruct (Qeq_bool expected 0) eqn:E; [|reflexivity].
    apply Qeq_bool_eq in E. lra. }
  rewrite Hnz in H1, H2.
  destruct (lookupOr _ 0.9 operationType) as [multiplier|] eqn:Hm; [|discriminate].
  apply lookupOr_values in Hm.
  assert (Hmult : 0 <= multiplier).
  { cbn [map snd In] in Hm.
    repeat (destruct Hm as [<-|Hm]; [discriminate|]). contradiction. }
  apply Some_injective in H1, H2. subst confidence1 confidence2.
  split; [|split].
  - apply clamp_monotone. apply Qmult_le_compat_r; [|exact Hmult].
    unfold Math_abs.
    assert (Hq : Qabs (actual1 - expected) / expected
                 <= Qabs (actual2 - expected) / expected).
    { unfold Qdiv. apply Qmult_le_compat_r; [exact Hdev|].
      apply Qinv_le_0_compat. lra. }
    remember (Qabs (actual1 - expected) / expected) as d1 eqn:E1.
    remember (Qabs (actual2 - expected) / expected) as d2 eqn:E2.
    clear E1 E2. lra.
  - apply Q.le_max_l.
  - unfold Math_max, Math_min. apply Q.max_lub; [discriminate|apply Q.le_min_l].
Qed.

Lemma calculateHumanLikeness_antitone_witness :
  exists confidence1 confidence2,
    calculateHumanLikeness 0.85 "key_press" 100 (Some 100) = Some confidence1 /\
    calculateHumanLikeness 0.85 "key_press" 150 (Some 100) = Some confidence2 /\
    confidence2 <= confidence1 /\ 0 <= confidence2 /\ confidence1 <= 1.
Proof.
  eexists. eexists. split; [vm_compute; reflexivity|].
  split; [vm_compute; reflexivity|].
  eapply (calculateHumanLikeness_antitone 0.85 "key_press" 100 150 100).
  - reflexivity.
  - discriminate.
  - vm_compute. reflexivity.
  - vm_compute. reflexivity.
Defined.

End Likeness.

Section DelayFloor.
Import IntelligentDelayCalculator.

(** What a draw leaves of a calculator and of its supply of draws. *)
Lemma gaussianRandom_draws M mean stdDev c :
  Forall positiveDraw (rng c) -> (2 <= length (rng c))%nat ->
  exists z c',
    gaussianRandom M mean stdDev c = Some (z, c') /\
    inputSession c' = inputSession c /\
    Forall positiveDraw (rng c') /\ (length (rng c) - 2 <= length (rng c'))%nat.
Proof.
  intros HF Hlen.
  destruct (gaussianRandom_returns M mean stdDev (rng c) HF Hlen) as [z Hz].
  unfold gaussianRandom, liftRng. rewrite Hz. eexists _, _.
  split; [reflexivity|]. cbn [inputSession rng].
  split; [reflexivity|]. split; [apply Forall_skipn, HF|].
  rewrite length_skipn. lia.
Qed.

Lemma random_draws c :
  Forall positiveDraw (rng c) -> (1 <= length (rng c))%nat ->
  exists x c',
    random c = Some (x, c') /\
    inputSession c' = inputSession c /\
    Forall positiveDraw (rng c') /\ (length (rng c) - 1 <= length (rng c'))%nat.
Proof.
  intros HF Hlen. unfold random, liftRng, Rng.random.
  destruct (rng c) as [|q tape] eqn:E; [cbn in Hlen; lia|].
  apply Forall_cons_iff in HF as [[H0 H1] HF].
  assert (Hv : Rng.validDraw q = true).
  { unfold Rng.validDraw. apply andb_true_iff. split.
    - apply Qle_bool_iff. lra.
    - apply Qltb_lt. exact H1. }
  rewrite Hv. eexists _, _. split; [reflexivity|]. cbn [inputSession rng length].
  split; [reflexivity|]. split; [exact HF|lia].
Qed.

Lemma applyDistribution_draws M Math_exp baseValue variance distribution c :
  Forall positiveDraw (rng c) -> (2 <= length (rng c))%nat ->
  exists v c',
    applyDistribution M Math_exp baseValue variance distribution c = Some (v, c') /\
    inputSession c' = inputSession c /\
    Forall positiveDraw (rng c') /\ (length (rng c) - 2 <= length (rng c'))%nat.
Proof.
  intros HF Hlen. unfold applyDistribution. destruct distribution.
  - apply gaussianRandom_draws; assumption.
  - destruct (random_draws c HF) as (x & c' & Hrun & Hs & HF' & Hlen'); [lia|].
    unfold bind. rewrite Hrun. eexists _, _. split; [reflexivity|].
    split; [exact Hs|]. split; [exact HF'|lia].
  - destruct (random_draws c HF) as (x & c' & Hrun & Hs & HF' & Hlen'); [lia|].
    unfold bind. rewrite Hrun. eexists _, _. split; [reflexivity|].
    split; [exact Hs|]. split; [exact HF'|lia].
  - destruct (gaussianRandom_draws M (Math_log M baseValue) (variance / baseValue)
                c HF Hlen) as (z & c' & Hrun & Hs & HF' & Hlen').
    unfold bind. rewrite Hrun. eexists _, _. split; [reflexivity|].
    split; [exact Hs|]. split; [exact HF'|exact Hlen'].
Qed.

Lemma applyContextAdjustments_returns delay context :
  match operationType context with
  | Some type => inheritedName type = false
  | None => True
  end ->
  exists adjusted, applyContextAdjustments delay context = Some adjusted.
Proof.
  intros Hown. unfold applyContextAdjustments. cbv zeta.
  assert (Hfirst : exists d1,
    match operationType context with
    | Some type =>
        if String.eqb type EmptyString then Some delay
        else
          match Some delay, getOperationComplexity type with
          | Some d, Some c =>
              Some (d * HumanReactionModel.calculateComplexityAdjustment c)
          | _, _ => None
          end
    | None => Some delay
    end = Some d1).
  { destruct (operationType context) as [type|]; [|eexists; reflexivity].
    destruct (String.eqb type EmptyString); [eexists; reflexivity|].
    unfold getOperationComplexity, lookupOr. rewrite Hown.
    destruct (find _ _); eexists; reflexivity. }
  destruct Hfirst as [d1 ->].
  destruct (complexity context), (importance context), (expected context) as [[|]|];
    cbn [option_map]; eexists; reflexivity.
Qed.

(** X28.  With four draws in supply, and an operation type that is a key of
    the complexity table or none of the names that every object inherits,
    [calculateDelay] returns, for each distribution and each context, a
    delay of at least a tenth of the configured base delay; the session is
    left as it was. *)
Theorem calculateDelay_floor M Math_exp config context c :
  Forall positiveDraw (rng c) -> (4 <= length (rng c))%nat ->
  match context with
  | Some context =>
      match operationType context with
      | Some type => inheritedName type = false
      | None => True
      end
  | None => True
  end ->
  exists delay c',
    calculateDelay M Math_exp config context c = Some (delay, c') /\
    baseDelay config * 0.1 <= delay /\
    inputSession c' = inputSession c.
Proof.
  intros HF Hlen Hown. unfold calculateDelay. cbv zeta.
  destruct (applyDistribution_draws M Math_exp (baseDelay config) (variance config)
              (distribution config) c HF)
    as (v & c1 & Hrun1 & Hs1 & HF1 & Hlen1); [lia|].
  unfold bind at 1. rewrite Hrun1. unfold bind at 1, get at 1.
  remember (v * (1 + fatigueMultiplier config * fatigueLevel (inputSession c1)))
    as scaled eqn:E. clear E.
  assert (Hctx : exists adjusted,
    match context with
    | Some context =>
        match applyContextAdjustments scaled context with
        | Some adjusted => ret adjusted
        | None => fail
        end
    | None => ret scaled
    end c1 = Some (adjusted, c1)).
  { destruct context as [context|]; [|eexists; reflexivity].
    destruct (applyContextAdjustments_returns scaled context Hown) as [adjusted ->].
    eexists. reflexivity. }
  destruct Hctx as [adjusted Hctx].
  unfold bind at 1. rewrite Hctx.
  destruct (gaussianRandom_draws M 0 (adjusted * 0.05) c1 HF1)
    as (noise & c2 & Hrun2 & Hs2 & _ & _); [lia|].
  unfold bind. rewrite Hrun2.
  eexists _, _. split; [reflexivity|]. split.
  - unfold Math_max. apply Q.le_max_l.
  - congruence.
Qed.

Lemma calculateDelay_floor_witness :
  exists delay c',
    calculateDelay approxMath (fun x => x) (mkDelayConfig 100 20 UNIFORM 0.5)
      (Some (mkContext (Some "text_input"%string) None (Some 1) (Some true)))
      (create freshSession (halves 4)) = Some (delay, c') /\
    100 * 0.1 <= delay /\
    inputSession c' = inputSession (create freshSession (halves 4)).
Proof.
  apply (calculateDelay_floor approxMath (fun x => x)
           (mkDelayConfig 100 20 UNIFORM 0.5)
           (Some (mkContext (Some "text_input"%string) None (Some 1) (Some true)))
           (create freshSession (halves 4))).
  - apply halves_positive.
  - cbn [rng create]. rewrite halves_length. lia.
  - reflexivity.
Defined.

End DelayFloor.

(** ** Attention and statistics of the randomizer *)

Section Attention.
Import BehaviorRandomizer.

Lemma setAttentionState_Some a r u r' :
  setAttentionState a r = Some (u, r') ->
  attentionState r' = a /\ variations r' = variations r /\
  operationHistory r' = operationHistory r /\ config r' = config r.
Proof.
  unfold setAttentionState. intros H. apply ret_Some in H as [_ <-]. auto.
Qed.

Lemma liftRng_frame {A : Type} (m : Prog Rng.Tape A) r a r' :
  liftRng m r = Some (a, r') ->
  attentionState r' = attentionState r /\ variations r' = variations r /\
  operationHistory r' = operationHistory r /\ config r' = config r.
Proof.
  intros H. apply liftRng_Some in H as (_ & _ & _ & Hc & _ & Hv & Ha & Ho). auto.
Qed.

Lemma updateAttentionDrift_frame M r u r' :
  updateAttentionDrift M r = Some (u, r') ->
  level (attentionState r') = level (attentionState r) /\
  focusPoint (attentionState r') = focusPoint (attentionState r) /\
  variations r' = variations r /\ operationHistory r' = operationHistory r.
Proof.
  intros H. unfold updateAttentionDrift in H. step H. step H. step H.
  apply liftRng_frame in Hrun as (Ha1 & Hv1 & Ho1 & _).
  apply liftRng_frame in Hrun0 as (Ha2 & Hv2 & Ho2 & _).
  apply get_Some in Hrun1 as [-> ->].
  apply setAttentionState_Some in H as (Ha & Hv & Ho & _).
  rewrite Ha, Hv, Ho. cbn [level focusPoint].
  rewrite Ha2, Ha1, Hv2, Hv1, Ho2, Ho1. auto.
Qed.

(** X29.  [updateAttentionState] sets the attention level to the old level
    plus the stimulus delta, kept between 0.1 and 1, and touches neither the
    variation history nor the operation history.  Without a stimulus the
    delta is +0.13: the level rises at every call until it reaches 1, the
    decay of 0.02 notwithstanding. *)
Theorem updateAttentionState_level M now stimulus r r' :
  updateAttentionState M now stimulus r = Some (tt, r') ->
  level (attentionState r')
  = Math_max 0.1 (Math_min 1.0 (level (attentionState r) + attentionDelta stimulus)) /\
  0.1 <= level (attentionState r') <= 1 /\
  variations r' = variations r /\
  operationHistory r' = operationHistory r /\
  attentionDelta None == 0.13 /\
  (stimulus = None -> level (attentionState r) <= 1 ->
   level (attentionState r) <= level (attentionState r')).
Proof.
  intros H. unfold updateAttentionState in H. cbv zeta in H.
  step H. apply get_Some in Hrun as [-> ->].
  step H. apply setAttentionState_Some in Hrun as (Ha0 & Hv0 & Ho0 & _).
  step H. apply updateAttentionDrift_frame in Hrun as (Hl1 & _ & Hv1 & Ho1).
  step H. apply liftRng_frame in Hrun as (Ha2 & Hv2 & Ho2 & _).
  assert (Hend : level (attentionState r') = level (attentionState s1) /\
                 variations r' = variations s1 /\
                 operationHistory r' = operationHistory s1).
  { destruct (Qltb a1 0.05).
    - step H. step H. step H.
      apply liftRng_frame in Hrun as (Ha3 & Hv3 & Ho3 & _).
      apply liftRng_frame in Hrun0 as (Ha4 & Hv4 & Ho4 & _).
      apply get_Some in Hrun1 as [-> ->].
      apply setAttentionState_Some in H as (Ha & Hv & Ho & _).
      rewrite Ha, Hv, Ho. cbn [level]. rewrite Ha4, Ha3, Hv4, Hv3, Ho4, Ho3. auto.
    - apply ret_Some in H as [_ <-]. auto. }
  destruct Hend as (Hl & Hv & Ho).
  assert (Hlevel : level (attentionState r')
                   = Math_max 0.1 (Math_min 1.0
                       (level (attentionState r) + attentionDelta stimulus))).
  { rewrite Hl, Ha2, Hl1, Ha0. reflexivity. }
  assert (Hdelta : attentionDelta None == 0.13) by (vm_compute; reflexivity).
  split; [exact Hlevel|]. split; [|split; [|split; [|split]]].
  - rewrite Hlevel. unfold Math_max, Math_min. split.
    + apply Q.le_max_l.
    + apply Q.max_lub; [discriminate|].
      apply Qle_trans with 1.0; [apply Q.le_min_l|discriminate].
  - congruence.
  - congruence.
  - exact Hdelta.
  - intros -> Hle. rewrite Hlevel. unfold Math_max, Math_min.
    apply Qle_trans with (Qmin 1.0 (level (attentionState r) + attentionDelta None));
      [|apply Q.le_max_r].
    apply Q.min_glb; [lra|]. rewrite Hdelta. lra.
Qed.

Lemma updateAttentionState_level_witness :
  exists r',
    updateAttentionState approxMath 7 None (randomizerWith (halves 5)) = Some (tt, r') /\
    0.1 <= level (attentionState r') <= 1.
Proof.
  destruct (updateAttentionState approxMath 7 None (randomizerWith (halves 5)))
    as [[[] r']|] eqn:E.
  - exists r'. split; [reflexivity|].
    apply updateAttentionState_level in E as (_ & Hrange & _). exact Hrange.
  - vm_compute in E. discriminate E.
Defined.

End Attention.

Section Statistics.
Import BehaviorRandomizer.

Lemma BehaviorVariationType_eqb_eq a b :
  BehaviorVariationType_eqb a b = true <-> a = b.
Proof. destruct a, b; cbn; split; congruence. Qed.

Lemma countVariation_total type counts :
  totalCount (countVariation type counts) = (totalCount counts + 1)%Z.
Proof.
  unfold totalCount. induction counts as [|[k n] rest IH]; cbn [countVariation].
  - reflexivity.
  - destruct (BehaviorVariationType_eqb k type); cbn [map snd fold_right] in *; lia.
Qed.

Lemma countVariation_keys type counts key :
  In key (map fst (countVariation type counts)) <->
  key = type \/ In key (map fst counts).
Proof.
  induction counts as [|[k n] rest IH]; cbn [countVariation map fst In].
  - intuition.
  - destruct (BehaviorVariationType_eqb k type) eqn:E; cbn [map fst In].
    + apply BehaviorVariationType_eqb_eq in E. subst k. intuition.
    + rewrite IH. intuition.
Qed.

Lemma countVariation_NoDup type counts :
  NoDup (map fst counts) -> NoDup (map fst (countVariation type counts)).
Proof.
  induction counts as [|[k n] rest IH]; intros Hnd; cbn [countVariation map fst].
  - constructor; [intros []|constructor].
  - inversion Hnd as [|? ? Hnotin Hrest]; subst.
    destruct (BehaviorVariationType_eqb k type) eqn:E; cbn [map fst].
    + constructor; assumption.
    + constructor; [|apply IH, Hrest].
      intros Hin. apply countVariation_keys in Hin as [->|Hin]; [|contradiction].
      assert (Hrefl : BehaviorVariationType_eqb type type = true)
        by (apply BehaviorVariationType_eqb_eq; reflexivity).
      congruence.
Qed.

Lemma countVariations_fold (vs : list IBehaviorVariation) : forall counts,
  NoDup (map fst counts) ->
  let result :=
    fold_left (fun counts v => countVariation (variation_type v) counts) vs counts in
  totalCount result = (totalCount counts + Z.of_nat (length vs))%Z /\
  NoDup (map fst result) /\
  (forall key, In key (map fst result) <->
               In key (map fst counts) \/ In key (map variation_type vs)).
Proof.
  induction vs as [|v rest IH]; intros counts Hnd; cbn [fold_left length map].
  - cbv zeta. split; [lia|]. split; [exact Hnd|]. intros key. cbn [In]. intuition.
  - specialize (IH (countVariation (variation_type v) counts)
                   (countVariation_NoDup _ _ Hnd)).
    cbv zeta in IH |- *. destruct IH as (Htotal & Hnodup & Hkeys).
    split; [|split; [exact Hnodup|]].
    + rewrite Htotal, countVariation_total. lia.
    + intros key. rewrite Hkeys, countVariation_keys. cbn [In]. intuition.
Qed.

(** X30.  In the statistics of the randomizer the counts per variation type
    add up to the number of variations, every type is listed once, and the
    types listed are those that occur in the variation history. *)
Theorem getStatistics_histogram (r : t) :
  totalCount (commonVariationTypes (getStatistics r))
  = Z.of_nat (totalVariations (getStatistics r)) /\
  totalVariations (getStatistics r) = length (variations r) /\
  NoDup (map fst (commonVariationTypes (getStatistics r))) /\
  (forall type,
     In type (map fst (commonVariationTypes (getStatistics r))) <->
     In type (map variation_type (variations r))).
Proof.
  unfold getStatistics. cbv zeta. cbn [commonVariationTypes totalVariations].
  destruct (countVariations_fold (variations r) [] (NoDup_nil _))
    as (Htotal & Hnodup & Hkeys).
  split; [|split; [reflexivity|split; [exact Hnodup|]]].
  - rewrite Htotal. reflexivity.
  - intros type. rewrite Hkeys. cbn [map In]. intuition.
Qed.

End Statistics.
